(** * todo-app: the action-item pipeline of [server.py]

    A shallow embedding of the deterministic core of [server.py]: the
    settings of [.env], the task ids, the processed-message ledger, the
    rule-based extractor [extract_action_items] with its date and priority
    helpers, the merger [add_auto_task], the e-mail filters
    [_is_calendar_email], [_strip_email_quotes] and [_is_calendar_body],
    the handling of one fetched message in [scan_email] with the ingest
    queue, and the reminder [nine_am_reminder] with the timer arithmetic of
    [_seconds_until].

    Python values are modelled as follows.
    - A [str] is the list of its code points ([N]).  White space, decimal
      digits, word characters and letter case are Python's: the tables are
      those of Unicode 14.0.0, as CPython 3.11 carries them.
    - A regular expression is a syntax tree obtained by parsing the pattern
      string of the source; matching is a backtracking search that lists
      the ways a pattern can match in the order [re] tries them.
    - A [datetime.date] is a record of year, month, day; ordinals and
      weekdays are computed as in CPython's [datetime].
    - The task store is a finite map from bucket names to task lists; the
      clock, the random id and the order in which a set is listed are
      explicit inputs; the files, the log and the module-level set are the
      state of a small state-and-exception monad.

    Left out: the time stamps of the log lines, the recovery of a corrupt
    [tasks.json] in [load_tasks] (the file holds a store or is absent), the
    locks, threads and timers (calls run one after the other), the network
    clients (IMAP, SMTP, HTTP) and the reading of PDF and Word files. *)

From Stdlib Require Import ZArith NArith Ascii String.
From stdpp Require Import gmap list strings.

Local Open Scope N_scope.

(** ** Text *)

Abbreviation str := (list N).

Module Text.

(** Code points of a literal, read as UTF-8. *)
Fixpoint utf8_decode (bs : list N) : str :=
  match bs with
  | [] => []
  | b0 :: t0 =>
      if b0 <? 192 then b0 :: utf8_decode t0
      else match t0 with
      | [] => [b0]
      | b1 :: t1 =>
          if b0 <? 224 then ((b0 - 192) * 64 + (b1 - 128)) :: utf8_decode t1
          else match t1 with
          | [] => [b0; b1]
          | b2 :: t2 =>
              if b0 <? 240
              then ((b0 - 224) * 4096 + (b1 - 128) * 64 + (b2 - 128)) :: utf8_decode t2
              else match t2 with
              | [] => [b0; b1; b2]
              | b3 :: t3 =>
                  ((b0 - 240) * 262144 + (b1 - 128) * 4096 + (b2 - 128) * 64 + (b3 - 128))
                    :: utf8_decode t3
              end
          end
      end
  end.

Definition u (x : string) : str :=
  utf8_decode (N_of_ascii <$> list_ascii_of_string x).

Definition LF : N := 10.

Definition in_range (lo hi c : N) : bool := (lo <=? c) && (c <=? hi).

(** [str.isspace] on one code point; also the class [\s]. *)
Definition is_space (c : N) : bool :=
  in_range 9 13 c || in_range 28 32 c || (c =? 133) || (c =? 160)
  || (c =? 5760) || in_range 8192 8202 c || (c =? 8232) || (c =? 8233)
  || (c =? 8239) || (c =? 8287) || (c =? 12288).

(** *** Character tables

    The tables that follow are those of Unicode 14.0.0, which CPython 3.11
    carries; characters below 128 are decided without them. *)

(** The characters for which [str.isalnum] holds, as ranges. *)
Definition ALNUM : list (N * N) :=
  [(48, 57); (65, 90); (97, 122); (170, 170); (178, 179); (181, 181); (185, 186); (188, 190);
   (192, 214); (216, 246); (248, 705); (710, 721); (736, 740); (748, 748); (750, 750);
   (880, 884); (886, 887); (890, 893); (895, 895); (902, 902); (904, 906); (908, 908);
   (910, 929); (931, 1013); (1015, 1153); (1162, 1327); (1329, 1366); (1369, 1369); (1376, 1416);
   (1488, 1514); (1519, 1522); (1568, 1610); (1632, 1641); (1646, 1647); (1649, 1747);
   (1749, 1749); (1765, 1766); (1774, 1788); (1791, 1791); (1808, 1808); (1810, 1839);
   (1869, 1957); (1969, 1969); (1984, 2026); (2036, 2037); (2042, 2042); (2048, 2069);
   (2074, 2074); (2084, 2084); (2088, 2088); (2112, 2136); (2144, 2154); (2160, 2183);
   (2185, 2190); (2208, 2249); (2308, 2361); (2365, 2365); (2384, 2384); (2392, 2401);
   (2406, 2415); (2417, 2432); (2437, 2444); (2447, 2448); (2451, 2472); (2474, 2480);
   (2482, 2482); (2486, 2489); (2493, 2493); (2510, 2510); (2524, 2525); (2527, 2529);
   (2534, 2545); (2548, 2553); (2556, 2556); (2565, 2570); (2575, 2576); (2579, 2600);
   (2602, 2608); (2610, 2611); (2613, 2614); (2616, 2617); (2649, 2652); (2654, 2654);
   (2662, 2671); (2674, 2676); (2693, 2701); (2703, 2705); (2707, 2728); (2730, 2736);
   (2738, 2739); (2741, 2745); (2749, 2749); (2768, 2768); (2784, 2785); (2790, 2799);
   (2809, 2809); (2821, 2828); (2831, 2832); (2835, 2856); (2858, 2864); (2866, 2867);
   (2869, 2873); (2877, 2877); (2908, 2909); (2911, 2913); (2918, 2927); (2929, 2935);
   (2947, 2947); (2949, 2954); (2958, 2960); (2962, 2965); (2969, 2970); (2972, 2972);
   (2974, 2975); (2979, 2980); (2984, 2986); (2990, 3001); (3024, 3024); (3046, 3058);
   (3077, 3084); (3086, 3088); (3090, 3112); (3114, 3129); (3133, 3133); (3160, 3162);
   (3165, 3165); (3168, 3169); (3174, 3183); (3192, 3198); (3200, 3200); (3205, 3212);
   (3214, 3216); (3218, 3240); (3242, 3251); (3253, 3257); (3261, 3261); (3293, 3294);
   (3296, 3297); (3302, 3311); (3313, 3314); (3332, 3340); (3342, 3344); (3346, 3386);
   (3389, 3389); (3406, 3406); (3412, 3414); (3416, 3425); (3430, 3448); (3450, 3455);
   (3461, 3478); (3482, 3505); (3507, 3515); (3517, 3517); (3520, 3526); (3558, 3567);
   (3585, 3632); (3634, 3635); (3648, 3654); (3664, 3673); (3713, 3714); (3716, 3716);
   (3718, 3722); (3724, 3747); (3749, 3749); (3751, 3760); (3762, 3763); (3773, 3773);
   (3776, 3780); (3782, 3782); (3792, 3801); (3804, 3807); (3840, 3840); (3872, 3891);
   (3904, 3911); (3913, 3948); (3976, 3980); (4096, 4138); (4159, 4169); (4176, 4181);
   (4186, 4189); (4193, 4193); (4197, 4198); (4206, 4208); (4213, 4225); (4238, 4238);
   (4240, 4249); (4256, 4293); (4295, 4295); (4301, 4301); (4304, 4346); (4348, 4680);
   (4682, 4685); (4688, 4694); (4696, 4696); (4698, 4701); (4704, 4744); (4746, 4749);
   (4752, 4784); (4786, 4789); (4792, 4798); (4800, 4800); (4802, 4805); (4808, 4822);
   (4824, 4880); (4882, 4885); (4888, 4954); (4969, 4988); (4992, 5007); (5024, 5109);
   (5112, 5117); (5121, 5740); (5743, 5759); (5761, 5786); (5792, 5866); (5870, 5880);
   (5888, 5905); (5919, 5937); (5952, 5969); (5984, 5996); (5998, 6000); (6016, 6067);
   (6103, 6103); (6108, 6108); (6112, 6121); (6128, 6137); (6160, 6169); (6176, 6264);
   (6272, 6276); (6279, 6312); (6314, 6314); (6320, 6389); (6400, 6430); (6470, 6509);
   (6512, 6516); (6528, 6571); (6576, 6601); (6608, 6618); (6656, 6678); (6688, 6740);
   (6784, 6793); (6800, 6809); (6823, 6823); (6917, 6963); (6981, 6988); (6992, 7001);
   (7043, 7072); (7086, 7141); (7168, 7203); (7232, 7241); (7245, 7293); (7296, 7304);
   (7312, 7354); (7357, 7359); (7401, 7404); (7406, 7411); (7413, 7414); (7418, 7418);
   (7424, 7615); (7680, 7957); (7960, 7965); (7968, 8005); (8008, 8013); (8016, 8023);
   (8025, 8025); (8027, 8027); (8029, 8029); (8031, 8061); (8064, 8116); (8118, 8124);
   (8126, 8126); (8130, 8132); (8134, 8140); (8144, 8147); (8150, 8155); (8160, 8172);
   (8178, 8180); (8182, 8188); (8304, 8305); (8308, 8313); (8319, 8329); (8336, 8348);
   (8450, 8450); (8455, 8455); (8458, 8467); (8469, 8469); (8473, 8477); (8484, 8484);
   (8486, 8486); (8488, 8488); (8490, 8493); (8495, 8505); (8508, 8511); (8517, 8521);
   (8526, 8526); (8528, 8585); (9312, 9371); (9450, 9471); (10102, 10131); (11264, 11492);
   (11499, 11502); (11506, 11507); (11517, 11517); (11520, 11557); (11559, 11559);
   (11565, 11565); (11568, 11623); (11631, 11631); (11648, 11670); (11680, 11686);
   (11688, 11694); (11696, 11702); (11704, 11710); (11712, 11718); (11720, 11726);
   (11728, 11734); (11736, 11742); (11823, 11823); (12293, 12295); (12321, 12329);
   (12337, 12341); (12344, 12348); (12353, 12438); (12445, 12447); (12449, 12538);
   (12540, 12543); (12549, 12591); (12593, 12686); (12690, 12693); (12704, 12735);
   (12784, 12799); (12832, 12841); (12872, 12879); (12881, 12895); (12928, 12937);
   (12977, 12991); (13312, 19903); (19968, 42124); (42192, 42237); (42240, 42508);
   (42512, 42539); (42560, 42606); (42623, 42653); (42656, 42735); (42775, 42783);
   (42786, 42888); (42891, 42954); (42960, 42961); (42963, 42963); (42965, 42969);
   (42994, 43009); (43011, 43013); (43015, 43018); (43020, 43042); (43056, 43061);
   (43072, 43123); (43138, 43187); (43216, 43225); (43250, 43255); (43259, 43259);
   (43261, 43262); (43264, 43301); (43312, 43334); (43360, 43388); (43396, 43442);
   (43471, 43481); (43488, 43492); (43494, 43518); (43520, 43560); (43584, 43586);
   (43588, 43595); (43600, 43609); (43616, 43638); (43642, 43642); (43646, 43695);
   (43697, 43697); (43701, 43702); (43705, 43709); (43712, 43712); (43714, 43714);
   (43739, 43741); (43744, 43754); (43762, 43764); (43777, 43782); (43785, 43790);
   (43793, 43798); (43808, 43814); (43816, 43822); (43824, 43866); (43868, 43881);
   (43888, 44002); (44016, 44025); (44032, 55203); (55216, 55238); (55243, 55291);
   (63744, 64109); (64112, 64217); (64256, 64262); (64275, 64279); (64285, 64285);
   (64287, 64296); (64298, 64310); (64312, 64316); (64318, 64318); (64320, 64321);
   (64323, 64324); (64326, 64433); (64467, 64829); (64848, 64911); (64914, 64967);
   (65008, 65019); (65136, 65140); (65142, 65276); (65296, 65305); (65313, 65338);
   (65345, 65370); (65382, 65470); (65474, 65479); (65482, 65487); (65490, 65495);
   (65498, 65500); (65536, 65547); (65549, 65574); (65576, 65594); (65596, 65597);
   (65599, 65613); (65616, 65629); (65664, 65786); (65799, 65843); (65856, 65912);
   (65930, 65931); (66176, 66204); (66208, 66256); (66273, 66299); (66304, 66339);
   (66349, 66378); (66384, 66421); (66432, 66461); (66464, 66499); (66504, 66511);
   (66513, 66517); (66560, 66717); (66720, 66729); (66736, 66771); (66776, 66811);
   (66816, 66855); (66864, 66915); (66928, 66938); (66940, 66954); (66956, 66962);
   (66964, 66965); (66967, 66977); (66979, 66993); (66995, 67001); (67003, 67004);
   (67072, 67382); (67392, 67413); (67424, 67431); (67456, 67461); (67463, 67504);
   (67506, 67514); (67584, 67589); (67592, 67592); (67594, 67637); (67639, 67640);
   (67644, 67644); (67647, 67669); (67672, 67702); (67705, 67742); (67751, 67759);
   (67808, 67826); (67828, 67829); (67835, 67867); (67872, 67897); (67968, 68023);
   (68028, 68047); (68050, 68096); (68112, 68115); (68117, 68119); (68121, 68149);
   (68160, 68168); (68192, 68222); (68224, 68255); (68288, 68295); (68297, 68324);
   (68331, 68335); (68352, 68405); (68416, 68437); (68440, 68466); (68472, 68497);
   (68521, 68527); (68608, 68680); (68736, 68786); (68800, 68850); (68858, 68899);
   (68912, 68921); (69216, 69246); (69248, 69289); (69296, 69297); (69376, 69415);
   (69424, 69445); (69457, 69460); (69488, 69505); (69552, 69579); (69600, 69622);
   (69635, 69687); (69714, 69743); (69745, 69746); (69749, 69749); (69763, 69807);
   (69840, 69864); (69872, 69881); (69891, 69926); (69942, 69951); (69956, 69956);
   (69959, 69959); (69968, 70002); (70006, 70006); (70019, 70066); (70081, 70084);
   (70096, 70106); (70108, 70108); (70113, 70132); (70144, 70161); (70163, 70187);
   (70272, 70278); (70280, 70280); (70282, 70285); (70287, 70301); (70303, 70312);
   (70320, 70366); (70384, 70393); (70405, 70412); (70415, 70416); (70419, 70440);
   (70442, 70448); (70450, 70451); (70453, 70457); (70461, 70461); (70480, 70480);
   (70493, 70497); (70656, 70708); (70727, 70730); (70736, 70745); (70751, 70753);
   (70784, 70831); (70852, 70853); (70855, 70855); (70864, 70873); (71040, 71086);
   (71128, 71131); (71168, 71215); (71236, 71236); (71248, 71257); (71296, 71338);
   (71352, 71352); (71360, 71369); (71424, 71450); (71472, 71483); (71488, 71494);
   (71680, 71723); (71840, 71922); (71935, 71942); (71945, 71945); (71948, 71955);
   (71957, 71958); (71960, 71983); (71999, 71999); (72001, 72001); (72016, 72025);
   (72096, 72103); (72106, 72144); (72161, 72161); (72163, 72163); (72192, 72192);
   (72203, 72242); (72250, 72250); (72272, 72272); (72284, 72329); (72349, 72349);
   (72368, 72440); (72704, 72712); (72714, 72750); (72768, 72768); (72784, 72812);
   (72818, 72847); (72960, 72966); (72968, 72969); (72971, 73008); (73030, 73030);
   (73040, 73049); (73056, 73061); (73063, 73064); (73066, 73097); (73112, 73112);
   (73120, 73129); (73440, 73458); (73648, 73648); (73664, 73684); (73728, 74649);
   (74752, 74862); (74880, 75075); (77712, 77808); (77824, 78894); (82944, 83526);
   (92160, 92728); (92736, 92766); (92768, 92777); (92784, 92862); (92864, 92873);
   (92880, 92909); (92928, 92975); (92992, 92995); (93008, 93017); (93019, 93025);
   (93027, 93047); (93053, 93071); (93760, 93846); (93952, 94026); (94032, 94032);
   (94099, 94111); (94176, 94177); (94179, 94179); (94208, 100343); (100352, 101589);
   (101632, 101640); (110576, 110579); (110581, 110587); (110589, 110590); (110592, 110882);
   (110928, 110930); (110948, 110951); (110960, 111355); (113664, 113770); (113776, 113788);
   (113792, 113800); (113808, 113817); (119520, 119539); (119648, 119672); (119808, 119892);
   (119894, 119964); (119966, 119967); (119970, 119970); (119973, 119974); (119977, 119980);
   (119982, 119993); (119995, 119995); (119997, 120003); (120005, 120069); (120071, 120074);
   (120077, 120084); (120086, 120092); (120094, 120121); (120123, 120126); (120128, 120132);
   (120134, 120134); (120138, 120144); (120146, 120485); (120488, 120512); (120514, 120538);
   (120540, 120570); (120572, 120596); (120598, 120628); (120630, 120654); (120656, 120686);
   (120688, 120712); (120714, 120744); (120746, 120770); (120772, 120779); (120782, 120831);
   (122624, 122654); (123136, 123180); (123191, 123197); (123200, 123209); (123214, 123214);
   (123536, 123565); (123584, 123627); (123632, 123641); (124896, 124902); (124904, 124907);
   (124909, 124910); (124912, 124926); (124928, 125124); (125127, 125135); (125184, 125251);
   (125259, 125259); (125264, 125273); (126065, 126123); (126125, 126127); (126129, 126132);
   (126209, 126253); (126255, 126269); (126464, 126467); (126469, 126495); (126497, 126498);
   (126500, 126500); (126503, 126503); (126505, 126514); (126516, 126519); (126521, 126521);
   (126523, 126523); (126530, 126530); (126535, 126535); (126537, 126537); (126539, 126539);
   (126541, 126543); (126545, 126546); (126548, 126548); (126551, 126551); (126553, 126553);
   (126555, 126555); (126557, 126557); (126559, 126559); (126561, 126562); (126564, 126564);
   (126567, 126570); (126572, 126578); (126580, 126583); (126585, 126588); (126590, 126590);
   (126592, 126601); (126603, 126619); (126625, 126627); (126629, 126633); (126635, 126651);
   (127232, 127244); (130032, 130041); (131072, 173791); (173824, 177976); (177984, 178205);
   (178208, 183969); (183984, 191456); (194560, 195101); (196608, 201546)].

(** The decimal digits ([str.isdecimal]), as ranges; each range starts at a
    digit zero and the digits follow in tens. *)
Definition DECIMAL : list (N * N) :=
  [(48, 57); (1632, 1641); (1776, 1785); (1984, 1993); (2406, 2415); (2534, 2543); (2662, 2671);
   (2790, 2799); (2918, 2927); (3046, 3055); (3174, 3183); (3302, 3311); (3430, 3439);
   (3558, 3567); (3664, 3673); (3792, 3801); (3872, 3881); (4160, 4169); (4240, 4249);
   (6112, 6121); (6160, 6169); (6470, 6479); (6608, 6617); (6784, 6793); (6800, 6809);
   (6992, 7001); (7088, 7097); (7232, 7241); (7248, 7257); (42528, 42537); (43216, 43225);
   (43264, 43273); (43472, 43481); (43504, 43513); (43600, 43609); (44016, 44025);
   (65296, 65305); (66720, 66729); (68912, 68921); (69734, 69743); (69872, 69881);
   (69942, 69951); (70096, 70105); (70384, 70393); (70736, 70745); (70864, 70873);
   (71248, 71257); (71360, 71369); (71472, 71481); (71904, 71913); (72016, 72025);
   (72784, 72793); (73040, 73049); (73120, 73129); (92768, 92777); (92864, 92873);
   (93008, 93017); (120782, 120831); (123200, 123209); (123632, 123641); (125264, 125273);
   (130032, 130041)].

(** The lower-case mapping of single characters: the characters from [lo]
    to [hi] in steps of [stride] go to [target], [target + stride], ...; the
    others are their own lower case. *)
Definition TOLOWER : list (N * N * N * N) :=
  [(65, 90, 1, 97); (192, 214, 1, 224); (216, 222, 1, 248); (256, 302, 2, 257);
   (304, 304, 1, 105); (306, 310, 2, 307); (313, 327, 2, 314); (330, 374, 2, 331);
   (376, 376, 1, 255); (377, 381, 2, 378); (385, 385, 1, 595); (386, 388, 2, 387);
   (390, 390, 1, 596); (391, 391, 1, 392); (393, 394, 1, 598); (395, 395, 1, 396);
   (398, 398, 1, 477); (399, 399, 1, 601); (400, 400, 1, 603); (401, 401, 1, 402);
   (403, 403, 1, 608); (404, 404, 1, 611); (406, 406, 1, 617); (407, 407, 1, 616);
   (408, 408, 1, 409); (412, 412, 1, 623); (413, 413, 1, 626); (415, 415, 1, 629);
   (416, 420, 2, 417); (422, 422, 1, 640); (423, 423, 1, 424); (425, 425, 1, 643);
   (428, 428, 1, 429); (430, 430, 1, 648); (431, 431, 1, 432); (433, 434, 1, 650);
   (435, 437, 2, 436); (439, 439, 1, 658); (440, 440, 1, 441); (444, 444, 1, 445);
   (452, 452, 1, 454); (453, 453, 1, 454); (455, 455, 1, 457); (456, 456, 1, 457);
   (458, 458, 1, 460); (459, 475, 2, 460); (478, 494, 2, 479); (497, 497, 1, 499);
   (498, 500, 2, 499); (502, 502, 1, 405); (503, 503, 1, 447); (504, 542, 2, 505);
   (544, 544, 1, 414); (546, 562, 2, 547); (570, 570, 1, 11365); (571, 571, 1, 572);
   (573, 573, 1, 410); (574, 574, 1, 11366); (577, 577, 1, 578); (579, 579, 1, 384);
   (580, 580, 1, 649); (581, 581, 1, 652); (582, 590, 2, 583); (880, 882, 2, 881);
   (886, 886, 1, 887); (895, 895, 1, 1011); (902, 902, 1, 940); (904, 906, 1, 941);
   (908, 908, 1, 972); (910, 911, 1, 973); (913, 929, 1, 945); (931, 939, 1, 963);
   (975, 975, 1, 983); (984, 1006, 2, 985); (1012, 1012, 1, 952); (1015, 1015, 1, 1016);
   (1017, 1017, 1, 1010); (1018, 1018, 1, 1019); (1021, 1023, 1, 891); (1024, 1039, 1, 1104);
   (1040, 1071, 1, 1072); (1120, 1152, 2, 1121); (1162, 1214, 2, 1163); (1216, 1216, 1, 1231);
   (1217, 1229, 2, 1218); (1232, 1326, 2, 1233); (1329, 1366, 1, 1377); (4256, 4293, 1, 11520);
   (4295, 4295, 1, 11559); (4301, 4301, 1, 11565); (5024, 5103, 1, 43888); (5104, 5109, 1, 5112);
   (7312, 7354, 1, 4304); (7357, 7359, 1, 4349); (7680, 7828, 2, 7681); (7838, 7838, 1, 223);
   (7840, 7934, 2, 7841); (7944, 7951, 1, 7936); (7960, 7965, 1, 7952); (7976, 7983, 1, 7968);
   (7992, 7999, 1, 7984); (8008, 8013, 1, 8000); (8025, 8031, 2, 8017); (8040, 8047, 1, 8032);
   (8072, 8079, 1, 8064); (8088, 8095, 1, 8080); (8104, 8111, 1, 8096); (8120, 8121, 1, 8112);
   (8122, 8123, 1, 8048); (8124, 8124, 1, 8115); (8136, 8139, 1, 8050); (8140, 8140, 1, 8131);
   (8152, 8153, 1, 8144); (8154, 8155, 1, 8054); (8168, 8169, 1, 8160); (8170, 8171, 1, 8058);
   (8172, 8172, 1, 8165); (8184, 8185, 1, 8056); (8186, 8187, 1, 8060); (8188, 8188, 1, 8179);
   (8486, 8486, 1, 969); (8490, 8490, 1, 107); (8491, 8491, 1, 229); (8498, 8498, 1, 8526);
   (8544, 8559, 1, 8560); (8579, 8579, 1, 8580); (9398, 9423, 1, 9424); (11264, 11311, 1, 11312);
   (11360, 11360, 1, 11361); (11362, 11362, 1, 619); (11363, 11363, 1, 7549);
   (11364, 11364, 1, 637); (11367, 11371, 2, 11368); (11373, 11373, 1, 593);
   (11374, 11374, 1, 625); (11375, 11375, 1, 592); (11376, 11376, 1, 594);
   (11378, 11378, 1, 11379); (11381, 11381, 1, 11382); (11390, 11391, 1, 575);
   (11392, 11490, 2, 11393); (11499, 11501, 2, 11500); (11506, 11506, 1, 11507);
   (42560, 42604, 2, 42561); (42624, 42650, 2, 42625); (42786, 42798, 2, 42787);
   (42802, 42862, 2, 42803); (42873, 42875, 2, 42874); (42877, 42877, 1, 7545);
   (42878, 42886, 2, 42879); (42891, 42891, 1, 42892); (42893, 42893, 1, 613);
   (42896, 42898, 2, 42897); (42902, 42920, 2, 42903); (42922, 42922, 1, 614);
   (42923, 42923, 1, 604); (42924, 42924, 1, 609); (42925, 42925, 1, 620);
   (42926, 42926, 1, 618); (42928, 42928, 1, 670); (42929, 42929, 1, 647);
   (42930, 42930, 1, 669); (42931, 42931, 1, 43859); (42932, 42946, 2, 42933);
   (42948, 42948, 1, 42900); (42949, 42949, 1, 642); (42950, 42950, 1, 7566);
   (42951, 42953, 2, 42952); (42960, 42960, 1, 42961); (42966, 42968, 2, 42967);
   (42997, 42997, 1, 42998); (65313, 65338, 1, 65345); (66560, 66599, 1, 66600);
   (66736, 66771, 1, 66776); (66928, 66938, 1, 66967); (66940, 66954, 1, 66979);
   (66956, 66962, 1, 66995); (66964, 66965, 1, 67003); (68736, 68786, 1, 68800);
   (71840, 71871, 1, 71872); (93760, 93791, 1, 93792); (125184, 125217, 1, 125218)].

(** The upper-case mapping of single characters, in the same form. *)
Definition TOUPPER : list (N * N * N * N) :=
  [(97, 122, 1, 65); (181, 181, 1, 924); (224, 246, 1, 192); (248, 254, 1, 216);
   (255, 255, 1, 376); (257, 303, 2, 256); (305, 305, 1, 73); (307, 311, 2, 306);
   (314, 328, 2, 313); (331, 375, 2, 330); (378, 382, 2, 377); (383, 383, 1, 83);
   (384, 384, 1, 579); (387, 389, 2, 386); (392, 392, 1, 391); (396, 396, 1, 395);
   (402, 402, 1, 401); (405, 405, 1, 502); (409, 409, 1, 408); (410, 410, 1, 573);
   (414, 414, 1, 544); (417, 421, 2, 416); (424, 424, 1, 423); (429, 429, 1, 428);
   (432, 432, 1, 431); (436, 438, 2, 435); (441, 441, 1, 440); (445, 445, 1, 444);
   (447, 447, 1, 503); (453, 453, 1, 452); (454, 454, 1, 452); (456, 456, 1, 455);
   (457, 457, 1, 455); (459, 459, 1, 458); (460, 460, 1, 458); (462, 476, 2, 461);
   (477, 477, 1, 398); (479, 495, 2, 478); (498, 498, 1, 497); (499, 499, 1, 497);
   (501, 501, 1, 500); (505, 543, 2, 504); (547, 563, 2, 546); (572, 572, 1, 571);
   (575, 576, 1, 11390); (578, 578, 1, 577); (583, 591, 2, 582); (592, 592, 1, 11375);
   (593, 593, 1, 11373); (594, 594, 1, 11376); (595, 595, 1, 385); (596, 596, 1, 390);
   (598, 599, 1, 393); (601, 601, 1, 399); (603, 603, 1, 400); (604, 604, 1, 42923);
   (608, 608, 1, 403); (609, 609, 1, 42924); (611, 611, 1, 404); (613, 613, 1, 42893);
   (614, 614, 1, 42922); (616, 616, 1, 407); (617, 617, 1, 406); (618, 618, 1, 42926);
   (619, 619, 1, 11362); (620, 620, 1, 42925); (623, 623, 1, 412); (625, 625, 1, 11374);
   (626, 626, 1, 413); (629, 629, 1, 415); (637, 637, 1, 11364); (640, 640, 1, 422);
   (642, 642, 1, 42949); (643, 643, 1, 425); (647, 647, 1, 42929); (648, 648, 1, 430);
   (649, 649, 1, 580); (650, 651, 1, 433); (652, 652, 1, 581); (658, 658, 1, 439);
   (669, 669, 1, 42930); (670, 670, 1, 42928); (837, 837, 1, 921); (881, 883, 2, 880);
   (887, 887, 1, 886); (891, 893, 1, 1021); (940, 940, 1, 902); (941, 943, 1, 904);
   (945, 961, 1, 913); (962, 962, 1, 931); (963, 971, 1, 931); (972, 972, 1, 908);
   (973, 974, 1, 910); (976, 976, 1, 914); (977, 977, 1, 920); (981, 981, 1, 934);
   (982, 982, 1, 928); (983, 983, 1, 975); (985, 1007, 2, 984); (1008, 1008, 1, 922);
   (1009, 1009, 1, 929); (1010, 1010, 1, 1017); (1011, 1011, 1, 895); (1013, 1013, 1, 917);
   (1016, 1016, 1, 1015); (1019, 1019, 1, 1018); (1072, 1103, 1, 1040); (1104, 1119, 1, 1024);
   (1121, 1153, 2, 1120); (1163, 1215, 2, 1162); (1218, 1230, 2, 1217); (1231, 1231, 1, 1216);
   (1233, 1327, 2, 1232); (1377, 1414, 1, 1329); (4304, 4346, 1, 7312); (4349, 4351, 1, 7357);
   (5112, 5117, 1, 5104); (7296, 7296, 1, 1042); (7297, 7297, 1, 1044); (7298, 7298, 1, 1054);
   (7299, 7300, 1, 1057); (7301, 7301, 1, 1058); (7302, 7302, 1, 1066); (7303, 7303, 1, 1122);
   (7304, 7304, 1, 42570); (7545, 7545, 1, 42877); (7549, 7549, 1, 11363);
   (7566, 7566, 1, 42950); (7681, 7829, 2, 7680); (7835, 7835, 1, 7776); (7841, 7935, 2, 7840);
   (7936, 7943, 1, 7944); (7952, 7957, 1, 7960); (7968, 7975, 1, 7976); (7984, 7991, 1, 7992);
   (8000, 8005, 1, 8008); (8017, 8023, 2, 8025); (8032, 8039, 1, 8040); (8048, 8049, 1, 8122);
   (8050, 8053, 1, 8136); (8054, 8055, 1, 8154); (8056, 8057, 1, 8184); (8058, 8059, 1, 8170);
   (8060, 8061, 1, 8186); (8112, 8113, 1, 8120); (8126, 8126, 1, 921); (8144, 8145, 1, 8152);
   (8160, 8161, 1, 8168); (8165, 8165, 1, 8172); (8526, 8526, 1, 8498); (8560, 8575, 1, 8544);
   (8580, 8580, 1, 8579); (9424, 9449, 1, 9398); (11312, 11359, 1, 11264);
   (11361, 11361, 1, 11360); (11365, 11365, 1, 570); (11366, 11366, 1, 574);
   (11368, 11372, 2, 11367); (11379, 11379, 1, 11378); (11382, 11382, 1, 11381);
   (11393, 11491, 2, 11392); (11500, 11502, 2, 11499); (11507, 11507, 1, 11506);
   (11520, 11557, 1, 4256); (11559, 11559, 1, 4295); (11565, 11565, 1, 4301);
   (42561, 42605, 2, 42560); (42625, 42651, 2, 42624); (42787, 42799, 2, 42786);
   (42803, 42863, 2, 42802); (42874, 42876, 2, 42873); (42879, 42887, 2, 42878);
   (42892, 42892, 1, 42891); (42897, 42899, 2, 42896); (42900, 42900, 1, 42948);
   (42903, 42921, 2, 42902); (42933, 42947, 2, 42932); (42952, 42954, 2, 42951);
   (42961, 42961, 1, 42960); (42967, 42969, 2, 42966); (42998, 42998, 1, 42997);
   (43859, 43859, 1, 42931); (43888, 43967, 1, 5024); (65345, 65370, 1, 65313);
   (66600, 66639, 1, 66560); (66776, 66811, 1, 66736); (66967, 66977, 1, 66928);
   (66979, 66993, 1, 66940); (66995, 67001, 1, 66956); (67003, 67004, 1, 66964);
   (68800, 68850, 1, 68736); (71872, 71903, 1, 71840); (93792, 93823, 1, 93760);
   (125218, 125251, 1, 125184)].

(** The characters whose lower case in a string is not their single lower-case
    character. *)
Definition LOWER_SPECIAL : list (N * list N) :=
  [(304, [105; 775])].

(** The characters whose upper case in a string is more than one character. *)
Definition UPPER_SPECIAL : list (N * list N) :=
  [(223, [83; 83]); (329, [700; 78]); (496, [74; 780]); (912, [921; 776; 769]);
   (944, [933; 776; 769]); (1415, [1333; 1362]); (7830, [72; 817]); (7831, [84; 776]);
   (7832, [87; 778]); (7833, [89; 778]); (7834, [65; 702]); (8016, [933; 787]);
   (8018, [933; 787; 768]); (8020, [933; 787; 769]); (8022, [933; 787; 834]);
   (8064, [7944; 921]); (8065, [7945; 921]); (8066, [7946; 921]); (8067, [7947; 921]);
   (8068, [7948; 921]); (8069, [7949; 921]); (8070, [7950; 921]); (8071, [7951; 921]);
   (8072, [7944; 921]); (8073, [7945; 921]); (8074, [7946; 921]); (8075, [7947; 921]);
   (8076, [7948; 921]); (8077, [7949; 921]); (8078, [7950; 921]); (8079, [7951; 921]);
   (8080, [7976; 921]); (8081, [7977; 921]); (8082, [7978; 921]); (8083, [7979; 921]);
   (8084, [7980; 921]); (8085, [7981; 921]); (8086, [7982; 921]); (8087, [7983; 921]);
   (8088, [7976; 921]); (8089, [7977; 921]); (8090, [7978; 921]); (8091, [7979; 921]);
   (8092, [7980; 921]); (8093, [7981; 921]); (8094, [7982; 921]); (8095, [7983; 921]);
   (8096, [8040; 921]); (8097, [8041; 921]); (8098, [8042; 921]); (8099, [8043; 921]);
   (8100, [8044; 921]); (8101, [8045; 921]); (8102, [8046; 921]); (8103, [8047; 921]);
   (8104, [8040; 921]); (8105, [8041; 921]); (8106, [8042; 921]); (8107, [8043; 921]);
   (8108, [8044; 921]); (8109, [8045; 921]); (8110, [8046; 921]); (8111, [8047; 921]);
   (8114, [8122; 921]); (8115, [913; 921]); (8116, [902; 921]); (8118, [913; 834]);
   (8119, [913; 834; 921]); (8124, [913; 921]); (8130, [8138; 921]); (8131, [919; 921]);
   (8132, [905; 921]); (8134, [919; 834]); (8135, [919; 834; 921]); (8140, [919; 921]);
   (8146, [921; 776; 768]); (8147, [921; 776; 769]); (8150, [921; 834]); (8151, [921; 776; 834]);
   (8162, [933; 776; 768]); (8163, [933; 776; 769]); (8164, [929; 787]); (8166, [933; 834]);
   (8167, [933; 776; 834]); (8178, [8186; 921]); (8179, [937; 921]); (8180, [911; 921]);
   (8182, [937; 834]); (8183, [937; 834; 921]); (8188, [937; 921]); (64256, [70; 70]);
   (64257, [70; 73]); (64258, [70; 76]); (64259, [70; 70; 73]); (64260, [70; 70; 76]);
   (64261, [83; 84]); (64262, [83; 84]); (64275, [1348; 1350]); (64276, [1348; 1333]);
   (64277, [1348; 1339]); (64278, [1358; 1350]); (64279, [1348; 1341])].

(** The cased characters of the regular expression engine: those that differ
    from their lower or their upper case. *)
Definition CASED : list (N * N) :=
  [(65, 90); (97, 122); (181, 181); (192, 214); (216, 246); (248, 311); (313, 396); (398, 410);
   (412, 425); (428, 441); (444, 445); (447, 447); (452, 544); (546, 563); (570, 596);
   (598, 599); (601, 601); (603, 604); (608, 609); (611, 611); (613, 614); (616, 620);
   (623, 623); (625, 626); (629, 629); (637, 637); (640, 640); (642, 643); (647, 652);
   (658, 658); (669, 670); (837, 837); (880, 883); (886, 887); (891, 893); (895, 895);
   (902, 902); (904, 906); (908, 908); (910, 929); (931, 977); (981, 1013); (1015, 1019);
   (1021, 1153); (1162, 1327); (1329, 1366); (1377, 1415); (4256, 4293); (4295, 4295);
   (4301, 4301); (4304, 4346); (4349, 4351); (5024, 5109); (5112, 5117); (7296, 7304);
   (7312, 7354); (7357, 7359); (7545, 7545); (7549, 7549); (7566, 7566); (7680, 7835);
   (7838, 7838); (7840, 7957); (7960, 7965); (7968, 8005); (8008, 8013); (8016, 8023);
   (8025, 8025); (8027, 8027); (8029, 8029); (8031, 8061); (8064, 8116); (8118, 8124);
   (8126, 8126); (8130, 8132); (8134, 8140); (8144, 8147); (8150, 8155); (8160, 8172);
   (8178, 8180); (8182, 8188); (8486, 8486); (8490, 8491); (8498, 8498); (8526, 8526);
   (8544, 8575); (8579, 8580); (9398, 9449); (11264, 11376); (11378, 11379); (11381, 11382);
   (11390, 11491); (11499, 11502); (11506, 11507); (11520, 11557); (11559, 11559);
   (11565, 11565); (42560, 42605); (42624, 42651); (42786, 42799); (42802, 42863);
   (42873, 42887); (42891, 42893); (42896, 42900); (42902, 42926); (42928, 42954);
   (42960, 42961); (42966, 42969); (42997, 42998); (43859, 43859); (43888, 43967);
   (64256, 64262); (64275, 64279); (65313, 65338); (65345, 65370); (66560, 66639);
   (66736, 66771); (66776, 66811); (66928, 66938); (66940, 66954); (66956, 66962);
   (66964, 66965); (66967, 66977); (66979, 66993); (66995, 67001); (67003, 67004);
   (68736, 68786); (68800, 68850); (71840, 71903); (93760, 93823); (125184, 125251)].

(** The characters that the test for a final sigma skips. *)
Definition CASE_IGNORABLE : list (N * N) :=
  [(39, 39); (46, 46); (58, 58); (94, 94); (96, 96); (168, 168); (173, 173); (175, 175);
   (180, 180); (183, 184); (688, 879); (884, 885); (890, 890); (900, 901); (903, 903);
   (1155, 1161); (1369, 1369); (1375, 1375); (1425, 1469); (1471, 1471); (1473, 1474);
   (1476, 1477); (1479, 1479); (1524, 1524); (1536, 1541); (1552, 1562); (1564, 1564);
   (1600, 1600); (1611, 1631); (1648, 1648); (1750, 1757); (1759, 1768); (1770, 1773);
   (1807, 1807); (1809, 1809); (1840, 1866); (1958, 1968); (2027, 2037); (2042, 2042);
   (2045, 2045); (2070, 2093); (2137, 2139); (2184, 2184); (2192, 2193); (2200, 2207);
   (2249, 2306); (2362, 2362); (2364, 2364); (2369, 2376); (2381, 2381); (2385, 2391);
   (2402, 2403); (2417, 2417); (2433, 2433); (2492, 2492); (2497, 2500); (2509, 2509);
   (2530, 2531); (2558, 2558); (2561, 2562); (2620, 2620); (2625, 2626); (2631, 2632);
   (2635, 2637); (2641, 2641); (2672, 2673); (2677, 2677); (2689, 2690); (2748, 2748);
   (2753, 2757); (2759, 2760); (2765, 2765); (2786, 2787); (2810, 2815); (2817, 2817);
   (2876, 2876); (2879, 2879); (2881, 2884); (2893, 2893); (2901, 2902); (2914, 2915);
   (2946, 2946); (3008, 3008); (3021, 3021); (3072, 3072); (3076, 3076); (3132, 3132);
   (3134, 3136); (3142, 3144); (3146, 3149); (3157, 3158); (3170, 3171); (3201, 3201);
   (3260, 3260); (3263, 3263); (3270, 3270); (3276, 3277); (3298, 3299); (3328, 3329);
   (3387, 3388); (3393, 3396); (3405, 3405); (3426, 3427); (3457, 3457); (3530, 3530);
   (3538, 3540); (3542, 3542); (3633, 3633); (3636, 3642); (3654, 3662); (3761, 3761);
   (3764, 3772); (3782, 3782); (3784, 3789); (3864, 3865); (3893, 3893); (3895, 3895);
   (3897, 3897); (3953, 3966); (3968, 3972); (3974, 3975); (3981, 3991); (3993, 4028);
   (4038, 4038); (4141, 4144); (4146, 4151); (4153, 4154); (4157, 4158); (4184, 4185);
   (4190, 4192); (4209, 4212); (4226, 4226); (4229, 4230); (4237, 4237); (4253, 4253);
   (4348, 4348); (4957, 4959); (5906, 5908); (5938, 5939); (5970, 5971); (6002, 6003);
   (6068, 6069); (6071, 6077); (6086, 6086); (6089, 6099); (6103, 6103); (6109, 6109);
   (6155, 6159); (6211, 6211); (6277, 6278); (6313, 6313); (6432, 6434); (6439, 6440);
   (6450, 6450); (6457, 6459); (6679, 6680); (6683, 6683); (6742, 6742); (6744, 6750);
   (6752, 6752); (6754, 6754); (6757, 6764); (6771, 6780); (6783, 6783); (6823, 6823);
   (6832, 6862); (6912, 6915); (6964, 6964); (6966, 6970); (6972, 6972); (6978, 6978);
   (7019, 7027); (7040, 7041); (7074, 7077); (7080, 7081); (7083, 7085); (7142, 7142);
   (7144, 7145); (7149, 7149); (7151, 7153); (7212, 7219); (7222, 7223); (7288, 7293);
   (7376, 7378); (7380, 7392); (7394, 7400); (7405, 7405); (7412, 7412); (7416, 7417);
   (7468, 7530); (7544, 7544); (7579, 7679); (8125, 8125); (8127, 8129); (8141, 8143);
   (8157, 8159); (8173, 8175); (8189, 8190); (8203, 8207); (8216, 8217); (8228, 8228);
   (8231, 8231); (8234, 8238); (8288, 8292); (8294, 8303); (8305, 8305); (8319, 8319);
   (8336, 8348); (8400, 8432); (11388, 11389); (11503, 11505); (11631, 11631); (11647, 11647);
   (11744, 11775); (11823, 11823); (12293, 12293); (12330, 12333); (12337, 12341);
   (12347, 12347); (12441, 12446); (12540, 12542); (40981, 40981); (42232, 42237);
   (42508, 42508); (42607, 42610); (42612, 42621); (42623, 42623); (42652, 42655);
   (42736, 42737); (42752, 42785); (42864, 42864); (42888, 42890); (42994, 42996);
   (43000, 43001); (43010, 43010); (43014, 43014); (43019, 43019); (43045, 43046);
   (43052, 43052); (43204, 43205); (43232, 43249); (43263, 43263); (43302, 43309);
   (43335, 43345); (43392, 43394); (43443, 43443); (43446, 43449); (43452, 43453);
   (43471, 43471); (43493, 43494); (43561, 43566); (43569, 43570); (43573, 43574);
   (43587, 43587); (43596, 43596); (43632, 43632); (43644, 43644); (43696, 43696);
   (43698, 43700); (43703, 43704); (43710, 43711); (43713, 43713); (43741, 43741);
   (43756, 43757); (43763, 43764); (43766, 43766); (43867, 43871); (43881, 43883);
   (44005, 44005); (44008, 44008); (44013, 44013); (64286, 64286); (64434, 64450);
   (65024, 65039); (65043, 65043); (65056, 65071); (65106, 65106); (65109, 65109);
   (65279, 65279); (65287, 65287); (65294, 65294); (65306, 65306); (65342, 65342);
   (65344, 65344); (65392, 65392); (65438, 65439); (65507, 65507); (65529, 65531);
   (66045, 66045); (66272, 66272); (66422, 66426); (67456, 67461); (67463, 67504);
   (67506, 67514); (68097, 68099); (68101, 68102); (68108, 68111); (68152, 68154);
   (68159, 68159); (68325, 68326); (68900, 68903); (69291, 69292); (69446, 69456);
   (69506, 69509); (69633, 69633); (69688, 69702); (69744, 69744); (69747, 69748);
   (69759, 69761); (69811, 69814); (69817, 69818); (69821, 69821); (69826, 69826);
   (69837, 69837); (69888, 69890); (69927, 69931); (69933, 69940); (70003, 70003);
   (70016, 70017); (70070, 70078); (70089, 70092); (70095, 70095); (70191, 70193);
   (70196, 70196); (70198, 70199); (70206, 70206); (70367, 70367); (70371, 70378);
   (70400, 70401); (70459, 70460); (70464, 70464); (70502, 70508); (70512, 70516);
   (70712, 70719); (70722, 70724); (70726, 70726); (70750, 70750); (70835, 70840);
   (70842, 70842); (70847, 70848); (70850, 70851); (71090, 71093); (71100, 71101);
   (71103, 71104); (71132, 71133); (71219, 71226); (71229, 71229); (71231, 71232);
   (71339, 71339); (71341, 71341); (71344, 71349); (71351, 71351); (71453, 71455);
   (71458, 71461); (71463, 71467); (71727, 71735); (71737, 71738); (71995, 71996);
   (71998, 71998); (72003, 72003); (72148, 72151); (72154, 72155); (72160, 72160);
   (72193, 72202); (72243, 72248); (72251, 72254); (72263, 72263); (72273, 72278);
   (72281, 72283); (72330, 72342); (72344, 72345); (72752, 72758); (72760, 72765);
   (72767, 72767); (72850, 72871); (72874, 72880); (72882, 72883); (72885, 72886);
   (73009, 73014); (73018, 73018); (73020, 73021); (73023, 73029); (73031, 73031);
   (73104, 73105); (73109, 73109); (73111, 73111); (73459, 73460); (78896, 78904);
   (92912, 92916); (92976, 92982); (92992, 92995); (94031, 94031); (94095, 94111);
   (94176, 94177); (94179, 94180); (110576, 110579); (110581, 110587); (110589, 110590);
   (113821, 113822); (113824, 113827); (118528, 118573); (118576, 118598); (119143, 119145);
   (119155, 119170); (119173, 119179); (119210, 119213); (119362, 119364); (121344, 121398);
   (121403, 121452); (121461, 121461); (121476, 121476); (121499, 121503); (121505, 121519);
   (122880, 122886); (122888, 122904); (122907, 122913); (122915, 122916); (122918, 122922);
   (123184, 123197); (123566, 123566); (123628, 123631); (125136, 125142); (125252, 125259);
   (127995, 127999); (917505, 917505); (917536, 917631); (917760, 917999)].

(** The characters, among those not skipped, that the test for a final sigma
    takes for cased. *)
Definition CASED_LETTER : list (N * N) :=
  [(65, 90); (97, 122); (170, 170); (181, 181); (186, 186); (192, 214); (216, 246); (248, 442);
   (444, 447); (452, 659); (661, 687); (880, 883); (886, 887); (891, 893); (895, 895);
   (902, 902); (904, 906); (908, 908); (910, 929); (931, 1013); (1015, 1153); (1162, 1327);
   (1329, 1366); (1376, 1416); (4256, 4293); (4295, 4295); (4301, 4301); (4304, 4346);
   (4349, 4351); (5024, 5109); (5112, 5117); (7296, 7304); (7312, 7354); (7357, 7359);
   (7424, 7467); (7531, 7543); (7545, 7578); (7680, 7957); (7960, 7965); (7968, 8005);
   (8008, 8013); (8016, 8023); (8025, 8025); (8027, 8027); (8029, 8029); (8031, 8061);
   (8064, 8116); (8118, 8124); (8126, 8126); (8130, 8132); (8134, 8140); (8144, 8147);
   (8150, 8155); (8160, 8172); (8178, 8180); (8182, 8188); (8450, 8450); (8455, 8455);
   (8458, 8467); (8469, 8469); (8473, 8477); (8484, 8484); (8486, 8486); (8488, 8488);
   (8490, 8493); (8495, 8500); (8505, 8505); (8508, 8511); (8517, 8521); (8526, 8526);
   (8544, 8575); (8579, 8580); (9398, 9449); (11264, 11387); (11390, 11492); (11499, 11502);
   (11506, 11507); (11520, 11557); (11559, 11559); (11565, 11565); (42560, 42605);
   (42624, 42651); (42786, 42863); (42865, 42887); (42891, 42894); (42896, 42954);
   (42960, 42961); (42963, 42963); (42965, 42969); (42997, 42998); (43002, 43002);
   (43824, 43866); (43872, 43880); (43888, 43967); (64256, 64262); (64275, 64279);
   (65313, 65338); (65345, 65370); (66560, 66639); (66736, 66771); (66776, 66811);
   (66928, 66938); (66940, 66954); (66956, 66962); (66964, 66965); (66967, 66977);
   (66979, 66993); (66995, 67001); (67003, 67004); (68736, 68786); (68800, 68850);
   (71840, 71903); (93760, 93823); (119808, 119892); (119894, 119964); (119966, 119967);
   (119970, 119970); (119973, 119974); (119977, 119980); (119982, 119993); (119995, 119995);
   (119997, 120003); (120005, 120069); (120071, 120074); (120077, 120084); (120086, 120092);
   (120094, 120121); (120123, 120126); (120128, 120132); (120134, 120134); (120138, 120144);
   (120146, 120485); (120488, 120512); (120514, 120538); (120540, 120570); (120572, 120596);
   (120598, 120628); (120630, 120654); (120656, 120686); (120688, 120712); (120714, 120744);
   (120746, 120770); (120772, 120779); (122624, 122633); (122635, 122654); (125184, 125251);
   (127280, 127305); (127312, 127337); (127344, 127369)].

Definition in_ranges (table : list (N * N)) (c : N) : bool :=
  existsb (fun r => in_range r.1 r.2 c) table.

(** The image of [c] under a mapping given in steps. *)
Fixpoint stepped (table : list (N * N * N * N)) (c : N) : N :=
  match table with
  | [] => c
  | (lo, hi, stride, target) :: rest =>
      if in_range lo hi c && ((c - lo) mod stride =? 0) then target + (c - lo)
      else stepped rest c
  end.

Fixpoint listed (table : list (N * list N)) (c : N) : option (list N) :=
  match table with
  | [] => None
  | (x, img) :: rest => if c =? x then Some img else listed rest c
  end.

(** The digits and letters of ASCII, as the parser of patterns and
    [int(s, 16)] know them. *)
Definition is_ascii_digit (c : N) : bool := in_range 48 57 c.
Definition is_ascii_alnum (c : N) : bool :=
  in_range 97 122 c || in_range 65 90 c || in_range 48 57 c.

(** The class [\d]: the decimal digits. *)
Definition is_digit (c : N) : bool :=
  if c <? 128 then is_ascii_digit c else in_ranges DECIMAL c.

(** [str.isalnum] on one code point. *)
Definition is_alnum (c : N) : bool :=
  if c <? 128 then is_ascii_alnum c else in_ranges ALNUM c.

(** The class [\w]. *)
Definition is_word (c : N) : bool := is_alnum c || (c =? 95).

(** The lower case and the upper case of a single character, as the
    regular expression engine takes them. *)
Definition tolower (c : N) : N :=
  if c <? 128 then (if in_range 65 90 c then c + 32 else c) else stepped TOLOWER c.
Definition toupper (c : N) : N :=
  if c <? 128 then (if in_range 97 122 c then c - 32 else c) else stepped TOUPPER c.

(** The lower case and the upper case of a character in a string. *)
Definition lower_full (c : N) : str :=
  if c <? 128 then [tolower c] else default [tolower c] (listed LOWER_SPECIAL c).
Definition upper_full (c : N) : str :=
  if c <? 128 then [toupper c] else default [toupper c] (listed UPPER_SPECIAL c).

Definition is_case_ignorable (c : N) : bool := in_ranges CASE_IGNORABLE c.
Definition is_cased_letter (c : N) : bool := in_ranges CASED_LETTER c.

(** The first character of [s] that is not case-ignorable. *)
Fixpoint first_letter (s : str) : option N :=
  match s with
  | [] => None
  | c :: t => if is_case_ignorable c then first_letter t else Some c
  end.

(** The lower case of a capital sigma: the final form where a cased
    letter stands before it and none after it, case-ignorable characters
    apart.  [before] is what precedes the sigma, last character first. *)
Definition sigma (before after : str) : N :=
  match first_letter before with
  | Some c =>
      if is_cased_letter c
      then match first_letter after with
           | Some d => if is_cased_letter d then 963 else 962
           | None => 962
           end
      else 963
  | None => 963
  end.

Fixpoint lower_from (before s : str) : str :=
  match s with
  | [] => []
  | c :: t =>
      (if c =? 931 then [sigma before t] else lower_full c) ++ lower_from (c :: before) t
  end.

(** [s.lower()] and [s.upper()]. *)
Definition lower (s : str) : str := lower_from [] s.
Definition upper (s : str) : str := s ≫= upper_full.

Fixpoint lstrip (s : str) : str :=
  match s with
  | c :: t => if is_space c then lstrip t else s
  | [] => []
  end.

(** [s.rstrip()] and [s.strip()]. *)
Definition rstrip (s : str) : str := reverse (lstrip (reverse s)).
Definition strip (s : str) : str := rstrip (lstrip s).

(** [sep.join(parts)]. *)
Fixpoint join (sep : str) (parts : list str) : str :=
  match parts with
  | [] => []
  | [p] => p
  | p :: rest => p ++ sep ++ join sep rest
  end.

(** [s.split(c)] for a one-character separator: the pieces between the
    occurrences of [c], empty pieces included. *)
Fixpoint split_on (c : N) (s : str) : list str :=
  match s with
  | [] => [[]]
  | x :: t =>
      if x =? c then [] :: split_on c t
      else match split_on c t with
           | [] => [[x]]
           | p :: ps => (x :: p) :: ps
           end
  end.

(** [s.split()]: the maximal runs of non-space characters. *)
Fixpoint words_from (cur : str) (s : str) : list str :=
  match s with
  | [] => match cur with [] => [] | _ => [reverse cur] end
  | x :: t =>
      if is_space x
      then match cur with [] => words_from [] t | _ => reverse cur :: words_from [] t end
      else words_from (x :: cur) t
  end.

Definition split (s : str) : list str := words_from [] s.

(** [s.endswith(suffix)] and [s.startswith(prefix)]. *)
Definition startswith (s p : str) : bool := bool_decide (take (length p) s = p).
Definition endswith (s p : str) : bool :=
  bool_decide (drop (length s - length p) s = p) && (length p <=? length s)%nat.

(** Python's [<] on strings: lexicographic on code points. *)
Fixpoint str_ltb (a b : str) : bool :=
  match a, b with
  | _, [] => false
  | [], _ :: _ => true
  | x :: a', y :: b' => (x <? y) || ((x =? y) && str_ltb a' b')
  end.

(** The value of a decimal digit: the digits of a script follow their
    zero. *)
Fixpoint digit_in (table : list (N * N)) (c : N) : N :=
  match table with
  | [] => c - 48
  | (lo, hi) :: rest => if in_range lo hi c then (c - lo) mod 10 else digit_in rest c
  end.

(** [int(s)] on a run of decimal digits. *)
Definition digit_val (c : N) : Z :=
  if c <? 128 then Z.of_N c - 48 else Z.of_N (digit_in DECIMAL c).
Definition int_of (s : str) : Z := fold_left (fun acc c => 10 * acc + digit_val c)%Z s 0%Z.

End Text.
Export Text.

(** ** Regular expressions *)

Module Re.

(** One member of a bracketed class. *)
Inductive citem :=
| CChar (c : N)
| CRange (lo hi : N)
| CWord
| CSpace
| CDigit.

(** A set of characters: the members, whether the set is complemented
    ([[^...]], [\S]), and whether letter case is ignored. *)
Record charset := { cs_neg : bool; cs_ic : bool; cs_items : list citem }.

Inductive regex :=
| Eps
| Fail
| Chr (cs : charset)
| Seq (a b : regex)
| Alt (a b : regex)
| Star (a : regex)
| Grp (k : nat) (a : regex)
| Bol (multiline : bool)
| Eol (multiline : bool)
| WordB
| Behind (cs : charset).

Record flags := { IGNORECASE : bool; MULTILINE : bool }.

Definition no_flags := {| IGNORECASE := false; MULTILINE := false |}.
Definition flag_I := {| IGNORECASE := true; MULTILINE := false |}.
Definition flag_IM := {| IGNORECASE := true; MULTILINE := true |}.

Definition item_match (c : N) (it : citem) : bool :=
  match it with
  | CChar x => c =? x
  | CRange lo hi => in_range lo hi c
  | CWord => is_word c
  | CSpace => is_space c
  | CDigit => is_digit c
  end.

(** The characters that match one another when letter case is ignored
    although their lower cases differ ([_EXTRA_CASES] of [re]). *)
Definition EXTRA_CASES : list (N * list N) :=
  [(105, [305]); (115, [383]); (181, [956]); (305, [105]); (383, [115]); (837, [953; 8126]);
   (912, [8147]); (944, [8163]); (946, [976]); (949, [1013]); (952, [977]); (953, [837; 8126]);
   (954, [1008]); (956, [181]); (960, [982]); (961, [1009]); (962, [963]); (963, [962]);
   (966, [981]); (976, [946]); (977, [952]); (981, [966]); (982, [960]); (1008, [954]);
   (1009, [961]); (1013, [949]); (1074, [7296]); (1076, [7297]); (1086, [7298]); (1089, [7299]);
   (1090, [7300; 7301]); (1098, [7302]); (1123, [7303]); (7296, [1074]); (7297, [1076]);
   (7298, [1086]); (7299, [1089]); (7300, [1090; 7301]); (7301, [1090; 7300]); (7302, [1098]);
   (7303, [1123]); (7304, [42571]); (7777, [7835]); (7835, [7777]); (8126, [837; 953]);
   (8147, [912]); (8163, [944]); (42571, [7304]); (64261, [64262]); (64262, [64261])].

(** A character is cased where it differs from its lower or its upper
    case. *)
Definition iscased (c : N) : bool :=
  if c <? 128 then in_range 97 122 c || in_range 65 90 c else in_ranges CASED c.

(** [f] holds somewhere from [lo] on, [n] characters far. *)
Fixpoint range_any (f : N -> bool) (n : nat) (lo : N) : bool :=
  match n with
  | O => false
  | S n' => if f lo then true else range_any f n' (lo + 1)
  end.

Definition span_any (f : N -> bool) (lo hi : N) : bool :=
  range_any f (N.to_nat (hi + 1 - lo)) lo.

Definition item_cased (it : citem) : bool :=
  match it with
  | CChar x => iscased x
  | CRange lo hi => span_any iscased lo hi
  | _ => false
  end.

(** The lower-case character [l] is what the member [x] of a set stands
    for when case is ignored: the lower case of [x], or one of its extra
    cases. *)
Definition folds_to (l x : N) : bool :=
  let lo := tolower x in
  if l =? lo then true
  else if (l <? 128) && (lo <? 128) then false
  else existsb (N.eqb l) (default [] (listed EXTRA_CASES lo)).

Definition item_match_ic (l : N) (it : citem) : bool :=
  match it with
  | CChar x => folds_to l x
  | CRange lo hi => span_any (folds_to l) lo hi
  | CWord => is_word l
  | CSpace => is_space l
  | CDigit => is_digit l
  end.

(** Where case is ignored and the set has a cased member, the lower case
    of the character is looked up in the set of the lower cases of the
    members; otherwise the character is looked up as it is.  (This is
    [re] for members below U+10000, as are all members of the sets in the
    source.) *)
Definition cs_match (cs : charset) (c : N) : bool :=
  xorb (cs_neg cs)
       (if cs_ic cs
        then if existsb item_cased (cs_items cs)
             then existsb (item_match_ic (tolower c)) (cs_items cs)
             else existsb (item_match c) (cs_items cs)
        else existsb (item_match c) (cs_items cs)).

(** *** Pattern syntax *)

Definition single (fl : flags) (c : N) : regex :=
  Chr {| cs_neg := false; cs_ic := IGNORECASE fl; cs_items := [CChar c] |}.
Definition klass (neg : bool) (it : citem) : regex :=
  Chr {| cs_neg := neg; cs_ic := false; cs_items := [it] |}.
Definition dot : regex := klass true (CChar 10).

(** Sequencing that drops an empty side. *)
Definition cat (a b : regex) : regex :=
  match a, b with
  | Eps, _ => b
  | _, Eps => a
  | _, _ => Seq a b
  end.

Fixpoint rep_exact (a : regex) (m : nat) : regex :=
  match m with O => Eps | S m' => cat a (rep_exact a m') end.
Fixpoint rep_upto (a : regex) (n : nat) : regex :=
  match n with O => Eps | S n' => Alt (cat a (rep_upto a n')) Eps end.

(** [a{m,n}], [a{m,}], [a*], [a+], [a?]: all greedy. *)
Definition rep (a : regex) (m : nat) (n : option nat) : regex :=
  match n with
  | Some n => cat (rep_exact a m) (rep_upto a (n - m))
  | None => cat (rep_exact a m) (Star a)
  end.

Definition hex_val (c : N) : option N :=
  if is_ascii_digit c then Some (c - 48)
  else if in_range 97 102 c then Some (c - 87)
  else if in_range 65 70 c then Some (c - 55)
  else None.

(** A run of decimal digits at the head of the pattern. *)
Fixpoint read_nat (acc : option nat) (p : str) : option nat * str :=
  match p with
  | c :: t =>
      if is_ascii_digit c
      then read_nat (Some (10 * default O acc + N.to_nat (c - 48))%nat) t
      else (acc, p)
  | [] => (acc, p)
  end.

(** The escape after a backslash, as a class member where it stands for one. *)
Definition escape_item (p : str) : option (citem * str) :=
  match p with
  | 119 :: t => Some (CWord, t)
  | 115 :: t => Some (CSpace, t)
  | 100 :: t => Some (CDigit, t)
  | 110 :: t => Some (CChar 10, t)
  | 114 :: t => Some (CChar 13, t)
  | 116 :: t => Some (CChar 9, t)
  | 117 :: a :: b :: c :: d :: t =>
      match hex_val a, hex_val b, hex_val c, hex_val d with
      | Some a, Some b, Some c, Some d => Some (CChar (a * 4096 + b * 256 + c * 16 + d), t)
      | _, _, _, _ => None
      end
  | c :: t => if is_ascii_alnum c then None else Some (CChar c, t)
  | [] => None
  end.

(** The members of a bracketed class, up to and including the closing
    bracket. *)
Fixpoint class_items (fuel : nat) (p : str) : option (list citem * str) :=
  match fuel with
  | O => None
  | S fuel =>
      match p with
      | [] => None
      | 93 :: t => Some ([], t)
      | c :: t =>
          match (if c =? 92 then escape_item t else Some (CChar c, t)) with
          | None => None
          | Some (it, t1) =>
              match it, t1 with
              | CChar lo, 45 :: hi :: t2 =>
                  if (hi =? 93) || (hi =? 92)
                  then '(its, r) ← class_items fuel t1; Some (it :: its, r)
                  else '(its, r) ← class_items fuel t2; Some (CRange lo hi :: its, r)
              | _, _ => '(its, r) ← class_items fuel t1; Some (it :: its, r)
              end
          end
      end
  end.

Definition parse_class (fl : flags) (p : str) : option (charset * str) :=
  let '(neg, p) := match p with 94 :: t => (true, t) | _ => (false, p) end in
  '(its, r) ← class_items (S (length p)) p;
  Some ({| cs_neg := neg; cs_ic := IGNORECASE fl; cs_items := its |}, r).

(** A quantifier, if one follows. *)
Definition parse_quant (a : regex) (p : str) : option (regex * str) :=
  match p with
  | 42 :: t => Some (rep a 0 None, t)
  | 43 :: t => Some (rep a 1 None, t)
  | 63 :: t => Some (rep a 0 (Some 1%nat), t)
  | 123 :: t =>
      match read_nat None t with
      | (Some m, 125 :: t1) => Some (rep a m (Some m), t1)
      | (Some m, 44 :: t1) =>
          match read_nat None t1 with
          | (n, 125 :: t2) => Some (rep a m n, t2)
          | _ => None
          end
      | _ => None
      end
  | _ => Some (a, p)
  end.

Section Parser.
Variable fl : flags.

(** Recursive descent over the pattern; [g] is the number of the next
    capturing group. *)
Fixpoint parse_alt (fuel : nat) (g : nat) (p : str) : option (regex * nat * str) :=
  match fuel with
  | O => None
  | S fuel =>
      '(a, g, p) ← parse_seq fuel g p;
      match p with
      | 124 :: t => '(b, g, p) ← parse_alt fuel g t; Some (Alt a b, g, p)
      | _ => Some (a, g, p)
      end
  end
with parse_seq (fuel : nat) (g : nat) (p : str) : option (regex * nat * str) :=
  match fuel with
  | O => None
  | S fuel =>
      match p with
      | [] | 124 :: _ | 41 :: _ => Some (Eps, g, p)
      | _ =>
          '(a, g, p) ← parse_atom fuel g p;
          '(a, p) ← parse_quant a p;
          '(b, g, p) ← parse_seq fuel g p;
          Some (cat a b, g, p)
      end
  end
with parse_atom (fuel : nat) (g : nat) (p : str) : option (regex * nat * str) :=
  match fuel with
  | O => None
  | S fuel =>
      match p with
      | [] => None
      | 40 :: 63 :: 58 :: t =>
          '(a, g, p) ← parse_alt fuel g t;
          match p with 41 :: t => Some (a, g, t) | _ => None end
      | 40 :: 63 :: 60 :: 61 :: 91 :: t =>
          '(cs, p) ← parse_class fl t;
          match p with 41 :: t => Some (Behind cs, g, t) | _ => None end
      | 40 :: 63 :: _ => None
      | 40 :: t =>
          '(a, g', p) ← parse_alt fuel (S g) t;
          match p with 41 :: t => Some (Grp g a, g', t) | _ => None end
      | 91 :: t => '(cs, p) ← parse_class fl t; Some (Chr cs, g, p)
      | 94 :: t => Some (Bol (MULTILINE fl), g, t)
      | 36 :: t => Some (Eol (MULTILINE fl), g, t)
      | 46 :: t => Some (dot, g, t)
      | 92 :: 98 :: t => Some (WordB, g, t)
      | 92 :: 83 :: t => Some (klass true CSpace, g, t)
      | 92 :: t =>
          '(it, p) ← escape_item t;
          Some (match it with
                | CChar c => single fl c
                | _ => klass false it
                end, g, p)
      | 42 :: _ | 43 :: _ | 63 :: _ | 123 :: _ | 41 :: _ | 124 :: _ => None
      | c :: t => Some (single fl c, g, t)
      end
  end.

End Parser.

(** [re.compile(pattern, flags)]; a pattern outside the supported syntax
    compiles to [Fail]. *)
Definition compile (fl : flags) (pattern : str) : regex :=
  match parse_alt fl (3 * length pattern + 3) 1 pattern with
  | Some (r, _, []) => r
  | _ => Fail
  end.

(** [re.escape(s)]. *)
Definition special (c : N) : bool :=
  existsb (N.eqb c) (u "()[]{}?*+-|^$\.&~# " ++ [9; 10; 13; 11; 12]).
Definition escape (s : str) : str :=
  flat_map (fun c => if special c then [92; c] else [c]) s.

(** *** Matching *)

(** Capture spans, most recent first. *)
Abbreviation caps := (list (nat * (nat * nat))).
Abbreviation state := (nat * caps)%type.

Fixpoint star_loop (step : state -> list state) (fuel : nat) (st : state) : list state :=
  match fuel with
  | O => [st]
  | S fuel =>
      flat_map (fun st' => if (st.1 <? st'.1)%nat then star_loop step fuel st' else [])
               (step st) ++ [st]
  end.

Section Engine.
Variable s : str.

Definition word_at (i : nat) : bool :=
  match s !! i with Some c => is_word c | None => false end.

Definition word_boundary (i : nat) : bool :=
  xorb (match i with O => false | S j => word_at j end) (word_at i).

Definition bol (ml : bool) (i : nat) : bool :=
  match i with
  | O => true
  | S j => ml && bool_decide (s !! j = Some LF)
  end.

Definition eol (ml : bool) (i : nat) : bool :=
  (i =? length s)%nat
  || (bool_decide (s !! i = Some LF) && (ml || (S i =? length s)%nat)).

Definition behind (cs : charset) (i : nat) : bool :=
  match i with
  | O => false
  | S j => match s !! j with Some c => cs_match cs c | None => false end
  end.

(** The states in which [r] can finish when started in [st], in the order
    a backtracking matcher reaches them. *)
Fixpoint ends (r : regex) (st : state) : list state :=
  match r with
  | Eps => [st]
  | Fail => []
  | Chr cs =>
      match s !! st.1 with
      | Some c => if cs_match cs c then [(S st.1, st.2)] else []
      | None => []
      end
  | Seq a b => flat_map (ends b) (ends a st)
  | Alt a b => ends a st ++ ends b st
  | Star a => star_loop (ends a) (S (length s - st.1)) st
  | Grp k a => (fun e : state => (e.1, (k, (st.1, e.1)) :: e.2)) <$> ends a st
  | Bol ml => if bol ml st.1 then [st] else []
  | Eol ml => if eol ml st.1 then [st] else []
  | WordB => if word_boundary st.1 then [st] else []
  | Behind cs => if behind cs st.1 then [st] else []
  end.

End Engine.

(** A match object: start, end and capture spans over the subject. *)
Record rmatch := { m_subject : str; m_start : nat; m_end : nat; m_caps : caps }.

Definition match_at (r : regex) (s : str) (i : nat) : option rmatch :=
  (fun e : state => {| m_subject := s; m_start := i; m_end := e.1; m_caps := e.2 |})
    <$> head (ends s r (i, [])).

(** [re.match]. *)
Definition re_match (r : regex) (s : str) : option rmatch := match_at r s 0.

(** The first position from [i] on, within [fuel] steps, where [r] matches. *)
Fixpoint search_from (r : regex) (s : str) (fuel : nat) (i : nat) : option rmatch :=
  match match_at r s i with
  | Some m => Some m
  | None => match fuel with
            | O => None
            | S fuel => search_from r s fuel (S i)
            end
  end.

(** [re.search]. *)
Definition re_search (r : regex) (s : str) : option rmatch :=
  search_from r s (length s) 0.

(** [m.group(k)], [None] where the group took no part in the match. *)
Definition group (m : rmatch) (k : nat) : option str :=
  match k with
  | O => Some (take (m_end m - m_start m) (drop (m_start m) (m_subject m)))
  | _ => match list_find (fun e => e.1 = k) (m_caps m) with
         | Some (_, (_, (a, b))) => Some (take (b - a) (drop a (m_subject m)))
         | None => None
         end
  end.

(** The successive non-overlapping matches, as [re.finditer] yields them
    for a pattern that matches no empty string. *)
Fixpoint finditer_from (r : regex) (s : str) (fuel : nat) (i : nat) : list rmatch :=
  match fuel with
  | O => []
  | S fuel =>
      match search_from r s (length s - i) i with
      | None => []
      | Some m =>
          m :: finditer_from r s fuel (if (m_start m <? m_end m)%nat then m_end m else S (m_end m))
      end
  end.

Definition finditer (r : regex) (s : str) : list rmatch :=
  finditer_from r s (S (length s)) 0.

(** [re.findall] for a pattern without groups. *)
Definition findall (r : regex) (s : str) : list str :=
  omap (fun m => group m 0) (finditer r s).

Fixpoint pieces (s : str) (i : nat) (ms : list rmatch) : list str :=
  match ms with
  | [] => [drop i s]
  | m :: ms => take (m_start m - i) (drop i s) :: pieces s (m_end m) ms
  end.

(** [re.split] for a pattern without groups. *)
Definition re_split (r : regex) (s : str) : list str := pieces s 0 (finditer r s).

(** [re.sub] with a constant replacement. *)
Definition re_sub (r : regex) (repl : str) (s : str) : str :=
  join repl (re_split r s).

Definition found (m : option rmatch) : bool := bool_decide (is_Some m).

End Re.
Export Re.

(** ** Calendar dates *)

Module Date.
Local Open Scope Z_scope.

(** [datetime.date]: the fields as given to the constructor. *)
Record date := { year : Z; month : Z; day : Z }.

Definition MINYEAR : Z := 1.
Definition MAXYEAR : Z := 9999.
Definition _MAXORDINAL : Z := 3652059.

Definition _DAYS_IN_MONTH : list Z :=
  [-1; 31; 28; 31; 30; 31; 30; 31; 31; 30; 31; 30; 31].
Definition _DAYS_BEFORE_MONTH : list Z :=
  [-1; 0; 31; 59; 90; 120; 151; 181; 212; 243; 273; 304; 334].

Definition tab (t : list Z) (i : Z) : Z := nth (Z.to_nat i) t 0.

Definition _is_leap (y : Z) : bool :=
  (y mod 4 =? 0) && (negb (y mod 100 =? 0) || (y mod 400 =? 0)).

Definition _days_before_year (y : Z) : Z :=
  let y := y - 1 in y * 365 + y / 4 - y / 100 + y / 400.

Definition _days_in_month (y m : Z) : Z :=
  if (m =? 2) && _is_leap y then 29 else tab _DAYS_IN_MONTH m.

Definition _days_before_month (y m : Z) : Z :=
  tab _DAYS_BEFORE_MONTH m + (if (2 <? m) && _is_leap y then 1 else 0).

Definition _ymd2ord (y m d : Z) : Z :=
  _days_before_year y + _days_before_month y m + d.

Definition _DI400Y : Z := 146097.
Definition _DI100Y : Z := 36524.
Definition _DI4Y : Z := 1461.

Definition _ord2ymd (n : Z) : Z * Z * Z :=
  let n := n - 1 in
  let n400 := n / _DI400Y in
  let n := n mod _DI400Y in
  let year := n400 * 400 + 1 in
  let n100 := n / _DI100Y in
  let n := n mod _DI100Y in
  let n4 := n / _DI4Y in
  let n := n mod _DI4Y in
  let n1 := n / 365 in
  let n := n mod 365 in
  let year := year + n100 * 100 + n4 * 4 + n1 in
  if (n1 =? 4) || (n100 =? 4) then (year - 1, 12, 31)
  else
    let leapyear := (n1 =? 3) && (negb (n4 =? 24) || (n100 =? 3)) in
    let month := Z.shiftr (n + 50) 5 in
    let preceding :=
      tab _DAYS_BEFORE_MONTH month + (if (2 <? month) && leapyear then 1 else 0) in
    if n <? preceding
    then
      let month := month - 1 in
      let preceding :=
        preceding - (tab _DAYS_IN_MONTH month
                     + (if (month =? 2) && leapyear then 1 else 0)) in
      (year, month, n - preceding + 1)
    else (year, month, n - preceding + 1).

(** The field check of the constructor. *)
Definition valid_date (d : date) : bool :=
  (MINYEAR <=? year d) && (year d <=? MAXYEAR)
  && (1 <=? month d) && (month d <=? 12)
  && (1 <=? day d) && (day d <=? _days_in_month (year d) (month d)).

(** [datetime.date(y, m, d)]; [None] stands for [ValueError]. *)
Definition mk_date (y m d : Z) : option date :=
  let r := {| year := y; month := m; day := d |} in
  if valid_date r then Some r else None.

Definition toordinal (d : date) : Z := _ymd2ord (year d) (month d) (day d).

Definition fromordinal (n : Z) : date :=
  let '(y, m, d) := _ord2ymd n in {| year := y; month := m; day := d |}.

(** [d.weekday()]: Monday is 0. *)
Definition weekday (d : date) : Z := (toordinal d + 6) mod 7.

(** [d + timedelta(days=k)]; [None] stands for [OverflowError]. *)
Definition add_days (d : date) (k : Z) : option date :=
  let o := toordinal d + k in
  if (0 <? o) && (o <=? _MAXORDINAL) then Some (fromordinal o) else None.

(** [d1 < d2]: on (year, month, day). *)
Definition date_ltb (a b : date) : bool :=
  (year a <? year b)
  || ((year a =? year b)
      && ((month a <? month b) || ((month a =? month b) && (day a <? day b)))).

(** [n] written with [w] decimal digits, as [%0wd] does for [0 <= n < 10^w]. *)
Fixpoint digits (w : nat) (n : Z) : str :=
  match w with
  | O => []
  | S w' => digits w' (n / 10) ++ [Z.to_N (48 + n mod 10)]
  end.

(** [d.isoformat()]. *)
Definition isoformat (d : date) : str :=
  digits 4 (year d) ++ u "-" ++ digits 2 (month d) ++ u "-" ++ digits 2 (day d).

End Date.
Export Date.

(** ** Exceptions, state and the files *)

Inductive exn :=
| KeyError (key : str)
| ValueError
| OverflowError.

(** The outcome of a computation that can raise. *)
Inductive res (A : Type) :=
| Ok (a : A)
| Raise (e : exn).
Arguments Ok {A} a.
Arguments Raise {A} e.

Global Instance exn_eq_dec : EqDecision exn.
Proof. solve_decision. Defined.
Global Instance res_eq_dec {A} `{EqDecision A} : EqDecision (res A).
Proof. solve_decision. Defined.

Global Instance res_ret : MRet res := fun A a => Ok a.
Global Instance res_bind : MBind res :=
  fun A B f x => match x with Ok a => f a | Raise e => Raise e end.

(** [d + timedelta(days=k)] as a raising computation. *)
Definition date_plus (d : date) (k : Z) : res date :=
  match add_days d k with Some r => Ok r | None => Raise OverflowError end.

(** Look-up in a dict written as an association list (its keys in
    insertion order). *)
Definition dict_get {V} (d : list (str * V)) (k : str) : res V :=
  match list_find (fun e => e.1 = k) d with
  | Some (_, (_, v)) => Ok v
  | None => Raise (KeyError k)
  end.

(** ["|".join(d)] over the keys of a dict. *)
Definition join_keys {V} (d : list (str * V)) : str := join (u "|") (fst <$> d).

(** The state the program keeps outside its local variables. *)
Record Task := {
  t_id : str;
  t_text : str;
  t_priority : str;
  t_due : option str;
  t_done : bool;
  t_created : Z;
  t_auto : bool;
  t_source : str;
  t_sourceDetail : str;
}.

Global Instance Task_eq_dec : EqDecision Task.
Proof. solve_decision. Defined.

Record World := {
  (** The parsed content of [tasks.json]; [None] while the file is absent. *)
  DATA_FILE : option (gmap str (list Task));
  (** How often [save_tasks] has replaced [tasks.json]. *)
  DATA_WRITES : nat;
  (** The messages written to [server.log], oldest first, without their
      time stamps. *)
  LOG_FILE : list str;
  (** The content of [processed.json]; [None] while the file is absent. *)
  PROCESSED_FILE : option (list str);
  (** The module-level set [_processed]. *)
  _processed : gset str;
}.

(** Computations that read and write the world and can raise. *)
Definition M (A : Type) : Type := World -> res A * World.

Global Instance M_ret : MRet M := fun A a w => (Ok a, w).
Global Instance M_bind : MBind M :=
  fun A B f x w =>
    match x w with
    | (Ok a, w') => f a w'
    | (Raise e, w') => (Raise e, w')
    end.

Definition lift {A} (x : res A) : M A := fun w => (x, w).

(** [log(msg)]. *)
Definition log (msg : str) : M () :=
  fun w => (Ok (),
            {| DATA_FILE := DATA_FILE w; DATA_WRITES := DATA_WRITES w;
               LOG_FILE := LOG_FILE w ++ [msg];
               PROCESSED_FILE := PROCESSED_FILE w; _processed := _processed w |}).

(** A [for] loop over [xs] that threads the loop variables [s]. *)
Fixpoint for_each {A S} (xs : list A) (body : A -> S -> M S) (s : S) : M S :=
  match xs with
  | [] => mret s
  | x :: xs => s' ← body x s; for_each xs body s'
  end.

(** ** Rule-based action item extraction *)

Record Item := {
  text : option str;
  due_date : option str;
  priority : option str;
}.

Module Patterns.

Definition _trigger_re : regex := Eval vm_compute in compile flag_I
  (u "\b(?:can you|could you|please|would you mind|i need you to|you(?:\s+will)?\s+need to|"
   ++ u "you\s+should|you\s+must|action\s+item|action:|todo:|to-?do:|follow[- ]?up|"
   ++ u "next\s+step|assigned\s+to|your\s+task|your\s+action|remind\s+you|"
   ++ u "don'?t\s+forget|make\s+sure\s+you|ensure\s+you|you\s+(?:are|were)\s+asked)\b").

Definition _MONTHS : list (str * Z) :=
  [(u "january", 1); (u "february", 2); (u "march", 3); (u "april", 4);
   (u "may", 5); (u "june", 6); (u "july", 7); (u "august", 8);
   (u "september", 9); (u "october", 10); (u "november", 11); (u "december", 12);
   (u "jan", 1); (u "feb", 2); (u "mar", 3); (u "apr", 4);
   (u "jun", 6); (u "jul", 7); (u "aug", 8); (u "sep", 9); (u "oct", 10);
   (u "nov", 11); (u "dec", 12)]%Z.

Definition _WEEKDAYS : list (str * Z) :=
  [(u "monday", 0); (u "tuesday", 1); (u "wednesday", 2); (u "thursday", 3);
   (u "friday", 4); (u "saturday", 5); (u "sunday", 6)]%Z.

Definition eod_re : regex := Eval vm_compute in compile no_flags
  (u "\b(eod|cob|end\s+of\s+(the\s+)?day)\b").
Definition end_of_week_re : regex := Eval vm_compute in compile no_flags
  (u "\bend\s+of\s+(the\s+)?week\b").
Definition end_of_month_re : regex := Eval vm_compute in compile no_flags
  (u "\bend\s+of\s+(the\s+)?month\b").
Definition weekday_re : regex := Eval vm_compute in compile no_flags
  (u "\b(?:by|on|due)\s+(?:next\s+)?(" ++ join_keys _WEEKDAYS ++ u ")\b").
Definition month_day_re : regex := Eval vm_compute in compile no_flags
  (u "\b(" ++ join_keys _MONTHS ++ u ")\s+(\d{1,2})(?:st|nd|rd|th)?\s*(?:,?\s*(\d{4}))?\b").
Definition iso_re : regex := Eval vm_compute in compile no_flags
  (u "\b(\d{4})-(\d{2})-(\d{2})\b").
Definition slash_re : regex := Eval vm_compute in compile no_flags
  (u "\b(\d{1,2})/(\d{1,2})(?:/(\d{2,4}))?\b").

Definition _due_phrase_re : regex := Eval vm_compute in compile flag_I
  (u "\b(?:by|due|before|no\s+later\s+than)\s+([\w/\-,\s]{2,35})").

Definition urgent_re : regex := Eval vm_compute in compile no_flags
  (u "\b(urgent|asap|immediately|critical|blocker|p0|p1|top\s+priority)\b").
Definition important_re : regex := Eval vm_compute in compile no_flags
  (u "\b(important|high\s+priority|soon|today|eod|cob|end\s+of\s+day)\b").

Definition bullet_re : regex := Eval vm_compute in compile no_flags
  (u "^[-•*>\u2022\u25cf]+\s*").
Definition spaces_re : regex := Eval vm_compute in compile no_flags
  (u "\s{2,}").

Definition line_split_re : regex := Eval vm_compute in compile no_flags
  (u "[\n\r]+|(?<=[.!?])\s+").

(** The hard-skip patterns, in the order of the loop body. *)
Definition image_re : regex := Eval vm_compute in compile flag_I
  (u "^\[image:").
Definition salutation_re : regex := Eval vm_compute in compile flag_I
  (u "^(?:hi|hello|hey|dear|g\'?day|good\s+(?:morning|afternoon|evening|day))\b").
Definition byline_re : regex := Eval vm_compute in compile no_flags
  (u "^by\s+[A-Z][a-z]+(\s+[A-Z][a-z]+)*\s*$").
Definition role_label_re : regex := Eval vm_compute in compile flag_I
  (u "^(?:owner|lead|responsible|assignee|poc|dri|point\s+of\s+contact)\s*:").
Definition reply_on_re : regex := Eval vm_compute in compile flag_I
  (u "^on\s+\w").
Definition reply_tail_re : regex := Eval vm_compute in compile flag_I
  (u "wrote:\s*$|<\s*$|@[\w.\-]+>\s*$").
Definition quoted_attr_re : regex := Eval vm_compute in compile flag_I
  (u "@[\w.\-]+>\s*wrote:\s*$").
Definition footer_re : regex := Eval vm_compute in compile flag_I
  (u "^(?:google\s+llc|you\s+have\s+received\s+this\s+email\s+because"
   ++ u "|this\s+email\s+was\s+sent\s+to|unsubscribe|privacy\s+policy"
   ++ u "|©\s*\d{4}|all\s+rights\s+reserved"
   ++ u "|\d+\s+\w+.*(?:ave|blvd|pkwy|way|street|road|drive).*\busa\b"
   ++ u "|mountain\s+view|1600\s+amphitheatre)").
Definition shared_re : regex := Eval vm_compute in compile flag_I
  (u "^[\w\s.\-]+ shared (a |an )?(document|file|folder|spreadsheet|slide)").
Definition invited_re : regex := Eval vm_compute in compile flag_I
  (u "^[\w\s.\-]+\([\w.\-\+]+@[\w.\-]+\)\s+has\s+(invited|shared)").
Definition contact_re : regex := Eval vm_compute in compile flag_I
  (u "^[\w\s.\-]+([\(<])[\w.\-\+]+@[\w.\-]+\.(com|net|org|io)[>\)]\s*"
   ++ u "(?:has\s+invited|shared|wrote|said)?").
Definition address_re : regex := Eval vm_compute in compile no_flags
  (u "^[\w.\-\+]+@[\w.\-]+\s*").
Definition header_re : regex := Eval vm_compute in compile flag_I
  (u "^[>\s]*(?:from|to|cc|bcc|subject|date|reply-to|message-id|"
   ++ u "delivered-to|received|x-[\w-]+)\s*:").
Definition calendar_label_re : regex := Eval vm_compute in compile flag_I
  (u "^[>\s]*(?:organizer|when|where|attendees?|time|location|"
   ++ u "event(?:\s+title)?|join\s+(?:zoom|the\s+meeting)|"
   ++ u "dial[\s\-]?in|conference\s+(?:id|room)|"
   ++ u "proposed\s+(?:new\s+)?time|video\s+call|meeting\s+link)\s*[:\-]").
Definition domain_re : regex := Eval vm_compute in compile flag_I
  (u "^(?:www\.)?[\w\-]+\.(com|net|org|io|ai|co|us)\s*$").
Definition phone_re : regex := Eval vm_compute in compile no_flags
  (u "\+?\d[\d\s.\-\(\)]{6,}\d").
Definition at_domain_re : regex := Eval vm_compute in compile no_flags
  (u "@[\w.\-]+").
Definition time_slot_re : regex := Eval vm_compute in compile flag_I
  (u "^\d{1,2}:\d{2}\s*(?:am|pm)\b").
Definition day_name_re : regex := Eval vm_compute in compile flag_I
  (u "^(?:mon|tue|wed|thu|fri|sat|sun)\w*\b").
Definition clock_re : regex := Eval vm_compute in compile flag_I
  (u "\b\d{1,2}(?::\d{2})?\s*(?:am|pm)\b").
Definition person_re : regex := Eval vm_compute in compile no_flags
  (u "^[A-Z][a-z]+(?:\s+[A-Z][a-z]+)+\s*(?:[-–]\s*[\w\s]+)?$").
Definition action_word_re : regex := Eval vm_compute in compile flag_I
  (u "\b(?:please|must|should|need|action|follow|next\s+step)\b").
Definition fragment_re : regex := Eval vm_compute in compile flag_I
  (u "\b(?:to|and|or|but|for|in|of|at|by|from|with|into|onto|over|through|about"
   ++ u "|the|a|an|this|that|these|those|your|our|their|its|my|his|her"
   ++ u "|me|us|them|him|her)\s*$").
Definition email_re : regex := Eval vm_compute in compile no_flags
  (u "[\w.\-\+]+@[\w.\-]+").

Definition parens_re : regex := Eval vm_compute in compile no_flags
  (u "\([^)]*\)").
Definition directive_re : regex := Eval vm_compute in compile flag_I
  (u "\b(?:can you|could you|"
   ++ u "please\s+(?:\w+\s+)?(?:do|send|review|confirm|check|let\s+me|"
   ++ u "update|share|schedule|submit|complete|sign|approve|prepare|"
   ++ u "create|follow|reply|respond|help|take|get|add|fix|write|provide|"
   ++ u "reach\s+out|look\s+into|look\s+at|make\s+sure|note\s+that)|"
   ++ u "action\s+item|follow[- ]?up|next\s+step|assigned)\b").

(** The static patterns of [extract_action_items]. *)
Definition all : list regex :=
  [_trigger_re; eod_re; end_of_week_re; end_of_month_re; weekday_re;
   month_day_re; iso_re; slash_re; _due_phrase_re; urgent_re; important_re;
   bullet_re; spaces_re; line_split_re; image_re; salutation_re; byline_re;
   role_label_re; reply_on_re; reply_tail_re; quoted_attr_re; footer_re;
   shared_re; invited_re; contact_re; address_re; header_re;
   calendar_label_re; domain_re; phone_re; at_domain_re; time_slot_re;
   day_name_re; clock_re; person_re; action_word_re; fragment_re; email_re;
   parens_re; directive_re].

End Patterns.

Section Extractor.
Import Patterns.

(** [USER_NAME] from the environment and the clock's [date.today()]. *)
Variable USER_NAME : str.
Variable today : date.

(** [USER_NAME.split()[0]]. *)
Definition USER_FIRST : str := default [] (head (split USER_NAME)).

Definition _name_re : regex := compile flag_I
  (u "(?:^|[\s,;:([@])(?:" ++ escape USER_NAME ++ u "|" ++ escape USER_FIRST
   ++ u ")(?:\b|$)").

Definition third_person_re : regex := compile flag_I
  (u "^(?:" ++ escape USER_NAME ++ u "|" ++ escape USER_FIRST ++ u ")\s+"
   ++ u "(?:will|is|was|has|had|can|could|would|should|may|might)\b").

(** [x or 7] on integers. *)
Definition or7 (x : Z) : Z := if (x =? 0)%Z then 7%Z else x.

Definition _next_weekday (name : str) : res date :=
  target ← dict_get _WEEKDAYS (lower name);
  let diff := or7 ((target - weekday today + 7) mod 7)%Z in
  date_plus today diff.

(** The body of a [try] whose [except ValueError: pass] lets control fall
    through to [otherwise]. *)
Definition try_value {A} (body : option A) (otherwise : res (option A)) : res (option A) :=
  match body with
  | Some a => Ok (Some a)
  | None => otherwise
  end.

(** [bool(s)] of an optional group. *)
Definition truthy (g : option str) : option str :=
  match g with Some [] => None | _ => g end.

(** [_parse_date] from its MM/DD pattern on. *)
Definition parse_slash (t : str) : res (option str) :=
  match re_search slash_re t with
  | Some m =>
      try_value
        (let yr := match truthy (group m 3) with
                   | Some g => int_of g
                   | None => year today
                   end in
         let yr := if (yr <? 100)%Z then (yr + 2000)%Z else yr in
         isoformat <$> mk_date yr (int_of (default [] (group m 1)))
                                  (int_of (default [] (group m 2))))
        (Ok None)
  | None => Ok None
  end.

(** [_parse_date] from its YYYY-MM-DD pattern on. *)
Definition parse_iso (t : str) : res (option str) :=
  match re_search iso_re t with
  | Some m =>
      try_value
        (isoformat <$> mk_date (int_of (default [] (group m 1)))
                               (int_of (default [] (group m 2)))
                               (int_of (default [] (group m 3))))
        (parse_slash t)
  | None => parse_slash t
  end.

(** [_parse_date] from its month-name pattern on. *)
Definition parse_month_day (t : str) : res (option str) :=
  match re_search month_day_re t with
  | Some m =>
      mo ← dict_get _MONTHS (default [] (group m 1));
      try_value
        (let dy := int_of (default [] (group m 2)) in
         let yr := match truthy (group m 3) with
                   | Some g => int_of g
                   | None => year today
                   end in
         d ← mk_date yr mo dy;
         d ← (if date_ltb d today
              then mk_date (year today + 1) (month d) (day d)
              else Some d);
         Some (isoformat d))
        (parse_iso t)
  | None => parse_iso t
  end.

Definition _parse_date (text : str) : res (option str) :=
  let t := lower text in
  if found (re_search eod_re t) then Ok (Some (isoformat today))
  else if found (re_search end_of_week_re t) then
    let diff := or7 ((4 - weekday today) mod 7)%Z in
    d ← date_plus today diff; Ok (Some (isoformat d))
  else if found (re_search end_of_month_re t) then
    nm ← match mk_date (year today) (month today) 28 with
         | Some d28 => date_plus d28 4
         | None => Raise ValueError
         end;
    d ← date_plus nm (- day nm)%Z; Ok (Some (isoformat d))
  else
    match re_search weekday_re t with
    | Some m => d ← _next_weekday (default [] (group m 1)); Ok (Some (isoformat d))
    | None => parse_month_day t
    end.

Definition _extract_due (sentence : str) : res (option str) :=
  match re_search _due_phrase_re sentence with
  | Some m => _parse_date (default [] (group m 0))
  | None => Ok None
  end.

Definition _priority (sentence : str) : str :=
  let s := lower sentence in
  if found (re_search urgent_re s) then u "high"
  else if found (re_search important_re s) then u "high"
  else u "medium".

Definition _clean (s : str) : str :=
  let s := strip s in
  let s := re_sub bullet_re [] s in
  let s := re_sub spaces_re (u " ") s in
  match s with
  | [] => s
  | _ => upper (take 1 s) ++ drop 1 s
  end.

(** The candidate lines of [content]. *)
Definition split_lines (content : str) : list str :=
  strip <$> filter (fun l => strip l ≠ []) (re_split line_split_re content).

(** The hard-skip tests of the loop body, in their order; [true] where the
    body reaches a [continue]. *)
Definition hard_skip (line : str) : bool :=
  let nwords := length (split line) in
  found (re_match image_re line)
  || (found (re_match salutation_re line) && (nwords <=? 20)%nat)
  || found (re_match byline_re line)
  || found (re_match role_label_re line)
  || (found (re_match reply_on_re line) && found (re_search reply_tail_re line))
  || found (re_search quoted_attr_re line)
  || found (re_match footer_re line)
  || found (re_match shared_re line)
  || found (re_match invited_re line)
  || (found (re_match contact_re line) && (nwords <=? 15)%nat)
  || (found (re_match address_re line) && (nwords <=? 4)%nat)
  || found (re_match header_re line)
  || found (re_match calendar_label_re line)
  || found (re_match domain_re line)
  || (found (re_search phone_re line) && found (re_search at_domain_re line))
  || found (re_match time_slot_re line)
  || (found (re_match day_name_re line) && found (re_search clock_re line)
      && (nwords <=? 12)%nat)
  || (found (re_match person_re line) && (nwords <=? 6)%nat
      && negb (found (re_search action_word_re line)))
  || endswith (rstrip line) (u ":")
  || (found (re_search fragment_re line) && (5 <=? nwords)%nat)
  || (2 <=? length (findall email_re line))%nat.

(** The line with the one after it, for context. *)
Definition context (lines : list str) (i : nat) (line : str) : str :=
  line ++ match lines !! S i with Some next => u " " ++ next | None => [] end.

(** The signal tests and their refinements; [true] where the body reaches
    a [continue]. *)
Definition no_signal (line ctx : str) : bool :=
  let has_name := found (re_search _name_re ctx) in
  let has_trigger := found (re_search _trigger_re ctx) in
  negb (has_name || has_trigger)
  || (has_name && negb has_trigger
      && (negb (found (re_search _name_re (re_sub parens_re (u " ") ctx)))
          || found (re_match third_person_re line)))
  || (has_trigger && negb has_name
      && (negb (found (re_search directive_re line))
          || (length (split line) <? 5)%nat)).

(** The loop variables: [items] and [seen_keys]. *)
Definition loop_state : Type := list Item * gset str.

Definition loop_body (lines : list str) (il : nat * str) (st : loop_state) : M loop_state :=
  let '(i, line) := il in
  if hard_skip line then mret st
  else
    let ctx := context lines i line in
    if no_signal line ctx then mret st
    else
      due ← lift (_extract_due ctx);
      let prio := _priority ctx in
      let txt := _clean line in
      if (length txt <? 8)%nat || (300 <? length txt)%nat then mret st
      else
        let key := take 80 (lower txt) in
        if bool_decide (key ∈ st.2) then mret st
        else
          let seen_keys := {[key]} ∪ st.2 in
          let items :=
            st.1 ++ [{| text := Some txt; due_date := due; priority := Some prio |}] in
          _ ← log (u "[rule-extract] [" ++ prio ++ u "] " ++ take 80 txt);
          mret (items, seen_keys).

Definition extract_action_items (source_type content : str) : M (list Item) :=
  let lines := split_lines content in
  st ← for_each (imap (fun i l => (i, l)) lines) (loop_body lines) ([], ∅);
  mret st.1.

End Extractor.

(** ** Processed-message tracking *)

(** Replace the ledger's fields of the world. *)
Definition set_processed (mem : gset str) (file : option (list str)) (w : World) : World :=
  {| DATA_FILE := DATA_FILE w; DATA_WRITES := DATA_WRITES w; LOG_FILE := LOG_FILE w;
     PROCESSED_FILE := file; _processed := mem |}.

(** [_load_processed()]: the set read back when the module is loaded. *)
Definition _load_processed (w : World) : gset str :=
  match PROCESSED_FILE w with
  | None => ∅
  | Some ids => list_to_set ids
  end.

(** A restart of the server: [_processed = _load_processed()]. *)
Definition restart (w : World) : World :=
  set_processed (_load_processed w) (PROCESSED_FILE w) w.

Definition is_processed (pid : str) : M bool :=
  fun w => (Ok (bool_decide (pid ∈ _processed w)), w).

(** [l[-n:]]. *)
Definition last_n {A} (n : nat) (l : list A) : list A := drop (length l - n) l.

(** [mark_processed(pid)].  The order in which [list(_processed)] lists a
    set is the interpreter's; it is the parameter [listing], which gives
    one order for each set (CPython may list one set in different orders,
    by the history of its insertions). *)
Definition mark_processed (listing : gset str -> list str) (pid : str) : M () :=
  fun w =>
    let mem := {[pid]} ∪ _processed w in
    let items := last_n (Z.to_nat 10000) (listing mem) in
    (Ok (), set_processed mem (Some items) w).

(** ** Auto-task adder *)

Definition set_tasks (tasks : gmap str (list Task)) (w : World) : World :=
  {| DATA_FILE := Some tasks; DATA_WRITES := S (DATA_WRITES w); LOG_FILE := LOG_FILE w;
     PROCESSED_FILE := PROCESSED_FILE w; _processed := _processed w |}.

(** The store [load_tasks()] returns: the content of the file, or the two
    empty columns while the file is absent. *)
Definition stored (w : World) : gmap str (list Task) :=
  match DATA_FILE w with
  | None => <[u "today" := []]> (<[u "longterm" := []]> ∅)
  | Some tasks => tasks
  end.

(** [load_tasks()] on a file that is absent or holds a store. *)
Definition load_tasks : M (gmap str (list Task)) :=
  fun w => (Ok (stored w), w).

(** [save_tasks(data)]. *)
Definition save_tasks (data : gmap str (list Task)) : M () :=
  fun w => (Ok (), set_tasks data w).

(** What a call reads from outside: the clock and the random id. *)
Record Env := {
  today : date;
  now_ms : Z;
  uid : str;
}.

(** [text.lower()] of every task of both columns. *)
Definition all_texts (tasks : gmap str (list Task)) : gset str :=
  list_to_set
    (col_ ← [u "today"; u "longterm"];
     t ← default [] (tasks !! col_);
     [lower (t_text t)]).

Definition add_auto_task (env : Env) (item : Item) (source source_detail : str) : M () :=
  let text := strip (default [] (text item)) in
  match text with
  | [] => mret ()
  | _ =>
      let due_date := match due_date item with Some [] => None | d => d end in
      let priority := default (u "medium") (priority item) in
      let priority :=
        if bool_decide (priority ∈ [u "high"; u "medium"; u "low"])
        then priority else u "medium" in
      let today_str := isoformat (today env) in
      let col :=
        match due_date with
        | Some d => if str_ltb today_str d then u "longterm" else u "today"
        | None => u "today"
        end in
      tasks ← load_tasks;
      if bool_decide (lower text ∈ all_texts tasks)
      then log (u "[auto-add] duplicate skipped: " ++ take 60 text)
      else
        let task :=
          {| t_id := uid env; t_text := text; t_priority := priority;
             t_due := due_date; t_done := false; t_created := now_ms env;
             t_auto := true; t_source := source; t_sourceDetail := source_detail |} in
        match tasks !! col with
        | None => lift (Raise (KeyError col))
        | Some bucket =>
            _ ← save_tasks (<[col := bucket ++ [task]]> tasks);
            log (u "[auto-add] [" ++ source ++ u " → " ++ col ++ u "] " ++ take 80 text)
        end
  end.

(** ** Email quote stripper *)

Definition attribution_re : regex := Eval vm_compute in compile flag_IM
  (u "^On\s+\w[^\n]{5,200}(?:\n[^\n]{0,100})?wrote:\s*$").
Definition quote_re : regex := Eval vm_compute in compile no_flags
  (u "^>+").
Definition separator_re : regex := Eval vm_compute in compile no_flags
  (u "\n[-_]{3,}\s*\n").

(** [body[:m.start()]] where the pattern is found. *)
Definition cut_at (r : regex) (body : str) : str :=
  match re_search r body with
  | Some m => take (m_start m) body
  | None => body
  end.

(** The loop over the lines, with its variables [cleaned] and
    [prev_was_quote]. *)
Fixpoint drop_quoted (lines : list str) (cleaned : list str) (prev_was_quote : bool) : list str :=
  match lines with
  | [] => cleaned
  | line :: rest =>
      if found (re_match quote_re (strip line)) then drop_quoted rest cleaned true
      else if prev_was_quote && bool_decide (strip line = []) then drop_quoted rest cleaned prev_was_quote
      else drop_quoted rest (cleaned ++ [line]) false
  end.

Definition _strip_email_quotes (body : str) : str :=
  let body := cut_at attribution_re body in
  let body := join [LF] (drop_quoted (split_on LF body) [] false) in
  let body := cut_at separator_re body in
  strip body.

(** ** Calendar body detector *)

Definition _CAL_PATTERNS : list regex := Eval vm_compute in
  compile flag_I <$>
  [u "\bOrganizer\s*:";
   u "\bWhen\s*:\s+\S";
   u "\bWhere\s*:\s+\S";
   u "\bJoin\s+(?:Zoom|Google\s+Meet|the\s+meeting|Teams)\b";
   u "(?:zoom\.us/j/|meet\.google\.com/|teams\.microsoft\.com)";
   u "\bVideo\s+call\s+link\b";
   u "\bProposed\s+new\s+time\b";
   u "\bConference\s+(?:ID|room|call)\b";
   u "\bDial-?in\b.*\bnumber\b";
   u "\bGuests\s+can\b";
   u "\bGoing\?\s+(?:Yes|No|Maybe)\b"].

(** The number of calendar patterns found in the body. *)
Definition hits (body : str) : nat :=
  length (filter (fun p => found (re_search p body) = true) _CAL_PATTERNS).

Definition _is_calendar_body (body : str) : bool := (2 <=? hits body)%nat.

(** ** Environment *)

(** The characters at which [str.splitlines] ends a line. *)
Definition is_linebreak (c : N) : bool :=
  in_range 10 13 c || in_range 28 30 c || (c =? 133) || (c =? 8232) || (c =? 8233).

(** [s.splitlines()], with the line read so far in [cur], last character
    first; a carriage return and the line feed after it end one line. *)
Fixpoint lines_from (cur : str) (s : str) : list str :=
  match s with
  | [] => match cur with [] => [] | _ => [reverse cur] end
  | x :: t =>
      if is_linebreak x
      then reverse cur ::
           (if x =? 13
            then match t with
                 | y :: t' => if y =? LF then lines_from [] t' else lines_from [] t
                 | [] => lines_from [] t
                 end
            else lines_from [] t)
      else lines_from (x :: cur) t
  end.

Definition splitlines (s : str) : list str := lines_from [] s.

(** [s.partition(c)] for a one-character separator. *)
Fixpoint partition (c : N) (s : str) : str * str * str :=
  match s with
  | [] => ([], [], [])
  | x :: t =>
      if x =? c then ([], [c], t)
      else let '(a, sep, b) := partition c t in (x :: a, sep, b)
  end.

(** [load_env()], from the text of the [.env] file; [None] while the file
    is absent. *)
Definition load_env (ENV_FILE : option str) : gmap str str :=
  match ENV_FILE with
  | None => ∅
  | Some content =>
      foldl (fun cfg line =>
               let line := strip line in
               if bool_decide (line = []) || startswith line (u "#")
                  || negb (bool_decide (61 ∈ line))
               then cfg
               else let '(k, _, v) := partition 61 line in <[strip k := strip v]> cfg)
            ∅ (splitlines content)
  end.

(** [env(key, default)]: [ENV] is the result of [load_env], [environ] the
    environment of the process. *)
Definition env (ENV environ : gmap str str) (key dflt : str) : str :=
  default (default dflt (environ !! key)) (ENV !! key).

(** ** Helpers *)

(** The digits of [n] to the base [base], for [0 <= n]. *)
Fixpoint radix_digits (base : Z) (digit : Z -> N) (fuel : nat) (n : Z) : str :=
  match fuel with
  | O => []
  | S fuel =>
      if (n <? base)%Z then [digit n]
      else radix_digits base digit fuel (n / base) ++ [digit (n mod base)%Z]
  end.

Definition hex_digit (d : Z) : N := Z.to_N (if (d <? 10)%Z then 48 + d else 87 + d).

(** [hex(n)]. *)
Definition hex (n : Z) : str :=
  (if (n <? 0)%Z then u "-" else []) ++ u "0x"
  ++ radix_digits 16 hex_digit (S (Z.to_nat (Z.log2 (Z.abs n)))) (Z.abs n).


(** [x in s] on strings. *)
Fixpoint contains (s x : str) : bool :=
  startswith s x || match s with [] => false | _ :: t => contains t x end.

(** [random.choices(population, k=k)]; [draw i] is the index the
    generator picks at its [i]-th turn. *)
Definition choices (population : str) (k : nat) (draw : nat -> nat) : str :=
  (fun i => default 0 (population !! (draw i mod length population)%nat)) <$> seq 0 k.

Module Ids.

Definition ascii_lowercase : str := u "abcdefghijklmnopqrstuvwxyz".
Definition digits : str := u "0123456789".

(** [uid()], from the picks of the random generator and the clock in
    milliseconds. *)
Definition uid (draw : nat -> nat) (now_ms : Z) : str :=
  let chars := ascii_lowercase ++ digits in
  choices chars 8 draw ++ drop 2 (hex now_ms).

End Ids.

(** ** Calendar / notification email filter *)

Definition skip_prefixes : list str :=
  [u "accepted:"; u "declined:"; u "tentative:"; u "canceled:"; u "cancellation:";
   u "canceled event:"; u "cancelled event:"; u "cancellation notice:";
   u "tentatively accepted:"; u "tentatively declined:";
   u "updated invitation"; u "updated invitation with note";
   u "invitation:"; u "forwarded invitation:"; u "new event:";
   u "proposed new time:"; u "new time proposed:"; u "re: proposed new time:";
   u "document shared with you:"; u "re: document shared with you:";
   u "fwd: document shared with you:";
   u "shared a file with you:"; u "re: shared a file with you:";
   u "has shared"; u "shared with you:"].

Definition calendar_subject_re : regex := Eval vm_compute in compile no_flags
  (u "proposed\s+new\s+time|new\s+time\s+proposed|rescheduled?\b").

Definition skip_senders : list str :=
  [u "calendar-notification@google.com";
   u "no-reply@google.com";
   u "noreply@";
   u "donotreply@";
   u "calendar.google.com";
   u "atlassian.net";
   u "atlassian.com";
   u "notifications@";
   u "drive-shares-dm-noreply@google.com"].

(** [_is_calendar_email(subject, sender)]; [SMTP_USER] is the value of
    [env('SMTP_USER', '')]. *)
Definition _is_calendar_email (SMTP_USER : str) (subject sender : str) : bool :=
  let s := lower subject in
  if existsb (fun p => startswith s p) skip_prefixes then true
  else if found (re_search calendar_subject_re s) then true
  else
    let smtp_user := lower SMTP_USER in
    if negb (bool_decide (smtp_user = [])) && contains (lower sender) smtp_user then true
    else
      let sender_lc := lower sender in
      existsb (fun x => contains sender_lc x) skip_senders.

(** ** Cron reminders *)

(** [datetime.datetime], without time zone. *)
Record datetime := {
  dt_date : date;
  dt_hour : Z;
  dt_minute : Z;
  dt_second : Z;
  dt_microsecond : Z;
}.

(** The fields a comparison of two [datetime]s goes through, in order. *)
Definition dt_fields (t : datetime) : list Z :=
  [year (dt_date t); month (dt_date t); day (dt_date t);
   dt_hour t; dt_minute t; dt_second t; dt_microsecond t].

(** [a <= b] on tuples of integers. *)
Fixpoint tuple_leb (a b : list Z) : bool :=
  match a, b with
  | x :: a', y :: b' => (x <? y)%Z || ((x =? y)%Z && tuple_leb a' b')
  | [], _ => true
  | _ :: _, [] => false
  end.

(** [t.replace(hour=h, minute=m, second=0, microsecond=0)]. *)
Definition replace_time (t : datetime) (h m : Z) : res datetime :=
  if ((0 <=? h) && (h <=? 23) && (0 <=? m) && (m <=? 59))%Z
  then Ok {| dt_date := dt_date t; dt_hour := h; dt_minute := m;
             dt_second := 0; dt_microsecond := 0 |}
  else Raise ValueError.

(** [t + timedelta(days=k)]. *)
Definition dt_plus_days (t : datetime) (k : Z) : res datetime :=
  d ← date_plus (dt_date t) k;
  Ok {| dt_date := d; dt_hour := dt_hour t; dt_minute := dt_minute t;
        dt_second := dt_second t; dt_microsecond := dt_microsecond t |}.

(** [a - b], the [timedelta] in microseconds. *)
Definition dt_minus (a b : datetime) : Z :=
  ((toordinal (dt_date a) - toordinal (dt_date b)) * 86400
   + ((dt_second a + dt_minute a * 60 + dt_hour a * 3600)
      - (dt_second b + dt_minute b * 60 + dt_hour b * 3600))) * 1000000
  + (dt_microsecond a - dt_microsecond b).

(** [_seconds_until(hour, minute)] at the clock reading [now].  The
    result is the [timedelta] [target - now] in microseconds; the source
    returns its [total_seconds()], the same duration as a float. *)
Definition _seconds_until (now : datetime) (hour minute : Z) : res Z :=
  target ← replace_time now hour minute;
  target ← (if tuple_leb (dt_fields target) (dt_fields now)
            then dt_plus_days target 1
            else Ok target);
  Ok (dt_minus target now).




Section Reminders.

(** [date.fromisoformat], as the interpreter at hand reads a date; [None]
    stands for [ValueError].  (Which forms besides YYYY-MM-DD are read
    depends on the version of Python.) *)
Variable fromisoformat : str -> option date.


End Reminders.

(** ** The scanners' loop over a text *)


(** ** Ingest queue and email scanner *)

(** A file of the ingest queue: the object that [queue_for_ingestion]
    writes. *)
Record Queued := {
  q_text : str;
  q_source : str;
  q_queued_at : str;
}.

(** The files of the server together with the directory [ingest_queue],
    a map from file names to what the files hold. *)
Record Host := {
  world : World;
  INGEST_QUEUE_DIR : gmap str Queued;
}.

Definition Scan (A : Type) : Type := Host -> res A * Host.


(** A call that touches the files of the server only. *)
Definition run {A} (m : M A) : Scan A :=
  fun h =>
    let '(r, w') := m (world h) in
    (r, {| world := w'; INGEST_QUEUE_DIR := INGEST_QUEUE_DIR h |}).






Section Scanner.

Variable USER_NAME : str.
(** The value of [env('SMTP_USER', '')]. *)
Variable SMTP_USER : str.
(** The order in which the interpreter lists a set. *)
Variable listing : gset str -> list str.
(** [str(e)] of an exception. *)
Variable str_of_exn : exn -> str.



End Scanner.

(** * Specification

    The notions the theorems are stated with, and the sample inputs. *)

Import Patterns.
Local Close Scope N_scope.
Local Open Scope nat_scope.

(** ** Matching, declaratively *)

(** The span and the first two groups of a match. *)
Definition span (m : option rmatch) : option (nat * nat * option str * option str) :=
  (fun m => (m_start m, m_end m, group m 1, group m 2)) <$> m.

(** A pattern in which the parser found unsupported syntax. *)
Fixpoint unsupported (r : regex) : bool :=
  match r with
  | Fail => true
  | Seq a b | Alt a b => unsupported a || unsupported b
  | Star a | Grp _ a => unsupported a
  | _ => false
  end.

(** [matches s r i j]: the pattern [r] matches the subject [s] from
    position [i] to position [j]. *)
Inductive matches (s : str) : regex → nat → nat → Prop :=
| M_eps i : matches s Eps i i
| M_chr cs i c : s !! i = Some c → cs_match cs c = true → matches s (Chr cs) i (S i)
| M_seq a b i j k : matches s a i j → matches s b j k → matches s (Seq a b) i k
| M_alt_l a b i j : matches s a i j → matches s (Alt a b) i j
| M_alt_r a b i j : matches s b i j → matches s (Alt a b) i j
| M_star_0 a i : matches s (Star a) i i
| M_star_S a i j k :
    matches s a i j → i < j → matches s (Star a) j k → matches s (Star a) i k
| M_grp g a i j : matches s a i j → matches s (Grp g a) i j
| M_bol ml i : bol s ml i = true → matches s (Bol ml) i i
| M_eol ml i : eol s ml i = true → matches s (Eol ml) i i
| M_wordb i : word_boundary s i = true → matches s WordB i i
| M_behind cs i : behind s cs i = true → matches s (Behind cs) i i.

(** Patterns whose matches depend on the subject only through the matched
    window and, where [\b] is allowed ([wb]), the characters next to it. *)
Fixpoint windowed (wb : bool) (r : regex) : bool :=
  match r with
  | Eps | Fail | Chr _ => true
  | WordB => wb
  | Seq a b | Alt a b => windowed wb a && windowed wb b
  | Star a | Grp _ a => windowed wb a
  | Bol _ | Eol _ | Behind _ => false
  end.

(** No word character right before. *)
Definition ends_nonword (pre : str) : Prop :=
  match last pre with Some c => is_word c = false | None => True end.

(** No word character right after. *)
Definition starts_nonword (post : str) : Prop :=
  match head post with Some c => is_word c = false | None => True end.

(** The span recorded for group [k], the most recent first. *)
Definition cap (k : nat) (c : caps) : option (nat * nat) :=
  (fun x => x.2.2) <$> list_find (fun e => e.1 = k) c.

(** The bodies of the groups numbered [k] in a pattern. *)
Fixpoint bodies (k : nat) (r : regex) : list regex :=
  match r with
  | Seq a b | Alt a b => bodies k a ++ bodies k b
  | Star a => bodies k a
  | Grp k' a => (if decide (k' = k) then [a] else []) ++ bodies k a
  | _ => []
  end.

(** Every way through the pattern passes a group numbered [k]. *)
Fixpoint always (k : nat) (r : regex) : bool :=
  match r with
  | Seq a b => always k a || always k b
  | Alt a b => always k a && always k b
  | Grp k' a => bool_decide (k' = k) || always k a
  | _ => false
  end.

(** Group [k] holds a span matched by one of the group's bodies. *)
Definition captured (s : str) (k : nat) (r : regex) (c : caps) : Prop :=
  ∃ i j a, cap k c = Some (i, j) ∧ a ∈ bodies k r ∧ matches s a i j.

(** A due date: absent, or the ISO form of a calendar date. *)
Definition iso_or_none (due : option str) : Prop :=
  ∀ s, due = Some s → ∃ r, s = isoformat r ∧ valid_date r = true.

(** The call wrote nothing but log lines. *)
Definition only_logged (w w' : World) : Prop :=
  DATA_FILE w' = DATA_FILE w ∧ DATA_WRITES w' = DATA_WRITES w
  ∧ PROCESSED_FILE w' = PROCESSED_FILE w ∧ _processed w' = _processed w
  ∧ LOG_FILE w `prefix_of` LOG_FILE w'.

(** The key under which the extractor remembers an item. *)
Definition seen_key (it : Item) : str := take 80 (lower (default [] (text it))).

(** ** Phrases and vocabularies *)

(** The body holds the phrase [p], not right after a word character and,
    for a phrase that is [closed], not right before one. *)
Definition holds_phrase (closed : bool) (p body : str) : Prop :=
  ∃ pre post, body = pre ++ p ++ post ∧ ends_nonword pre
              ∧ (closed = true → starts_nonword post).

(** The four phrases of the calendar check, the index in [_CAL_PATTERNS]
    of the signal each one raises, and whether the pattern of the signal
    ends at a word boundary. *)
Definition signal_phrases : list (str * nat * bool) :=
  [(u "Organizer:", 0, false); (u "When: Tuesday", 1, false);
   (u "Join Zoom", 3, true); (u "Going? Yes", 10, true)].

(** The class of one character, and the class [\s]. *)
Definition one (c : N) : charset :=
  {| cs_neg := false; cs_ic := false; cs_items := [CChar c] |}.

Definition space_cs : charset :=
  {| cs_neg := false; cs_ic := false; cs_items := [CSpace] |}.

(** [\s+] *)
Definition gap_re : regex := Seq (Chr space_cs) (Star (Chr space_cs)).

(** The pattern of a sequence, as the parser nests it. *)
Fixpoint chain (atoms : list regex) : regex :=
  match atoms with
  | [] => Eps
  | [a] => a
  | a :: rest => Seq a (chain rest)
  end.

(** A word, character by character. *)
Definition chars (w : str) : list regex := (fun c => Chr (one c)) <$> w.

(** The words of a phrase with [\s+] between them. *)
Fixpoint phrase_atoms (ws : list str) : list regex :=
  match ws with
  | [] => []
  | [w] => chars w
  | w :: ws' => chars w ++ gap_re :: phrase_atoms ws'
  end.

(** The pattern of a phrase. *)
Definition phrase_re (ws : list str) : regex := chain (phrase_atoms ws).

(** The pattern of an alternation, as the parser nests it. *)
Fixpoint alts (rs : list regex) : regex :=
  match rs with
  | [] => Fail
  | [r] => r
  | r :: rs' => Alt r (alts rs')
  end.

(** [\b(phrase|phrase|...)\b] *)
Definition vocab_re (V : list (list str)) : regex :=
  Seq WordB (Seq (Grp 1 (alts (phrase_re <$> V))) WordB).

(** The two vocabularies of [_priority], phrase by phrase. *)
Definition urgency_vocabulary : list (list str) :=
  [[u "urgent"]; [u "asap"]; [u "immediately"]; [u "critical"]; [u "blocker"];
   [u "p0"]; [u "p1"]; [u "top"; u "priority"]].

Definition importance_vocabulary : list (list str) :=
  [[u "important"]; [u "high"; u "priority"]; [u "soon"]; [u "today"];
   [u "eod"]; [u "cob"]; [u "end"; u "of"; u "day"]].

(** [t] is the words [ws] with white space between them. *)
Fixpoint spelled (ws : list str) (t : str) : Prop :=
  match ws with
  | [] => False
  | [w] => t = w
  | w :: ws' =>
      ∃ gap rest, t = w ++ gap ++ rest ∧ gap ≠ []
                  ∧ Forall (fun c => is_space c = true) gap ∧ spelled ws' rest
  end.

(** [s] holds the phrase [ws] as words of their own. *)
Definition contains_words (ws : list str) (s : str) : Prop :=
  ∃ pre t post, s = pre ++ t ++ post ∧ spelled ws t
                ∧ ends_nonword pre ∧ starts_nonword post.

(** [s] holds a phrase of the vocabulary [V]. *)
Definition contains_vocabulary (V : list (list str)) (s : str) : Prop :=
  ∃ ws, ws ∈ V ∧ contains_words ws s.

(** Every phrase has a word, and every word is a non-empty run of word
    characters. *)
Definition vocabulary_ok (V : list (list str)) : bool :=
  forallb (fun ws => negb (bool_decide (ws = []))
                     && forallb (fun w => negb (bool_decide (w = [])) && forallb is_word w) ws) V.

(** ** Items and their origin *)

(** Where an item of the result comes from: a candidate line, its context,
    and the values computed from them. *)
Definition item_of (USER_NAME : str) (today : date) (lines : list str) (it : Item) : Prop :=
  ∃ i line,
    lines !! i = Some line
    ∧ hard_skip line = false
    ∧ no_signal USER_NAME line (context lines i line) = false
    ∧ text it = Some (_clean line)
    ∧ 8 ≤ length (_clean line) ≤ 300
    ∧ _extract_due today (context lines i line) = Ok (due_date it)
    ∧ priority it = Some (_priority (context lines i line)).

(** The items a call returns, when it returns. *)
Definition extracted (USER_NAME : str) (today : date) (content : str) (w : World) : res (list Item) :=
  (extract_action_items USER_NAME today (u "email") content w).1.

(** An item without due date. *)
Definition plain_item (t : string) (p : string) : Item :=
  {| text := Some (u t); due_date := None; priority := Some (u p) |}.

(** A reply with its attribution line and one quoted line. *)
Definition reply_body : str :=
  u "New paragraph." ++ [LF; LF]
  ++ u "On Tue, Jan 2 at 3:00 PM A <a@x.com> wrote:" ++ [LF]
  ++ u "> old content".

(** ** The task store *)

(** The tasks of both columns, in the order [all_texts] reads them. *)
Definition tasks_of (tasks : gmap str (list Task)) : list Task :=
  default [] (tasks !! u "today") ++ default [] (tasks !! u "longterm").

(** How many stored tasks carry the text [txt], letter case aside. *)
Definition count_text (txt : str) (tasks : gmap str (list Task)) : nat :=
  length (filter (fun t => lower (t_text t) = lower txt) (tasks_of tasks)).

(** The world after [log(msg)]. *)
Definition logged (msg : str) (w : World) : World := (log msg w).2.

(** The column the source computes for a candidate. *)
Definition column (env : Env) (item : Item) : str :=
  match due_date item with
  | Some [] | None => u "today"
  | Some d => if str_ltb (isoformat (today env)) d then u "longterm" else u "today"
  end.






(** ** Quoted lines *)

(** The line opens, after white space, with the quote mark [>]. *)
Definition quoted (line : str) : bool :=
  match lstrip line with
  | c :: _ => (c =? 62)%N
  | [] => false
  end.

(** A scan for a quoted line; [fresh] while the line read so far is white
    space. *)
Fixpoint has_quote (fresh : bool) (s : str) : bool :=
  match s with
  | [] => false
  | x :: t =>
      (fresh && (x =? 62)%N)
      || has_quote (if (x =? LF)%N then true else fresh && is_space x) t
  end.

(** ** The environment file *)

(** A line of a [.env] file: a setting with the blanks around its key and
    its value, a comment, or a blank line. *)
Inductive env_line :=
| Setting (pad1 k pad2 pad3 v pad4 : str)
| Comment (pad text : str)
| Blank (pad : str).

(** The line as it stands in the file. *)
Definition render (l : env_line) : str :=
  match l with
  | Setting pad1 k pad2 pad3 v pad4 => pad1 ++ k ++ pad2 ++ u "=" ++ pad3 ++ v ++ pad4
  | Comment pad text => pad ++ u "#" ++ text
  | Blank pad => pad
  end.

(** White space that ends no line. *)
Definition blanks (pad : str) : Prop :=
  Forall (fun c => is_space c = true ∧ is_linebreak c = false) pad.

(** A text that ends no line. *)
Definition one_line (s : str) : Prop := Forall (fun c => is_linebreak c = false) s.

(** The key holds no [=], does not open with [#], and neither key nor
    value has white space at its ends or a line break inside. *)
Definition well_formed (l : env_line) : Prop :=
  match l with
  | Setting pad1 k pad2 pad3 v pad4 =>
      blanks pad1 ∧ blanks pad2 ∧ blanks pad3 ∧ blanks pad4
      ∧ strip k = k ∧ strip v = v ∧ one_line k ∧ one_line v
      ∧ (61%N ∉ k) ∧ head k ≠ Some 35%N
  | Comment pad text => blanks pad ∧ one_line text
  | Blank pad => blanks pad
  end.

(** What the lines set, a later line for a key replacing an earlier one. *)
Definition settings (ls : list env_line) : gmap str str :=
  foldl (fun cfg l => match l with
                      | Setting _ k _ _ v _ => <[k := v]> cfg
                      | _ => cfg
                      end) ∅ ls.

(** The body of the loop of [load_env]. *)
Definition env_step (cfg : gmap str str) (line : str) : gmap str str :=
  let line := strip line in
  if bool_decide (line = []) || startswith line (u "#") || negb (bool_decide (61%N ∈ line))
  then cfg
  else let '(k, _, v) := partition 61 line in <[strip k := strip v]> cfg.

(** ** Subjects and senders *)

(** The two phrases the subject test looks for anywhere, word by word. *)
Definition subject_phrases : list (list str) :=
  [[u "proposed"; u "new"; u "time"]; [u "new"; u "time"; u "proposed"]].

(** The two words the subject test looks for where a word ends. *)
Definition subject_words : list str := [u "reschedule"; u "rescheduled"].

(** [x] occurs in [s]. *)
Definition occurs (x s : str) : Prop := ∃ pre post, s = pre ++ x ++ post.

(** A subject, in lower case, of a calendar or share notification. *)
Definition auto_subject (s : str) : Prop :=
  (∃ p, p ∈ skip_prefixes ∧ p `prefix_of` s)
  ∨ (∃ ws, ws ∈ subject_phrases ∧ ∃ pre t post, s = pre ++ t ++ post ∧ spelled ws t)
  ∨ (∃ w, w ∈ subject_words ∧ ∃ pre post, s = pre ++ w ++ post ∧ starts_nonword post).

(** ** The scanners *)




(** The world after [mark_processed(pid)]. *)
Definition marked (listing : gset str → list str) (pid : str) (w : World) : World :=
  (mark_processed listing pid w).2.


(** The ledger is as it was. *)
Definition ledger_kept (w w' : World) : Prop :=
  PROCESSED_FILE w' = PROCESSED_FILE w ∧ _processed w' = _processed w.

(** [tasks.json] is as it was. *)
Definition tasks_kept (w w' : World) : Prop :=
  DATA_FILE w' = DATA_FILE w ∧ DATA_WRITES w' = DATA_WRITES w.



(** ** The ledger *)


(** A message id of the e-mail scanner. *)
Definition message_id (i : nat) : str := u "email_" ++ digits 5 (Z.of_nat i).


(** The server before anything is marked. *)
Definition fresh_world : World :=
  {| DATA_FILE := None; DATA_WRITES := 0; LOG_FILE := [];
     PROCESSED_FILE := None; _processed := ∅ |}.

(** ** Sample inputs *)

(** Monday 2 June 2025 and the days around it. *)
Definition monday : date := {| year := 2025; month := 6; day := 2 |}.


Definition first_of_june : date := {| year := 2025; month := 6; day := 1 |}.

(** The clock and the random id of one call. *)
Definition sample_env : Env :=
  {| today := monday; now_ms := 1748858400000; uid := u "k3x9q2mz1972f0a1b2c" |}.

(** A candidate with a text and a due date. *)
Definition candidate (t : string) (due : option str) : Item :=
  {| text := Some (u t); due_date := due; priority := None |}.

(** A task as the user interface stores it. *)
Definition stored_task (id t : string) : Task :=
  {| t_id := u id; t_text := u t; t_priority := u "medium"; t_due := None;
     t_done := false; t_created := 0; t_auto := false; t_source := u "email";
     t_sourceDetail := [] |}.

(** A store that already holds the same text twice. *)
Definition doubled_world : World :=
  {| DATA_FILE := Some (<[u "today" := [stored_task "a" "Reply to Mike about X";
                                        stored_task "b" "reply to mike about x"]]>
                          (<[u "longterm" := []]> ∅));
     DATA_WRITES := 0; LOG_FILE := []; PROCESSED_FILE := None; _processed := ∅ |}.

(** A store file that holds the empty object. *)
Definition bare_world : World :=
  {| DATA_FILE := Some ∅; DATA_WRITES := 0; LOG_FILE := [];
     PROCESSED_FILE := None; _processed := ∅ |}.

(** Two calls in a row with the same candidate. *)
Definition add_twice (it : Item) (w : World) : World :=
  (add_auto_task sample_env it (u "email") (u "Mike")
     (add_auto_task sample_env it (u "email") (u "Mike") w).2).2.




(** ** The calendar *)

Local Open Scope Z_scope.

(** One day of the 400-year cycle: the date of ordinal [r + 1] is a valid
    date of the years 1 to 400 and has that ordinal. *)
Definition cycle_day_ok (r : Z) : bool :=
  let '(y, m, d) := _ord2ymd (r + 1) in
  (1 <=? y) && (y <=? 400) && (1 <=? m) && (m <=? 12)
  && (1 <=? d) && (d <=? _days_in_month y m)
  && (_ymd2ord y m d =? r + 1)
  && ((145731 <=? r) || (y <=? 399)).

(** The [k] days from [r] on. *)
Fixpoint cycle_ok (k : nat) (r : Z) : bool :=
  match k with
  | O => true
  | S k' => cycle_day_ok r && cycle_ok k' (r + 1)
  end.

(** The number of a day within its year, by leap flag. *)
Definition year_day (leap : bool) (m d : Z) : Z :=
  tab _DAYS_BEFORE_MONTH m + (if (2 <? m) && leap then 1 else 0) + d.

(** [_days_in_month] by leap flag. *)
Definition month_len (leap : bool) (m : Z) : Z :=
  if (m =? 2) && leap then 29 else tab _DAYS_IN_MONTH m.

(** The bounds and the order of the twelve months of a year. *)
Definition months_ok (leap : bool) : bool :=
  forallb (fun m =>
    (1 <=? year_day leap m 1)
    && (year_day leap m (month_len leap m) <=? 365 + (if leap then 1 else 0))
    && forallb (fun m' => (m' <=? m) || (year_day leap m (month_len leap m) <? year_day leap m' 1))
               [1;2;3;4;5;6;7;8;9;10;11;12])
    [1;2;3;4;5;6;7;8;9;10;11;12].

(** The phrase ["by/on/due [next] <weekday>"] in lower case. *)
Definition weekday_phrase (kw : str) (next : bool) (name : str) : str :=
  kw ++ u " " ++ (if next then u "next " else []) ++ name.

(** The words that open a weekday phrase. *)
Definition weekday_keywords : list str := [u "by"; u "on"; u "due"].

(** What [_parse_date] computes from the text of a weekday phrase before
    it consults the clock. *)
Definition phrase_check (kw : str) (next : bool) (e : str * Z) : bool :=
  let t := weekday_phrase kw next e.1 in
  negb (found (re_search eod_re t))
  && negb (found (re_search end_of_week_re t))
  && negb (found (re_search end_of_month_re t))
  && bool_decide ((fun m => lower (default [] (group m 1))) <$> re_search weekday_re t = Some e.1)
  && bool_decide (dict_get _WEEKDAYS e.1 = Ok e.2)
  && (0 <=? e.2) && (e.2 <=? 6).

(** The last day of the month of [d]. *)
Definition last_of_month (d : date) : date :=
  {| year := year d; month := month d; day := _days_in_month (year d) (month d) |}.

(** A day of the month as it is usually written: without leading zero. *)
Definition day_number (dd : Z) : str := if dd <? 10 then digits 1 dd else digits 2 dd.

(** The phrase ["by/due/before <month> <day>"] in lower case. *)
Definition month_phrase (kw name : str) (dd : Z) : str :=
  kw ++ u " " ++ name ++ u " " ++ day_number dd.

(** The words that open a due phrase with a month name. *)
Definition due_keywords : list str := [u "by"; u "due"; u "before"].

(** What [_parse_date] reads from the text of a month phrase before it
    consults the clock. *)
Definition month_phrase_check (kw : str) (e : str * Z) (dd : Z) : bool :=
  let t := month_phrase kw e.1 dd in
  negb (found (re_search eod_re t))
  && negb (found (re_search end_of_week_re t))
  && negb (found (re_search end_of_month_re t))
  && negb (found (re_search weekday_re t))
  && bool_decide ((fun m => default [] (group m 1)) <$> re_search month_day_re t = Some e.1)
  && bool_decide ((fun m => int_of (default [] (group m 2))) <$> re_search month_day_re t
                  = Some dd)
  && bool_decide ((fun m => truthy (group m 3)) <$> re_search month_day_re t = Some None)
  && bool_decide (dict_get _MONTHS e.1 = Ok e.2)
  && negb (found (re_search iso_re t))
  && negb (found (re_search slash_re t)).

(** ** Ids, clocks and reminders *)

(** A lower-case letter or a digit of ASCII. *)
Definition id_char (c : N) : bool := in_range 97 122 c || in_range 48 57 c.

(** [int(s, 16)] on a run of hexadecimal digits. *)
Definition int16 (s : str) : Z :=
  foldl (fun acc c => 16 * acc + Z.of_N (default 0%N (hex_val c))) 0 s.

(** A clock reading with its fields in range. *)
Definition valid_datetime (t : datetime) : Prop :=
  valid_date (dt_date t) = true
  ∧ 0 <= dt_hour t <= 23 ∧ 0 <= dt_minute t <= 59 ∧ 0 <= dt_second t <= 59
  ∧ 0 <= dt_microsecond t <= 999999.

(** The time of day in microseconds. *)
Definition day_us (t : datetime) : Z :=
  ((dt_hour t * 60 + dt_minute t) * 60 + dt_second t) * 1000000 + dt_microsecond t.

(** The microseconds of a day, and the time of day [hour:minute]. *)
Definition DAY_US : Z := 86400000000.

Definition clock_us (hour minute : Z) : Z := (hour * 60 + minute) * 60 * 1000000.





Local Close Scope Z_scope.

(** ** Evaluation in proofs *)

(** Replace a closed term of the goal by its value. *)
Ltac eval_term t :=
  let v := eval vm_compute in t in
  replace t with v by (vm_compute; reflexivity).

(** The searches of the goal, evaluated. *)
Ltac eval_searches :=
  repeat match goal with
  | |- context [found (re_search ?r ?s)] => eval_term (found (re_search r s))
  | |- context [re_search ?r ?s] => eval_term (re_search r s)
  end.

(** The groups a match object is asked for, evaluated. *)
Ltac eval_groups :=
  repeat match goal with
  | |- context [int_of (default [] (group ?m ?k))] => eval_term (int_of (default [] (group m k)))
  | |- context [truthy (group ?m ?k)] => eval_term (truthy (group m k))
  | |- context [default [] (group ?m ?k)] => eval_term (default [] (group m k))
  end.

(** * Proofs *)

(** ** The model on small cases *)

(** Every pattern of the source is within the supported syntax. *)
Lemma patterns_supported :
  forallb (fun r => negb (unsupported r))
    (Patterns.all ++ [attribution_re; quote_re; separator_re] ++ _CAL_PATTERNS) = true.
Proof. vm_compute. reflexivity. Qed.

(** The matcher on small cases, with the values CPython's [re] gives:
    greedy repetition with backtracking, the order of alternatives, word
    boundaries, the end anchors, the flags, counted repetition, a group
    inside a repetition. *)
Example re_greedy :
  span (re_search (compile no_flags (u "a.*b")) (u "xaabab")) = Some (1, 6, None, None).
Proof. vm_compute. reflexivity. Qed.

Example re_alternatives :
  span (re_search (compile no_flags (u "(a|ab)(c|bcd)")) (u "abcd"))
  = Some (0, 4, Some (u "a"), Some (u "bcd")).
Proof. vm_compute. reflexivity. Qed.

Example re_word_boundary :
  span (re_search (compile no_flags (u "\bin\b")) (u "Justin in")) = Some (7, 9, None, None).
Proof. vm_compute. reflexivity. Qed.

Example re_dollar_before_last_newline :
  span (re_search (compile no_flags (u "a$")) (u "a" ++ [LF])) = Some (0, 1, None, None).
Proof. vm_compute. reflexivity. Qed.

Example re_multiline :
  span (re_search (compile flag_IM (u "^b")) (u "a" ++ [LF] ++ u "b")) = Some (2, 3, None, None)
  ∧ re_search (compile no_flags (u "^b")) (u "a" ++ [LF] ++ u "b") = None.
Proof. split; vm_compute; reflexivity. Qed.

Example re_ignorecase_class :
  span (re_match (compile flag_I (u "[a-c]+")) (u "AbC")) = Some (0, 3, None, None).
Proof. vm_compute. reflexivity. Qed.

Example re_counted :
  span (re_match (compile no_flags (u "\d{2,4}")) (u "12345")) = Some (0, 4, None, None).
Proof. vm_compute. reflexivity. Qed.

Example re_group_in_repetition :
  span (re_match (compile no_flags (u "(?:(a)|b)+")) (u "ab")) = Some (0, 2, Some (u "a"), None).
Proof. vm_compute. reflexivity. Qed.

Example re_split_sub_findall :
  re_split (compile no_flags (u "[,;]+")) (u "a,b;;c,") = [u "a"; u "b"; u "c"; []]
  ∧ re_split line_split_re (u "Hi. There!  ok") = [u "Hi."; u "There!"; u "ok"]
  ∧ re_sub spaces_re (u " ") (u "a  b   c") = u "a b c"
  ∧ findall (compile no_flags (u "\w+@\w+")) (u "x a@b c@d") = [u "a@b"; u "c@d"].
Proof. repeat (split; [vm_compute; reflexivity|]); vm_compute; reflexivity. Qed.

Example re_escape_name : escape (u "Justin Miller-O.K") = u "Justin\ Miller\-O\.K".
Proof. vm_compute. reflexivity. Qed.

(** Strings and dates on small cases, with CPython's values. *)
Example str_methods :
  strip (u "  a b ") = u "a b"
  ∧ split (u "A b  c") = [u "A"; u "b"; u "c"]
  ∧ split_on LF (u "a" ++ [LF; LF] ++ u "b") = [u "a"; []; u "b"]
  ∧ lower (u "AbC1") = u "abc1"
  ∧ str_ltb (u "2025-06-02") (u "2025-06-10") = true.
Proof. repeat (split; [vm_compute; reflexivity|]); vm_compute; reflexivity. Qed.

Example date_methods :
  toordinal {| year := 2024; month := 2; day := 29 |} = 738945%Z
  ∧ fromordinal 738945 = {| year := 2024; month := 2; day := 29 |}
  ∧ toordinal {| year := 9999; month := 12; day := 31 |} = _MAXORDINAL
  ∧ weekday {| year := 2025; month := 6; day := 2 |} = 0%Z
  ∧ add_days {| year := 2024; month := 12; day := 31 |} 1
    = Some {| year := 2025; month := 1; day := 1 |}
  ∧ add_days {| year := 9999; month := 12; day := 31 |} 1 = None
  ∧ mk_date 2025 2 29 = None
  ∧ isoformat {| year := 33; month := 1; day := 2 |} = u "0033-01-02".
Proof. repeat (split; [vm_compute; reflexivity|]); vm_compute; reflexivity. Qed.

(** ** The matcher agrees with the declarative relation *)

Lemma flat_map_ext_elem {A B} (f g : A → list B) (l : list A) :
  (∀ x, x ∈ l → f x = g x) → flat_map f l = flat_map g l.
Proof.
  induction l as [|x l IH]; intros H; simpl; [done|].
  rewrite H by left. rewrite IH; [done|]. intros y Hy. apply H. by right.
Qed.

Section EngineFacts.
Variable s : str.

Lemma matches_bounds r i j : matches s r i j → i ≤ length s → i ≤ j ≤ length s.
Proof.
  induction 1; intros Hi; try lia.
  apply lookup_lt_Some in H. lia.
Qed.

Lemma matches_le r i j : matches s r i j → i ≤ j.
Proof. induction 1; lia. Qed.

Lemma star_loop_sound a fuel :
  (∀ st e, e ∈ ends s a st → matches s a st.1 e.1) →
  ∀ st e, e ∈ star_loop (ends s a) fuel st → matches s (Star a) st.1 e.1.
Proof.
  intros IH. induction fuel as [|fuel IHf]; intros st e He; simpl in He.
  - apply list_elem_of_singleton in He as ->. constructor.
  - apply elem_of_app in He as [He|He].
    + apply list_elem_of_In, in_flat_map in He as (st' & Hst' & He).
      apply list_elem_of_In in Hst', He.
      destruct (Nat.ltb_spec st.1 st'.1); [|inversion He].
      eapply M_star_S; eauto.
    + apply list_elem_of_singleton in He as ->. constructor.
Qed.

Lemma ends_sound r : ∀ st e, e ∈ ends s r st → matches s r st.1 e.1.
Proof.
  induction r; intros st e He; cbn [ends] in He.
  - apply list_elem_of_singleton in He as ->. constructor.
  - inversion He.
  - destruct (s !! st.1) as [c|] eqn:E; [|inversion He].
    destruct (cs_match cs c) eqn:E'; [|inversion He].
    apply list_elem_of_singleton in He as ->. econstructor; eauto.
  - apply list_elem_of_In, in_flat_map in He as (st' & Hst' & He).
    apply list_elem_of_In in Hst', He. econstructor; eauto.
  - apply elem_of_app in He as [He|He]; [apply M_alt_l | apply M_alt_r]; eauto.
  - cbn [ends] in He. eapply (star_loop_sound r (S (length s - st.1))); eauto.
  - apply list_elem_of_fmap in He as (e' & -> & He). constructor. simpl. eauto.
  - destruct (bol s multiline st.1) eqn:E; [|inversion He].
    apply list_elem_of_singleton in He as ->. by constructor.
  - destruct (eol s multiline st.1) eqn:E; [|inversion He].
    apply list_elem_of_singleton in He as ->. by constructor.
  - destruct (word_boundary s st.1) eqn:E; [|inversion He].
    apply list_elem_of_singleton in He as ->. by constructor.
  - destruct (behind s cs st.1) eqn:E; [|inversion He].
    apply list_elem_of_singleton in He as ->. by constructor.
Qed.

Lemma star_loop_fuel a : ∀ f1 f2 st,
  st.1 ≤ length s → S (length s - st.1) ≤ f1 → S (length s - st.1) ≤ f2 →
  star_loop (ends s a) f1 st = star_loop (ends s a) f2 st.
Proof.
  induction f1 as [|f1 IH]; intros f2 st Hst H1 H2; [lia|].
  destruct f2 as [|f2]; [lia|]. simpl. f_equal.
  apply flat_map_ext_elem. intros st' Hst'.
  destruct (Nat.ltb_spec st.1 st'.1); [|done].
  apply ends_sound, matches_bounds in Hst'; [|done].
  apply IH; lia.
Qed.

Lemma ends_complete r i j :
  matches s r i j → i ≤ length s → ∀ c, ∃ c', (j, c') ∈ ends s r (i, c).
Proof.
  induction 1 as [i|cs i c Hc Hm|a b i j k Ha IHa Hb IHb|a b i j Ha IHa|a b i j Hb IHb
                 |a i|a i j k Ha IHa Hlt Hs IHs|g a i j Ha IHa|ml i Hb|ml i Hb|i Hb|cs i Hb];
    intros Hi c0; cbn [ends]; simpl.
  - eexists. by apply list_elem_of_singleton.
  - rewrite Hc, Hm. eexists. by apply list_elem_of_singleton.
  - destruct (IHa Hi c0) as (c1 & H1).
    pose proof (matches_bounds _ _ _ Ha Hi).
    destruct (IHb ltac:(lia) c1) as (c2 & H2).
    exists c2. apply list_elem_of_In, in_flat_map. exists (j, c1).
    split; by apply list_elem_of_In.
  - destruct (IHa Hi c0) as (c1 & H1). exists c1. apply elem_of_app. by left.
  - destruct (IHb Hi c0) as (c1 & H1). exists c1. apply elem_of_app. by right.
  - eexists. apply elem_of_app. right. by apply list_elem_of_singleton.
  - destruct (IHa Hi c0) as (c1 & H2).
    pose proof (matches_bounds _ _ _ Ha Hi).
    destruct (IHs ltac:(lia) c1) as (c2 & H3). cbn [ends] in H3. simpl in H3.
    exists c2. apply elem_of_app. left.
    apply list_elem_of_In, in_flat_map. exists (j, c1).
    split; [by apply list_elem_of_In|]. simpl.
    destruct (Nat.ltb_spec i j); [|lia].
    apply list_elem_of_In.
    rewrite (star_loop_fuel a (length s - i) (S (length s - j))); simpl; [done|lia..].
  - destruct (IHa Hi c0) as (c1 & H1). eexists.
    apply list_elem_of_fmap. exists (j, c1). split; [reflexivity|done].
  - rewrite Hb. eexists. by apply list_elem_of_singleton.
  - rewrite Hb. eexists. by apply list_elem_of_singleton.
  - rewrite Hb. eexists. by apply list_elem_of_singleton.
  - rewrite Hb. eexists. by apply list_elem_of_singleton.
Qed.

(** [re.match] finds a match exactly where the pattern matches from the
    start, [re.search] where it matches from some position. *)
Lemma match_at_spec r i :
  i ≤ length s → found (match_at r s i) = true ↔ ∃ j, matches s r i j.
Proof.
  intros Hi. unfold found, match_at. rewrite bool_decide_eq_true, fmap_is_Some.
  split.
  - intros [e He]. apply head_Some_elem_of in He. exists e.1.
    by apply ends_sound in He.
  - intros [j Hj]. destruct (ends_complete _ _ _ Hj Hi []) as (c' & Hc).
    destruct (ends s r (i, [])); [inversion Hc | by eexists].
Qed.

Lemma re_match_spec r : found (re_match r s) = true ↔ ∃ j, matches s r 0 j.
Proof. apply match_at_spec. lia. Qed.

Lemma search_from_spec r fuel : ∀ i,
  is_Some (search_from r s fuel i)
  ↔ ∃ k, i ≤ k ≤ i + fuel ∧ is_Some (match_at r s k).
Proof.
  induction fuel as [|fuel IH]; intros i; simpl.
  - destruct (match_at r s i) eqn:E.
    + split; [|by eauto]. intros _. exists i. rewrite E. split; [lia|by eauto].
    + split; [by intros []|]. intros (k & Hk & Hs).
      assert (k = i) as -> by lia. by rewrite E in Hs.
  - destruct (match_at r s i) eqn:E.
    + split; [|by eauto]. intros _. exists i. rewrite E. split; [lia|by eauto].
    + rewrite IH. split.
      * intros (k & Hk & Hs). exists k. split; [lia|done].
      * intros (k & Hk & Hs). exists k. split; [|done].
        destruct (decide (k = i)) as [->|]; [|lia]. rewrite E in Hs. by destruct Hs.
Qed.

Lemma re_search_spec r :
  found (re_search r s) = true ↔ ∃ i j, i ≤ length s ∧ matches s r i j.
Proof.
  unfold found at 1, re_search. rewrite bool_decide_eq_true, search_from_spec.
  split.
  - intros (k & Hk & Hs). exists k.
    assert (found (match_at r s k) = true) as Hf by by apply bool_decide_eq_true.
    apply match_at_spec in Hf as [j Hj]; [|lia]. exists j. split; [lia|done].
  - intros (i & j & Hi & Hm). exists i. split; [lia|].
    assert (found (match_at r s i) = true) as Hf by (apply match_at_spec; eauto).
    by apply bool_decide_eq_true in Hf.
Qed.

End EngineFacts.

(** ** Matches seen through a window of the subject *)

Section Inversion.
Variable s : str.

Lemma matches_eps_iff i j : matches s Eps i j ↔ j = i.
Proof. split; [by inversion 1|intros ->; constructor]. Qed.

Lemma matches_fail_iff i j : matches s Fail i j ↔ False.
Proof. split; [by inversion 1|done]. Qed.

Lemma matches_chr_iff cs i j :
  matches s (Chr cs) i j ↔ j = S i ∧ ∃ c, s !! i = Some c ∧ cs_match cs c = true.
Proof.
  split; [inversion 1; subst; eauto|].
  intros (-> & c & ? & ?). econstructor; eauto.
Qed.

Lemma matches_seq_iff a b i k :
  matches s (Seq a b) i k ↔ ∃ j, matches s a i j ∧ matches s b j k.
Proof.
  split; [inversion 1; subst; eauto|].
  intros (j & ? & ?). econstructor; eauto.
Qed.

Lemma matches_alt_iff a b i j :
  matches s (Alt a b) i j ↔ matches s a i j ∨ matches s b i j.
Proof.
  split; [inversion 1; subst; eauto|].
  intros [?|?]; [by apply M_alt_l|by apply M_alt_r].
Qed.

Lemma matches_grp_iff g a i j : matches s (Grp g a) i j ↔ matches s a i j.
Proof. split; [by inversion 1|by constructor]. Qed.

Lemma matches_wordb_iff i j : matches s WordB i j ↔ j = i ∧ word_boundary s i = true.
Proof. split; [by inversion 1|intros [-> ?]; by constructor]. Qed.

Lemma matches_star_iff a i k :
  matches s (Star a) i k
  ↔ k = i ∨ ∃ j, matches s a i j ∧ i < j ∧ matches s (Star a) j k.
Proof.
  split; [inversion 1; subst; eauto|].
  intros [->|(j & ? & ? & ?)]; [constructor|econstructor; eauto].
Qed.

End Inversion.

Section Window.
Variables pre t post : str.
Variable wb : bool.
Hypothesis Hctx : wb = true → ends_nonword pre ∧ starts_nonword post.

Lemma lookup_window i : i < length t → (pre ++ t ++ post) !! (length pre + i) = t !! i.
Proof.
  intros Hi. rewrite lookup_app_r by lia.
  replace (length pre + i - length pre) with i by lia.
  by rewrite lookup_app_l.
Qed.

Lemma word_at_window i :
  wb = true → i ≤ length t →
  word_at (pre ++ t ++ post) (length pre + i) = word_at t i.
Proof.
  intros [Hpre Hpost]%Hctx Hi. unfold word_at.
  destruct (decide (i < length t)) as [Hlt|Hge].
  - by rewrite lookup_window.
  - assert (i = length t) as -> by lia.
    rewrite (lookup_ge_None_2 t) by lia.
    rewrite lookup_app_r by lia. rewrite lookup_app_r by lia.
    replace (length pre + length t - length pre - length t) with 0 by lia.
    unfold starts_nonword in Hpost. rewrite <- head_lookup.
    destruct (head post); [done|done].
Qed.

Lemma word_boundary_window i :
  wb = true → i ≤ length t →
  word_boundary (pre ++ t ++ post) (length pre + i) = word_boundary t i.
Proof.
  intros Hwb Hi. unfold word_boundary. rewrite word_at_window by done. f_equal.
  destruct i as [|i].
  - rewrite Nat.add_0_r. destruct (length pre) as [|n] eqn:E; [done|].
    unfold word_at. rewrite lookup_app_l by lia.
    destruct (Hctx Hwb) as [Hpre _].
    unfold ends_nonword in Hpre. rewrite last_lookup, E in Hpre. simpl in Hpre.
    destruct (pre !! n); done.
  - replace (length pre + S i) with (S (length pre + i)) by lia.
    apply word_at_window; [done|lia].
Qed.

Lemma matches_embed r i j :
  windowed wb r = true → matches t r i j → i ≤ length t →
  matches (pre ++ t ++ post) r (length pre + i) (length pre + j).
Proof.
  intros Hw Hm. revert Hw.
  induction Hm as [i|cs i c Hc Hm|a b i j k Ha IHa Hb IHb|a b i j Ha IHa|a b i j Hb IHb
                 |a i|a i j k Ha IHa Hlt Hs IHs|g a i j Ha IHa|ml i Hb|ml i Hb|i Hb|cs i Hb];
    cbn [windowed]; intros Hw Hi; try done.
  - constructor.
  - replace (length pre + S i) with (S (length pre + i)) by lia.
    econstructor; [|done]. rewrite lookup_window; [done|]. by apply lookup_lt_Some in Hc.
  - apply andb_prop in Hw as [? ?]. pose proof (matches_bounds _ _ _ _ Ha Hi).
    econstructor; [apply IHa | apply IHb]; auto; lia.
  - apply andb_prop in Hw as [? ?]. apply M_alt_l. auto.
  - apply andb_prop in Hw as [? ?]. apply M_alt_r. auto.
  - constructor.
  - pose proof (matches_bounds _ _ _ _ Ha Hi).
    eapply M_star_S; [apply IHa; auto | lia | apply IHs; auto; lia].
  - constructor. auto.
  - constructor. by rewrite word_boundary_window.
Qed.

Lemma matches_extract r i' j' :
  windowed wb r = true → matches (pre ++ t ++ post) r i' j' →
  ∀ i j, i' = length pre + i → j' = length pre + j → j ≤ length t →
  matches t r i j.
Proof.
  intros Hw Hm. revert Hw.
  induction Hm as [i0|cs i0 c Hc Hm|a b i0 j0 k0 Ha IHa Hb IHb|a b i0 j0 Ha IHa|a b i0 j0 Hb IHb
                 |a i0|a i0 j0 k0 Ha IHa Hlt Hs IHs|g a i0 j0 Ha IHa|ml i0 Hb|ml i0 Hb|i0 Hb|cs i0 Hb];
    cbn [windowed]; intros Hw i j Hi Hj Hjt; try done.
  - assert (i = j) as -> by lia. constructor.
  - assert (j = S i) as -> by lia. econstructor; [|done].
    rewrite <- lookup_window by lia. by rewrite <- Hi.
  - apply andb_prop in Hw as [? ?].
    pose proof (matches_le _ _ _ _ Ha) as B1.
    pose proof (matches_le _ _ _ _ Hb) as B2.
    apply (M_seq _ _ _ _ (j0 - length pre)); [apply IHa | apply IHb]; auto; lia.
  - apply andb_prop in Hw as [? ?]. apply M_alt_l. auto.
  - apply andb_prop in Hw as [? ?]. apply M_alt_r. auto.
  - assert (i = j) as -> by lia. constructor.
  - pose proof (matches_le _ _ _ _ Ha) as B1.
    pose proof (matches_le _ _ _ _ Hs) as B2.
    apply (M_star_S _ _ _ (j0 - length pre)); [apply IHa | lia | apply IHs]; auto; lia.
  - constructor. auto.
  - assert (i = j) as -> by lia. constructor. rewrite <- word_boundary_window by done.
    by rewrite <- Hj.
Qed.

End Window.

(** A match inside [s] is a match of the whole of its window, and back. *)
Lemma matches_window s wb r i j :
  windowed wb r = true →
  (wb = true → ends_nonword (take i s) ∧ starts_nonword (drop j s)) →
  i ≤ j ≤ length s →
  matches s r i j ↔ matches (take (j - i) (drop i s)) r 0 (j - i).
Proof.
  intros Hw Hctx Hij.
  assert (s = take i s ++ take (j - i) (drop i s) ++ drop j s) as Hs.
  { rewrite <- (take_drop i s) at 1. f_equal.
    rewrite <- (take_drop (j - i) (drop i s)) at 1. f_equal.
    rewrite drop_drop. f_equal. lia. }
  assert (length (take i s) = i) as Hl by (rewrite length_take; lia).
  assert (length (take (j - i) (drop i s)) = j - i) as Hl'
    by (rewrite length_take, length_drop; lia).
  split; intros Hm.
  - rewrite Hs in Hm. eapply matches_extract in Hm; eauto; lia.
  - eapply (matches_embed (take i s) _ (drop j s)) in Hm; eauto; [|lia].
    rewrite <- Hs, Hl in Hm. replace (i + 0) with i in Hm by lia.
    replace (i + (j - i)) with j in Hm by lia. done.
Qed.

(** ** The calendar body detector *)

Lemma search_window r p body :
  windowed true r = true → found (re_match r p) = true → holds_phrase true p body →
  found (re_search r body) = true.
Proof.
  intros Hw Hm (pre & post & -> & Hpre & Hpost).
  apply re_match_spec in Hm as [j Hj].
  apply re_search_spec. exists (length pre + 0), (length pre + j).
  split; [rewrite !length_app; lia|].
  eapply matches_embed; eauto. lia.
Qed.

(** A pattern that asks for a word boundary at its start only. *)
Lemma search_open r p body :
  windowed false r = true → found (re_match r p) = true →
  word_at p 0 = true →
  holds_phrase false p body →
  found (re_search (Seq WordB r) body) = true.
Proof.
  intros Hw Hm Hword (pre & post & -> & Hpre & _).
  apply re_match_spec in Hm as [j Hj].
  apply re_search_spec. exists (length pre), (length pre + j).
  pose proof (matches_bounds _ _ _ _ Hj ltac:(lia)) as Hb.
  split; [rewrite !length_app; lia|].
  apply (M_seq _ _ _ _ (length pre)).
  - constructor. unfold word_boundary, word_at.
    unfold word_at in Hword. destruct p as [|c p']; [done|].
    cbn [lookup list_lookup] in Hword.
    rewrite (lookup_app_r pre) by lia. rewrite Nat.sub_diag. cbn [lookup list_lookup app].
    rewrite Hword.
    destruct (length pre) as [|n] eqn:E; [done|].
    rewrite lookup_app_l by lia.
    unfold ends_nonword in Hpre. rewrite last_lookup, E in Hpre. cbn [pred] in Hpre.
    by destruct (pre !! n) as [x|]; [rewrite Hpre|].
  - pose proof (matches_embed pre p post false ltac:(done) r 0 j Hw Hj ltac:(lia)) as H.
    by rewrite Nat.add_0_r in H.
Qed.

Lemma signal_phrase_found p k closed body :
  (p, k, closed) ∈ signal_phrases → holds_phrase closed p body →
  ∃ r, _CAL_PATTERNS !! k = Some r ∧ found (re_search r body) = true.
Proof.
  intros Hin Hc. unfold signal_phrases in Hin.
  repeat (apply elem_of_cons in Hin as [Hin|Hin]);
    [injection Hin as -> -> -> ..|inversion Hin].
  - eexists. split; [reflexivity|].
    eapply search_open; [| | |exact Hc]; vm_compute; reflexivity.
  - eexists. split; [reflexivity|].
    eapply search_open; [| | |exact Hc]; vm_compute; reflexivity.
  - eexists. split; [reflexivity|].
    eapply search_window; [| |exact Hc]; vm_compute; reflexivity.
  - eexists. split; [reflexivity|].
    eapply search_window; [| |exact Hc]; vm_compute; reflexivity.
Qed.

Lemma filter_length_two {A} (P : A → Prop) `{∀ x, Decision (P x)} (l : list A) i j x y :
  i ≠ j → l !! i = Some x → l !! j = Some y → P x → P y → 2 ≤ length (filter P l).
Proof.
  revert i j. induction l as [|a l IH]; intros i j Hne Hi Hj Px Py; [done|].
  rewrite filter_cons.
  assert (∀ k z, l !! k = Some z → P z → 1 ≤ length (filter P l)) as Hone.
  { intros k z Hk Pz. assert (z ∈ filter P l) as Hz.
    { apply list_elem_of_filter. split; [done|]. by eapply list_elem_of_lookup_2. }
    destruct (filter P l); [inversion Hz|simpl; lia]. }
  destruct i as [|i], j as [|j]; simpl in *; simplify_eq.
  - rewrite decide_True by done. simpl. specialize (Hone _ _ Hj Py). lia.
  - rewrite decide_True by done. simpl. specialize (Hone _ _ Hi Px). lia.
  - assert (2 ≤ length (filter P l)) by (eapply (IH i j); eauto).
    destruct (decide (P a)); simpl; lia.
Qed.

(** A phrase glued to a word character is not a signal: the patterns ask
    for a word boundary. *)
Lemma glued_phrases_raise_no_signal : hits (u "xOrganizer: yJoin Zoomz") = 0.
Proof. vm_compute. reflexivity. Qed.

(** The phrases count only where they stand apart: a body that contains
    "Going? Yes" and "Organizer:", the first running on into a longer
    word, raises one signal and is not calendar noise; nor is a body that
    contains "Organizer:" right after a letter, and "Join Zoom". *)
Lemma calendar_not_by_containment :
  let body := u "Are you Going? Yesterday. Organizer: Bob" in
  let glued := u "xOrganizer: we Join Zoom" in
  (∃ pre post, body = pre ++ u "Going? Yes" ++ post)
  ∧ (∃ pre post, body = pre ++ u "Organizer:" ++ post)
  ∧ hits body = 1 ∧ _is_calendar_body body = false
  ∧ (∃ pre post, glued = pre ++ u "Organizer:" ++ post)
  ∧ (∃ pre post, glued = pre ++ u "Join Zoom" ++ post)
  ∧ hits glued = 1 ∧ _is_calendar_body glued = false.
Proof.
  intros body glued.
  split; [by exists (u "Are you "), (u "terday. Organizer: Bob")|].
  split; [by exists (u "Are you Going? Yesterday. "), (u " Bob")|].
  split; [vm_compute; reflexivity|]. split; [vm_compute; reflexivity|].
  split; [by exists (u "x"), (u " we Join Zoom")|].
  split; [by exists (u "xOrganizer: we "), []|].
  split; vm_compute; reflexivity.
Qed.

(** C9, amended. [_is_calendar_body] answers [True] exactly when at least
    two of the calendar patterns are found in the body.  A body that holds
    two different phrases among "Organizer:", "When: Tuesday", "Join Zoom"
    and "Going? Yes", none of them right after a word character and the
    last two not right before one, is calendar noise; a body in which
    exactly one pattern is found is not, and each of the four phrases taken
    alone raises exactly one signal. *)
Theorem calendar_body_signals :
  (∀ body, _is_calendar_body body = true ↔ 2 ≤ hits body)
  ∧ (∀ body p q k l cp cq,
       (p, k, cp) ∈ signal_phrases → (q, l, cq) ∈ signal_phrases → p ≠ q →
       holds_phrase cp p body → holds_phrase cq q body →
       _is_calendar_body body = true)
  ∧ (∀ body, hits body = 1 → _is_calendar_body body = false)
  ∧ Forall (fun pk => hits pk.1.1 = 1 ∧ _is_calendar_body pk.1.1 = false) signal_phrases.
Proof.
  split; [|split; [|split]]; cycle -1.
  { unfold signal_phrases. repeat constructor; vm_compute; reflexivity. }
  - intros body. unfold _is_calendar_body. apply Nat.leb_le.
  - intros body p q k l cp cq Hp Hq Hne Cp Cq.
    destruct (signal_phrase_found _ _ _ _ Hp Cp) as (r1 & L1 & F1).
    destruct (signal_phrase_found _ _ _ _ Hq Cq) as (r2 & L2 & F2).
    unfold _is_calendar_body. apply Nat.leb_le. unfold hits.
    eapply (filter_length_two _ _ k l); eauto.
    intros ->. apply Hne. clear - Hp Hq.
    unfold signal_phrases in *.
    repeat (apply elem_of_cons in Hp as [Hp|Hp]); try (by inversion Hp);
    repeat (apply elem_of_cons in Hq as [Hq|Hq]); try (by inversion Hq);
    simplify_eq; done.
  - intros body H. unfold _is_calendar_body. rewrite H. reflexivity.
Qed.

(** The calendar check on a body with two of the phrases, the first of
    them right before a letter. *)
Lemma calendar_body_signals_witness :
  let body := u "Organizer:Bob. Join Zoom now" in
  holds_phrase false (u "Organizer:") body ∧ holds_phrase true (u "Join Zoom") body
  ∧ _is_calendar_body body = true.
Proof.
  intros body.
  assert (holds_phrase false (u "Organizer:") body) as H1.
  { exists [], (u "Bob. Join Zoom now"). split; [reflexivity|]. split; [exact I|done]. }
  assert (holds_phrase true (u "Join Zoom") body) as H2.
  { exists (u "Organizer:Bob. "), (u " now"). split; [reflexivity|].
    split; [|intros _]; vm_compute; reflexivity. }
  split; [exact H1|]. split; [exact H2|].
  apply (proj1 (proj2 calendar_body_signals) body (u "Organizer:") (u "Join Zoom") 0 3
           false true).
  - apply list_elem_of_here.
  - apply list_elem_of_further, list_elem_of_further, list_elem_of_here.
  - vm_compute. discriminate.
  - exact H1.
  - exact H2.
Defined.

(** ** Vocabularies *)

Lemma urgent_re_vocab : Patterns.urgent_re = vocab_re urgency_vocabulary.
Proof. vm_compute. reflexivity. Qed.
Lemma important_re_vocab : Patterns.important_re = vocab_re importance_vocabulary.
Proof. vm_compute. reflexivity. Qed.

Lemma chain_cons s a xs i k :
  matches s (chain (a :: xs)) i k ↔ ∃ j, matches s a i j ∧ matches s (chain xs) j k.
Proof.
  destruct xs as [|b xs].
  - simpl. split.
    + intros H. exists k. split; [done|constructor].
    + intros (j & H & ->%matches_eps_iff). done.
  - change (chain (a :: b :: xs)) with (Seq a (chain (b :: xs))).
    apply matches_seq_iff.
Qed.

Lemma chain_app s xs ys : ∀ i k,
  matches s (chain (xs ++ ys)) i k
  ↔ ∃ j, matches s (chain xs) i j ∧ matches s (chain ys) j k.
Proof.
  induction xs as [|a xs IH]; intros i k.
  - simpl. split.
    + intros H. exists i. split; [constructor|done].
    + intros (j & ->%matches_eps_iff & H). done.
  - rewrite <- app_comm_cons, chain_cons. setoid_rewrite chain_cons. setoid_rewrite IH.
    split.
    + intros (j & Ha & j' & Hx & Hy). eauto.
    + intros (j' & (j & Ha & Hx) & Hy). eauto.
Qed.

Lemma alts_iff s rs i j : matches s (alts rs) i j ↔ ∃ r, r ∈ rs ∧ matches s r i j.
Proof.
  induction rs as [|r rs IH].
  - simpl. rewrite matches_fail_iff. split; [done|]. intros (r & Hr & _). inversion Hr.
  - destruct rs as [|r' rs].
    + simpl. split.
      * intros H. exists r. split; [left|done].
      * intros (r0 & ->%list_elem_of_singleton & H). done.
    + change (alts (r :: r' :: rs)) with (Alt r (alts (r' :: rs))).
      rewrite matches_alt_iff, IH. split.
      * intros [H|(r0 & Hr0 & H)]; [exists r; split; [left|done]|exists r0; split; [by right|done]].
      * intros (r0 & [->|Hr0]%elem_of_cons & H); [by left|right; eauto].
Qed.

Lemma cs_match_one c x : cs_match (one c) x = true ↔ x = c.
Proof.
  unfold cs_match, one. simpl. rewrite orb_false_r. apply N.eqb_eq.
Qed.

Lemma cs_match_space x : cs_match space_cs x = is_space x.
Proof. unfold cs_match, space_cs. simpl. by rewrite orb_false_r. Qed.

(** A window that starts with one matched character. *)
Lemma matches_chr_whole cs r t :
  windowed false r = true →
  (∃ j, matches t (Chr cs) 0 j ∧ matches t r j (length t))
  ↔ ∃ c t', t = c :: t' ∧ cs_match cs c = true ∧ matches t' r 0 (length t').
Proof.
  intros Hw.
  assert (∀ c t', matches (c :: t') r 1 (length (c :: t')) ↔ matches t' r 0 (length t')) as Hshift.
  { intros c t'. rewrite (matches_window (c :: t') false r 1) by (simpl; done || lia).
    simpl. rewrite Nat.sub_0_r, drop_0, firstn_all. done. }
  split.
  - intros (j & (-> & c & Hc & Hm)%matches_chr_iff & Hr).
    destruct t as [|c' t']; [done|]. simpl in Hc. simplify_eq.
    exists c, t'. split; [done|]. split; [done|]. by apply Hshift in Hr.
  - intros (c & t' & -> & Hc & Hr).
    exists 1. split; [apply matches_chr_iff; eauto|]. by apply Hshift.
Qed.

Lemma chars_whole w : ∀ t, matches t (chain (chars w)) 0 (length t) ↔ t = w.
Proof.
  induction w as [|c w IH]; intros t.
  - simpl. rewrite matches_eps_iff. destruct t; simpl; split; done.
  - change (chars (c :: w)) with (Chr (one c) :: chars w).
    rewrite chain_cons, matches_chr_whole.
    2:{ clear. induction w as [|x [|y w] IH]; try done. }
    split.
    + intros (c' & t' & -> & ->%cs_match_one & ->%IH). done.
    + intros ->. exists c, w. split; [done|]. split; [by apply cs_match_one|by apply IH].
Qed.

Lemma windowed_chain wb xs : Forall (fun r => windowed wb r = true) xs → windowed wb (chain xs) = true.
Proof.
  induction xs as [|a [|b xs] IH]; intros H; [done|by inversion H|].
  change (chain (a :: b :: xs)) with (Seq a (chain (b :: xs))). cbn [windowed].
  inversion H; subst. rewrite IH by done. by rewrite andb_true_r.
Qed.

Lemma star_space_whole t :
  matches t (Star (Chr space_cs)) 0 (length t) ↔ Forall (fun c => is_space c = true) t.
Proof.
  induction t as [|c t IH].
  - split; [constructor|]. intros _. constructor.
  - rewrite matches_star_iff. split.
    + intros [?|(j & Hc & _ & Hs)]; [done|].
      assert (∃ j, matches (c :: t) (Chr space_cs) 0 j
                   ∧ matches (c :: t) (Star (Chr space_cs)) j (length (c :: t))) as H by eauto.
      apply matches_chr_whole in H as (c' & t' & [= <- <-] & Hc' & Ht); [|done].
      rewrite cs_match_space in Hc'. constructor; [done|by apply IH].
    + intros H. inversion H as [|? ? Hc Ht]; subst. right.
      assert (∃ j, matches (c :: t) (Chr space_cs) 0 j
                   ∧ matches (c :: t) (Star (Chr space_cs)) j (length (c :: t))) as (j & Hj & Hs).
      { apply matches_chr_whole; [done|]. exists c, t. rewrite cs_match_space.
        split; [done|]. split; [done|by apply IH]. }
      exists j. split; [done|]. split; [|done].
      apply matches_chr_iff in Hj as [-> _]. lia.
Qed.

Lemma gap_whole t :
  matches t gap_re 0 (length t) ↔ t ≠ [] ∧ Forall (fun c => is_space c = true) t.
Proof.
  unfold gap_re. rewrite matches_seq_iff, matches_chr_whole by done.
  setoid_rewrite star_space_whole. setoid_rewrite cs_match_space. split.
  - intros (c & t' & -> & Hc & Ht). split; [done|by constructor].
  - intros [Hne H]. destruct t as [|c t]; [done|]. inversion H; subst. eauto.
Qed.

Lemma windowed_chars wb w : Forall (fun r => windowed wb r = true) (chars w).
Proof. apply Forall_fmap, Forall_true. done. Qed.

Lemma windowed_phrase_atoms ws : Forall (fun r => windowed false r = true) (phrase_atoms ws).
Proof.
  induction ws as [|w [|w' ws] IH]; [constructor|apply windowed_chars|].
  change (phrase_atoms (w :: w' :: ws)) with (chars w ++ gap_re :: phrase_atoms (w' :: ws)).
  apply Forall_app. split; [apply windowed_chars|]. constructor; [done|apply IH].
Qed.

(** A chain split at a position of the subject. *)
Lemma chain_split t xs ys :
  Forall (fun r => windowed false r = true) xs →
  Forall (fun r => windowed false r = true) ys →
  matches t (chain (xs ++ ys)) 0 (length t)
  ↔ ∃ a b, t = a ++ b ∧ matches a (chain xs) 0 (length a)
           ∧ matches b (chain ys) 0 (length b).
Proof.
  intros Hx Hy. rewrite chain_app. split.
  - intros (j & Ha & Hb).
    pose proof (matches_bounds _ _ _ _ Ha ltac:(lia)) as Bj.
    exists (take j t), (drop j t). split; [by rewrite take_drop|].
    apply (matches_window t false) in Ha; [|by apply windowed_chain|done|lia].
    apply (matches_window t false) in Hb; [|by apply windowed_chain|done|lia].
    rewrite drop_0, Nat.sub_0_r in Ha.
    rewrite take_ge in Hb by (rewrite length_drop; lia).
    rewrite length_take, length_drop. replace (j `min` length t) with j by lia.
    done.
  - intros (a & b & -> & Ha & Hb). exists (length a). split.
    + pose proof (matches_embed [] a b false ltac:(done) _ _ _
                    (windowed_chain _ _ Hx) Ha ltac:(lia)) as H.
      done.
    + pose proof (matches_embed a b [] false ltac:(done) _ _ _
                    (windowed_chain _ _ Hy) Hb ltac:(lia)) as H.
      rewrite app_nil_r, Nat.add_0_r in H. by rewrite length_app.
Qed.

Lemma phrase_whole ws : ws ≠ [] → ∀ t, matches t (phrase_re ws) 0 (length t) ↔ spelled ws t.
Proof.
  unfold phrase_re.
  induction ws as [|w [|w' ws] IH]; intros Hne t; [done|apply chars_whole|].
  change (phrase_atoms (w :: w' :: ws)) with (chars w ++ [gap_re] ++ phrase_atoms (w' :: ws)).
  change (spelled (w :: w' :: ws) t)
    with (∃ gap rest, t = w ++ gap ++ rest ∧ gap ≠ []
                      ∧ Forall (fun c => is_space c = true) gap ∧ spelled (w' :: ws) rest).
  rewrite chain_split; [|apply windowed_chars|by constructor; [|apply windowed_phrase_atoms]].
  setoid_rewrite chars_whole.
  setoid_rewrite chain_split; [|by repeat constructor|apply windowed_phrase_atoms].
  setoid_rewrite (IH ltac:(done)). change (chain [gap_re]) with gap_re. setoid_rewrite gap_whole.
  split.
  - intros (a & b & -> & -> & g & rest & -> & [? ?] & ?). exists g, rest. done.
  - intros (g & rest & -> & ? & ? & ?). exists w, (g ++ rest). split; [done|]. split; [done|].
    exists g, rest. done.
Qed.

Lemma windowed_mono r : windowed false r = true → windowed true r = true.
Proof.
  induction r; cbn [windowed]; try done.
  - intros [? ?]%andb_prop. rewrite IHr1, IHr2; done.
  - intros [? ?]%andb_prop. rewrite IHr1, IHr2; done.
Qed.

Lemma windowed_alts wb rs :
  Forall (fun r => windowed wb r = true) rs → windowed wb (alts rs) = true.
Proof.
  induction rs as [|a [|b rs] IH]; intros H; [done|by inversion H|].
  change (alts (a :: b :: rs)) with (Alt a (alts (b :: rs))). cbn [windowed].
  inversion H; subst. rewrite IH by done. by rewrite andb_true_r.
Qed.

Lemma windowed_vocab V : windowed true (vocab_re V) = true.
Proof.
  unfold vocab_re. cbn [windowed]. rewrite andb_true_r. cbn [andb].
  apply windowed_alts, Forall_fmap, Forall_true. intros ws.
  apply windowed_mono, windowed_chain, windowed_phrase_atoms.
Qed.

(** A spelled phrase begins and ends with a word character. *)
Lemma spelled_ends ws :
  ws ≠ [] → Forall (fun w => w ≠ [] ∧ Forall (fun c => is_word c = true) w) ws →
  ∀ t, spelled ws t →
  (∃ c, head t = Some c ∧ is_word c = true) ∧ (∃ c, last t = Some c ∧ is_word c = true).
Proof.
  induction ws as [|w [|w' ws] IH]; intros Hne Hok t Hs; [done| |].
  - simpl in Hs. subst. inversion Hok as [|? ? [Hw Hc]]; subst.
    split.
    + destruct w as [|c w]; [done|]. exists c. split; [done|]. by inversion Hc.
    + destruct (last w) as [c|] eqn:E; [|by apply last_None in E].
      exists c. split; [done|]. rewrite Forall_forall in Hc. apply Hc.
      apply last_Some in E as [l' ->]. apply elem_of_app. right. left.
  - destruct Hs as (g & rest & -> & Hg & _ & Hrest).
    inversion Hok as [|? ? [Hw Hc] Hok']; subst.
    destruct (IH ltac:(done) Hok' _ Hrest) as [_ (c & Hl & Hcw)].
    split.
    + destruct w as [|c0 w]; [done|]. exists c0. split; [done|]. by inversion Hc.
    + exists c. split; [|done]. rewrite !last_app, Hl. done.
Qed.

Lemma vocabulary_ok_elem V ws :
  vocabulary_ok V = true → ws ∈ V →
  ws ≠ [] ∧ Forall (fun w => w ≠ [] ∧ Forall (fun c => is_word c = true) w) ws.
Proof.
  unfold vocabulary_ok. rewrite forallb_forall. intros H Hin%list_elem_of_In.
  apply H in Hin. apply andb_prop in Hin as [H1 H2].
  split; [by apply negb_true_iff, bool_decide_eq_false in H1|].
  rewrite forallb_forall in H2. apply Forall_forall. intros w Hw%list_elem_of_In.
  apply H2 in Hw. apply andb_prop in Hw as [H3 H4].
  split; [by apply negb_true_iff, bool_decide_eq_false in H3|].
  rewrite forallb_forall in H4. apply Forall_forall. intros c Hc%list_elem_of_In. auto.
Qed.

(** The pattern of a vocabulary is found exactly in the texts that hold
    one of its phrases. *)
Lemma vocab_search V s :
  vocabulary_ok V = true →
  found (re_search (vocab_re V) s) = true ↔ contains_vocabulary V s.
Proof.
  intros Hok. rewrite re_search_spec. split.
  - intros (i & j & Hi & Hm). unfold vocab_re in Hm.
    apply matches_seq_iff in Hm as (i' & [-> Hbi]%matches_wordb_iff & Hm).
    apply matches_seq_iff in Hm as (j' & Hm & [-> Hbj]%matches_wordb_iff).
    apply matches_grp_iff, alts_iff in Hm as (r & Hr & Hm).
    apply list_elem_of_fmap in Hr as (ws & -> & Hws).
    destruct (vocabulary_ok_elem _ _ Hok Hws) as [Hne Hwords].
    pose proof (matches_bounds _ _ _ _ Hm Hi) as Hb.
    apply (matches_window s false) in Hm;
      [|apply windowed_chain, windowed_phrase_atoms|done|done].
    set (t := take (j' - i) (drop i s)) in *.
    assert (length t = j' - i) as Hlt by (unfold t; rewrite length_take, length_drop; lia).
    rewrite <- Hlt in Hm. apply phrase_whole in Hm; [|done].
    destruct (spelled_ends _ Hne Hwords _ Hm) as [(c1 & Hh & Hc1) (c2 & Hl & Hc2)].
    assert (t !! 0 = Some c1) as Ht0 by by rewrite <- head_lookup.
    assert (0 < length t) as Hpos by by apply lookup_lt_Some in Ht0.
    assert (s !! i = Some c1) as Hsi.
    { unfold t in Ht0. rewrite lookup_take_lt, lookup_drop in Ht0 by lia.
      by rewrite Nat.add_0_r in Ht0. }
    assert (s !! (j' - 1) = Some c2) as Hsj.
    { rewrite last_lookup in Hl. unfold t in Hl at 2.
      rewrite lookup_take_lt, lookup_drop in Hl by lia.
      rewrite <- Hl. f_equal. lia. }
    exists ws. split; [done|]. exists (take i s), t, (drop j' s).
    split; [|split; [done|split]].
    + rewrite <- (take_drop i s) at 1. f_equal. unfold t.
      rewrite <- (take_drop (j' - i) (drop i s)) at 1. f_equal.
      rewrite drop_drop. f_equal. lia.
    + unfold ends_nonword. rewrite last_lookup, length_take.
      replace (i `min` length s) with i by lia.
      destruct i as [|i]; [done|]. simpl. rewrite lookup_take_lt by lia.
      unfold word_boundary, word_at at 2 in Hbi. rewrite Hsi, Hc1 in Hbi.
      unfold word_at in Hbi. destruct (s !! i); [|done].
      by destruct (is_word n).
    + unfold starts_nonword. rewrite head_lookup, lookup_drop, Nat.add_0_r.
      unfold word_boundary in Hbj. destruct j' as [|j']; [lia|].
      unfold word_at at 1 in Hbj. replace (S j' - 1) with j' in Hsj by lia.
      rewrite Hsj, Hc2 in Hbj. unfold word_at in Hbj.
      destruct (s !! S j'); [|done]. by destruct (is_word n).
  - intros (ws & Hws & pre & t & post & -> & Hs & Hpre & Hpost).
    destruct (vocabulary_ok_elem _ _ Hok Hws) as [Hne Hwords].
    destruct (spelled_ends _ Hne Hwords _ Hs) as [(c1 & Hh & Hc1) (c2 & Hl & Hc2)].
    assert (t !! 0 = Some c1) as Ht0 by by rewrite <- head_lookup.
    assert (0 < length t) as Hpos by by apply lookup_lt_Some in Ht0.
    exists (length pre + 0), (length pre + length t).
    split; [rewrite !length_app; lia|].
    eapply (matches_embed pre t post true); [done|apply windowed_vocab| |lia].
    unfold vocab_re. apply matches_seq_iff. exists 0. split.
    { apply matches_wordb_iff. split; [done|]. unfold word_boundary, word_at.
      by rewrite Ht0, Hc1. }
    apply matches_seq_iff. exists (length t). split.
    { apply matches_grp_iff, alts_iff. exists (phrase_re ws).
      split; [apply list_elem_of_fmap; eauto|]. by apply phrase_whole. }
    apply matches_wordb_iff. split; [done|]. unfold word_boundary.
    destruct (length t) as [|n] eqn:E; [lia|].
    unfold word_at. rewrite last_lookup, E in Hl. simpl in Hl. rewrite Hl, Hc2.
    rewrite (lookup_ge_None_2 t (S n)) by lia. done.
Qed.

Lemma vocabularies_ok :
  vocabulary_ok urgency_vocabulary = true ∧ vocabulary_ok importance_vocabulary = true.
Proof. split; vm_compute; reflexivity. Qed.

(** [_priority] on small cases: letter case and the width of the white
    space do not matter, a longer word that begins like a vocabulary word
    does not count. *)
Lemma priority_examples :
  _priority (u "URGENT: reply") = u "high"
  ∧ _priority (u "Top   priority item") = u "high"
  ∧ _priority (u "send it by EOD") = u "high"
  ∧ _priority (u "urgently needed") = u "medium"
  ∧ _priority (u "send the report") = u "medium".
Proof. repeat (split; [vm_compute; reflexivity|]); vm_compute; reflexivity. Qed.

(** [_priority], by the vocabulary the lowered sentence holds. *)
Lemma priority_spec sentence :
  (_priority sentence = u "high"
   ↔ contains_vocabulary urgency_vocabulary (lower sentence)
     ∨ contains_vocabulary importance_vocabulary (lower sentence))
  ∧ (_priority sentence = u "high" ∨ _priority sentence = u "medium").
Proof.
  destruct vocabularies_ok as [Hu Hi].
  rewrite <- !vocab_search by done.
  rewrite <- urgent_re_vocab, <- important_re_vocab.
  unfold _priority.
  destruct (found (re_search Patterns.urgent_re (lower sentence)));
    [split; [split; auto|auto]|].
  destruct (found (re_search Patterns.important_re (lower sentence)));
    [split; [split; auto|auto]|].
  split; [|auto]. split; [by intros [=]|]. intros [?|?]; done.
Qed.

(** ** The extractor loop *)

Lemma for_each_inv {A S} (I : S → Prop) (xs : list A) (body : A → S → M S) :
  (∀ x s w s' w', x ∈ xs → I s → body x s w = (Ok s', w') → I s') →
  ∀ s w s' w', I s → for_each xs body s w = (Ok s', w') → I s'.
Proof.
  induction xs as [|x xs IH]; intros Hbody s w s' w' Hs Hrun; simpl in Hrun.
  - injection Hrun as <- <-. done.
  - unfold mbind, M_bind in Hrun.
    destruct (body x s w) as [[s1|e] w1] eqn:E; [|done].
    eapply IH; [|eapply Hbody; [left|done|done] |done].
    intros. eapply Hbody; eauto. by right.
Qed.

Lemma loop_body_items USER_NAME today lines i line st w st' w' :
  lines !! i = Some line →
  Forall (item_of USER_NAME today lines) st.1 →
  loop_body USER_NAME today lines (i, line) st w = (Ok st', w') →
  Forall (item_of USER_NAME today lines) st'.1.
Proof.
  intros Hi Hst. unfold loop_body.
  destruct (hard_skip line) eqn:Hs; [by intros [= <- <-]|].
  destruct (no_signal _ _ _) eqn:Hn; [by intros [= <- <-]|].
  unfold mbind at 1. unfold M_bind, lift.
  destruct (_extract_due today (context lines i line)) as [due|e] eqn:Hd; [|done].
  destruct (_ || _) eqn:Hlen; [by intros [= <- <-]|].
  case_bool_decide; [by intros [= <- <-]|].
  unfold mbind, M_bind, log. intros [= <- <-]. cbn [fst].
  apply Forall_app. split; [done|]. constructor; [|constructor].
  exists i, line. apply orb_false_elim in Hlen as [H1 H2].
  apply Nat.ltb_ge in H1, H2. repeat split; auto.
Qed.

Lemma extract_items USER_NAME today source_type content w items w' :
  extract_action_items USER_NAME today source_type content w = (Ok items, w') →
  Forall (item_of USER_NAME today (split_lines content)) items.
Proof.
  unfold extract_action_items, mbind, M_bind.
  destruct (for_each _ _ _ w) as [[st|e] w1] eqn:E; [|done].
  intros [= <- <-].
  eapply (for_each_inv (fun st => Forall (item_of USER_NAME today (split_lines content)) st.1)) in E;
    [done| |by constructor].
  intros [i line] s w0 s' w0' Hin Hs Hrun.
  apply elem_of_lookup_imap in Hin as (i' & line' & [= -> ->] & Hl).
  eapply loop_body_items; eauto.
Qed.

(** C5. Every item [extract_action_items] returns carries the cleaned text
    of a candidate line, 8 to 300 characters long; no item carries a
    cleaned text of 7 characters or fewer, or of 301 or more.  At the
    boundaries: a name-bearing line of 7 characters is dropped, one of 8
    kept, one of 300 kept, one of 301 dropped. *)
Theorem extracted_text_length :
  (∀ USER_NAME today source_type content w items w',
     extract_action_items USER_NAME today source_type content w = (Ok items, w') →
     Forall (fun it => ∃ line, line ∈ split_lines content
                              ∧ text it = Some (_clean line)
                              ∧ 8 ≤ length (_clean line) ≤ 300) items
     ∧ ∀ line, length (_clean line) ≤ 7 ∨ 301 ≤ length (_clean line) →
               ∀ it, it ∈ items → text it ≠ Some (_clean line))
  ∧ (∀ today w,
       extracted (u "Justin Miller") today (u "@Justin") w = Ok []
       ∧ extracted (u "Justin Miller") today (u "@Justin!") w = Ok [plain_item "@Justin!" "medium"]
       ∧ extracted (u "Justin Miller") today (u "Justin " ++ replicate 293 120%N) w
         = Ok [{| text := Some (u "Justin " ++ replicate 293 120%N); due_date := None;
                  priority := Some (u "medium") |}]
       ∧ extracted (u "Justin Miller") today (u "Justin " ++ replicate 294 120%N) w = Ok []).
Proof.
  split.
  - intros USER_NAME today source_type content w items w' Hrun.
    apply extract_items in Hrun. split.
    + eapply Forall_impl; [exact Hrun|].
      intros it (i & line & Hl & _ & _ & Ht & Hlen & _). exists line.
      split; [by eapply list_elem_of_lookup_2|done].
    + intros line Hlen it Hit Ht. rewrite Forall_forall in Hrun.
      destruct (Hrun it Hit) as (i & line' & _ & _ & _ & Ht' & Hlen' & _).
      rewrite Ht in Ht'. injection Ht' as Ht'. rewrite Ht' in Hlen. lia.
  - intros today w. unfold extracted. split; [|split; [|split]]; vm_compute; reflexivity.
Qed.

(** The text of the item from a line of 8 characters. *)
Lemma extracted_text_length_witness :
  let run := extract_action_items (u "Justin Miller") monday (u "email") (u "@Justin!") fresh_world in
  run.1 = Ok [plain_item "@Justin!" "medium"]
  ∧ Forall (fun it => ∃ line, line ∈ split_lines (u "@Justin!")
                             ∧ text it = Some (_clean line)
                             ∧ 8 ≤ length (_clean line) ≤ 300)
           [plain_item "@Justin!" "medium"].
Proof.
  intros run. split; [vm_compute; reflexivity|].
  apply (proj1 extracted_text_length (u "Justin Miller") monday (u "email") (u "@Justin!")
           fresh_world _ run.2).
  vm_compute. reflexivity.
Defined.

(** Containing a word of the vocabulary is not enough: "monsoon" holds
    "soon", and the item of the line is of priority "medium". *)
Lemma priority_not_by_containment :
  let content := u "Justin, please review the monsoon forecast" in
  split_lines content = [content]
  ∧ (∃ pre post, lower content = pre ++ u "soon" ++ post)
  ∧ (∀ today w,
       extracted (u "Justin Miller") today content w
       = Ok [plain_item "Justin, please review the monsoon forecast" "medium"]).
Proof.
  intros content. split; [vm_compute; reflexivity|].
  split; [by exists (u "justin, please review the mon"), (u " forecast")|].
  intros today w. vm_compute. reflexivity.
Qed.

(** C8, amended. Every item [extract_action_items] returns has priority
    "high" or "medium", never "low".  It comes from a candidate line, and
    it is "high" exactly when the line, with a space and the next
    candidate line after it if there is one, holds in lower case a phrase
    of the urgency vocabulary or of the importance vocabulary as words of
    their own: not next to a word character, with white space between
    the words of a phrase. *)
Theorem priority_high_or_medium USER_NAME today source_type content w items w' :
  extract_action_items USER_NAME today source_type content w = (Ok items, w') →
  Forall (fun it =>
    ∃ i line,
      split_lines content !! i = Some line
      ∧ text it = Some (_clean line)
      ∧ (priority it = Some (u "high") ∨ priority it = Some (u "medium"))
      ∧ priority it ≠ Some (u "low")
      ∧ let ctx :=
          match split_lines content !! S i with
          | Some next => line ++ u " " ++ next
          | None => line
          end in
        (priority it = Some (u "high")
         ↔ contains_vocabulary urgency_vocabulary (lower ctx)
           ∨ contains_vocabulary importance_vocabulary (lower ctx))) items.
Proof.
  intros Hrun. apply extract_items in Hrun. eapply Forall_impl; [exact Hrun|].
  intros it (i & line & Hl & _ & _ & Ht & _ & _ & Hp). exists i, line.
  assert (context (split_lines content) i line
          = match split_lines content !! S i with
            | Some next => line ++ u " " ++ next
            | None => line
            end) as Hctx.
  { unfold context. destruct (split_lines content !! S i); [done|]. by rewrite app_nil_r. }
  rewrite Hctx in Hp. cbv zeta.
  destruct (priority_spec (match split_lines content !! S i with
                           | Some next => line ++ u " " ++ next
                           | None => line
                           end)) as [Hhigh Hcases].
  rewrite Hp. split; [done|]. split; [done|]. split; [|split].
  - destruct Hcases as [-> | ->]; auto.
  - destruct Hcases as [-> | ->]; intros [= E]; vm_compute in E; discriminate.
  - rewrite <- Hhigh. split; [intros [= E]; exact E|intros E; by f_equal].
Qed.

(** C7. [_strip_email_quotes] turns the reply body into "New paragraph.":
    the cut at the attribution line leaves the paragraph and two line
    feeds, which the final strip removes. *)
Theorem strip_quotes_reply :
  _strip_email_quotes reply_body = u "New paragraph."
  ∧ cut_at attribution_re reply_body = u "New paragraph." ++ [LF; LF].
Proof. split; vm_compute; reflexivity. Qed.

(** The due dates of whole items on 1 June 2025: the slash form stays in
    the current year, the month-name form moves to the next. *)
Lemma due_date_items :
  let on_june_1 content :=
    extracted (u "Justin Miller") {| year := 2025; month := 6; day := 1 |} content fresh_world in
  on_june_1 (u "Justin, please send the report due 03/05")
  = Ok [{| text := Some (u "Justin, please send the report due 03/05");
           due_date := Some (u "2025-03-05"); priority := Some (u "medium") |}]
  ∧ on_june_1 (u "Justin, please send the report due March 5")
    = Ok [{| text := Some (u "Justin, please send the report due March 5");
             due_date := Some (u "2026-03-05"); priority := Some (u "medium") |}].
Proof. split; vm_compute; reflexivity. Qed.

(** The priority of the item from a line whose next line is the urgent
    one. *)
Lemma priority_high_or_medium_witness :
  let content := u "@Justin can you look into this." ++ [LF] ++ u "It is urgent" in
  let run := extract_action_items (u "Justin Miller") monday (u "email") content fresh_world in
  run.1 = Ok [plain_item "@Justin can you look into this." "high"]
  ∧ Forall (fun it =>
      ∃ i line,
        split_lines content !! i = Some line
        ∧ text it = Some (_clean line)
        ∧ (priority it = Some (u "high") ∨ priority it = Some (u "medium"))
        ∧ priority it ≠ Some (u "low")
        ∧ let ctx :=
            match split_lines content !! S i with
            | Some next => line ++ u " " ++ next
            | None => line
            end in
          (priority it = Some (u "high")
           ↔ contains_vocabulary urgency_vocabulary (lower ctx)
             ∨ contains_vocabulary importance_vocabulary (lower ctx)))
      [plain_item "@Justin can you look into this." "high"].
Proof.
  intros content run. split; [vm_compute; reflexivity|].
  apply (priority_high_or_medium (u "Justin Miller") monday (u "email") content
           fresh_world _ run.2).
  vm_compute. reflexivity.
Defined.

(** ** Dates *)

Local Open Scope Z_scope.

Lemma length_digits w n : length (digits w n) = w.
Proof.
  revert n. induction w as [|w IH]; intros n; simpl; [done|].
  rewrite length_app, IH. simpl. lia.
Qed.



Lemma isoformat_length d : length (isoformat d) = 10%nat.
Proof. unfold isoformat. rewrite !length_app, !length_digits. reflexivity. Qed.

Lemma cycle_ok_spec k : ∀ r0, cycle_ok k r0 = true → ∀ r, r0 <= r < r0 + Z.of_nat k → cycle_day_ok r = true.
Proof.
  induction k as [|k IH]; intros r0 H r Hr; [lia|].
  simpl in H. apply andb_prop in H as [H1 H2].
  destruct (Z.eq_dec r r0) as [->|]; [done|]. apply (IH (r0 + 1)); [done|lia].
Qed.

Lemma cycle_checked : cycle_ok (Z.to_nat 146097) 0 = true.
Proof. vm_compute. reflexivity. Qed.

Lemma ord2ymd_shift q r :
  0 <= r < 146097 →
  _ord2ymd (146097 * q + r + 1)
  = let '(y, m, d) := _ord2ymd (r + 1) in (y + 400 * q, m, d).
Proof.
  intros Hr. unfold _ord2ymd, _DI400Y.
  replace (146097 * q + r + 1 - 1) with (r + q * 146097) by lia.
  replace (r + 1 - 1) with r by lia.
  rewrite Z.div_add, Z.mod_add by lia.
  rewrite (Z.div_small r 146097), (Z.mod_small r 146097) by lia.
  cbv zeta.
  destruct ((_ =? 4) || (_ =? 4)); [f_equal; f_equal; lia|].
  destruct (_ <? _); f_equal; f_equal; lia.
Qed.

Lemma is_leap_shift y q : _is_leap (y + 400 * q) = _is_leap y.
Proof.
  unfold _is_leap.
  replace (y + 400 * q) with (y + (100 * q) * 4) at 1 by lia.
  replace (y + 400 * q) with (y + (4 * q) * 100) at 1 by lia.
  replace (y + 400 * q) with (y + q * 400) by lia.
  rewrite !Z.mod_add by lia. reflexivity.
Qed.

Lemma ymd2ord_shift y m d q :
  _ymd2ord (y + 400 * q) m d = _ymd2ord y m d + 146097 * q.
Proof.
  unfold _ymd2ord, _days_before_month, _days_before_year. rewrite is_leap_shift.
  cbv zeta.
  replace (y + 400 * q - 1) with (y - 1 + (100 * q) * 4) at 2 by lia.
  replace (y + 400 * q - 1) with (y - 1 + (4 * q) * 100) at 2 by lia.
  replace (y + 400 * q - 1) with (y - 1 + q * 400) at 2 by lia.
  rewrite !Z.div_add by lia. lia.
Qed.

Lemma days_in_month_shift y m q : _days_in_month (y + 400 * q) m = _days_in_month y m.
Proof. unfold _days_in_month. rewrite is_leap_shift. reflexivity. Qed.

(** Every ordinal of the supported range names a valid date and is the
    ordinal of that date. *)
Lemma fromordinal_ok n :
  1 <= n <= _MAXORDINAL →
  valid_date (fromordinal n) = true ∧ toordinal (fromordinal n) = n.
Proof.
  unfold _MAXORDINAL. intros Hn.
  pose proof (Z.div_mod (n - 1) 146097 ltac:(lia)) as Hdm.
  pose proof (Z.mod_pos_bound (n - 1) 146097 ltac:(lia)) as Hr.
  set (q := (n - 1) / 146097) in *. set (r := (n - 1) mod 146097) in *.
  assert (0 <= q <= 24) as Hq by lia.
  pose proof (cycle_ok_spec _ _ cycle_checked r ltac:(lia)) as Hc.
  unfold fromordinal, toordinal, valid_date.
  replace n with (146097 * q + r + 1) by lia.
  rewrite ord2ymd_shift by lia.
  unfold cycle_day_ok in Hc.
  destruct (_ord2ymd (r + 1)) as [[y m] d]. cbn [year month day].
  rewrite days_in_month_shift, ymd2ord_shift.
  unfold MINYEAR, MAXYEAR.
  repeat (apply andb_prop in Hc as [Hc ?]).
  apply Z.eqb_eq in H0.
  split; [|lia].
  repeat (apply andb_true_intro; split); try done; lia.
Qed.

(** *** Ordinals follow the order of dates *)

Lemma days_before_year_step y :
  _days_before_year (y + 1) = _days_before_year y + 365 + (if _is_leap y then 1 else 0).
Proof.
  unfold _days_before_year, _is_leap. cbv zeta.
  replace (y + 1 - 1) with y by lia.
  destruct (Z.eqb_spec (y mod 4) 0), (Z.eqb_spec (y mod 100) 0), (Z.eqb_spec (y mod 400) 0);
    cbn [andb orb negb]; Z.div_mod_to_equations; lia.
Qed.

Lemma days_before_year_mono y1 y2 :
  y1 <= y2 → _days_before_year y1 <= _days_before_year y2.
Proof.
  unfold _days_before_year. cbv zeta. intros H. Z.div_mod_to_equations. lia.
Qed.

Lemma months_checked leap : months_ok leap = true.
Proof. destruct leap; vm_compute; reflexivity. Qed.

Lemma month_cases m : 1 <= m <= 12 → m ∈ [1;2;3;4;5;6;7;8;9;10;11;12].
Proof.
  intros H. assert (m = 1 ∨ m = 2 ∨ m = 3 ∨ m = 4 ∨ m = 5 ∨ m = 6 ∨ m = 7 ∨ m = 8
                    ∨ m = 9 ∨ m = 10 ∨ m = 11 ∨ m = 12) as Hm by lia.
  rewrite !elem_of_cons. lia.
Qed.

Lemma year_day_bounds leap m d :
  1 <= m <= 12 → 1 <= d <= month_len leap m →
  1 <= year_day leap m d <= 365 + (if leap then 1 else 0).
Proof.
  intros Hm Hd. pose proof (months_checked leap) as H.
  unfold months_ok in H. rewrite forallb_forall in H.
  specialize (H m ltac:(apply list_elem_of_In, month_cases; lia)).
  apply andb_prop in H as [H _]. apply andb_prop in H as [H1 H2].
  unfold year_day in *. lia.
Qed.

Lemma year_day_mono leap m d m' d' :
  1 <= m <= 12 → 1 <= m' <= 12 → 1 <= d <= month_len leap m → 1 <= d' →
  m < m' → year_day leap m d < year_day leap m' d'.
Proof.
  intros Hm Hm' Hd Hd' Hlt. pose proof (months_checked leap) as H.
  unfold months_ok in H. rewrite forallb_forall in H.
  specialize (H m ltac:(apply list_elem_of_In, month_cases; lia)).
  apply andb_prop in H as [_ H]. rewrite forallb_forall in H.
  specialize (H m' ltac:(apply list_elem_of_In, month_cases; lia)).
  unfold year_day in *. lia.
Qed.

Lemma toordinal_split d :
  toordinal d = _days_before_year (year d) + year_day (_is_leap (year d)) (month d) (day d).
Proof. unfold toordinal, _ymd2ord, _days_before_month, year_day. lia. Qed.

Lemma valid_date_fields d :
  valid_date d = true →
  1 <= year d <= 9999 ∧ 1 <= month d <= 12
  ∧ 1 <= day d <= month_len (_is_leap (year d)) (month d).
Proof.
  unfold valid_date, MINYEAR, MAXYEAR, _days_in_month, month_len. intros H.
  repeat (apply andb_prop in H as [H ?]). lia.
Qed.

Lemma toordinal_range d :
  valid_date d = true → 1 <= toordinal d <= _MAXORDINAL.
Proof.
  intros (Hy & Hm & Hd)%valid_date_fields. rewrite toordinal_split.
  pose proof (year_day_bounds _ _ _ Hm Hd).
  pose proof (days_before_year_step (year d)).
  pose proof (days_before_year_mono 1 (year d) ltac:(lia)).
  pose proof (days_before_year_mono (year d + 1) 10000 ltac:(lia)).
  change (_days_before_year 1) with 0 in *.
  change (_days_before_year 10000) with 3652059 in *.
  unfold _MAXORDINAL. lia.
Qed.

Lemma date_ltb_toordinal a b :
  valid_date a = true → valid_date b = true →
  date_ltb a b = (toordinal a <? toordinal b).
Proof.
  intros (Hya & Hma & Hda)%valid_date_fields (Hyb & Hmb & Hdb)%valid_date_fields.
  rewrite !toordinal_split. unfold date_ltb.
  pose proof (year_day_bounds _ _ _ Hma Hda).
  pose proof (year_day_bounds _ _ _ Hmb Hdb).
  pose proof (days_before_year_step (year a)).
  pose proof (days_before_year_step (year b)).
  destruct (Z.ltb_spec (year a) (year b)) as [Hy|Hy].
  { pose proof (days_before_year_mono (year a + 1) (year b) ltac:(lia)).
    cbn [orb]. symmetry. apply Z.ltb_lt. lia. }
  destruct (Z.eqb_spec (year a) (year b)) as [Hy'|Hy']; cbn [orb andb].
  2:{ pose proof (days_before_year_mono (year b + 1) (year a) ltac:(lia)).
      symmetry. apply Z.ltb_ge. lia. }
  rewrite Hy' in *.
  destruct (Z.ltb_spec (month a) (month b)) as [Hm|Hm]; cbn [orb].
  { pose proof (year_day_mono _ _ (day a) _ (day b) Hma Hmb Hda ltac:(lia) Hm).
    symmetry. apply Z.ltb_lt. lia. }
  destruct (Z.eqb_spec (month a) (month b)) as [Hm'|Hm']; cbn [andb].
  2:{ pose proof (year_day_mono _ _ (day b) _ (day a) Hmb Hma Hdb ltac:(lia) ltac:(lia)).
      symmetry. apply Z.ltb_ge. lia. }
  rewrite Hm'. unfold year_day.
  destruct (Z.ltb_spec (day a) (day b)); symmetry; [apply Z.ltb_lt | apply Z.ltb_ge]; lia.
Qed.

(** ** Due dates *)

Lemma mk_date_valid y m d :
  valid_date {| year := y; month := m; day := d |} = true →
  mk_date y m d = Some {| year := y; month := m; day := d |}.
Proof. unfold mk_date. by intros ->. Qed.

Lemma march_5_valid y : 1 <= y <= 9999 → valid_date {| year := y; month := 3; day := 5 |} = true.
Proof.
  intros H. unfold valid_date, MINYEAR, MAXYEAR, _days_in_month. cbn [year month day].
  change (3 =? 2) with false. cbn [andb]. change (tab _DAYS_IN_MONTH 3) with 31.
  repeat (apply andb_true_intro; split); lia.
Qed.

(** The month-name branch of [_parse_date] moves a past date to next year:
    on 1 June 2025, "due March 5" is 5 March 2026. *)
Lemma month_name_rolls_over :
  _extract_due {| year := 2025; month := 6; day := 1 |} (u "due March 5")
  = Ok (Some (u "2026-03-05")).
Proof. vm_compute. reflexivity. Qed.

(** C2. On every evaluation date from the year 100 on, the due phrase
    "due 03/05" resolves to March 5 of the current year, whether or not
    that day is already past: the slash branch of [_parse_date] has no
    move to next year. *)
Theorem slash_date_keeps_current_year today :
  valid_date today = true → 100 <= year today →
  _extract_due today (u "due 03/05")
  = Ok (Some (isoformat {| year := year today; month := 3; day := 5 |})).
Proof.
  intros Hv Hy.
  apply valid_date_fields in Hv as (Hyr & _ & _).
  unfold _extract_due. eval_searches. cbv beta iota. eval_groups.
  unfold _parse_date.
  eval_term (lower [100%N; 117%N; 101%N; 32%N; 48%N; 51%N; 47%N; 48%N; 53%N]).
  cbv zeta. eval_searches. cbv beta iota.
  unfold parse_month_day. eval_searches. cbv beta iota.
  unfold parse_iso. eval_searches. cbv beta iota.
  unfold parse_slash. eval_searches. cbv beta iota. eval_groups. cbv beta iota zeta.
  rewrite (proj2 (Z.ltb_ge _ _)) by lia.
  rewrite mk_date_valid by (apply march_5_valid; lia).
  reflexivity.
Qed.

(** The slash date on 1 June 2025: the result, 5 March 2025, is in the
    past. *)
Lemma slash_date_keeps_current_year_witness :
  valid_date first_of_june = true
  ∧ (100 <= year first_of_june)%Z
  ∧ _extract_due first_of_june (u "due 03/05") = Ok (Some (u "2025-03-05"))
  ∧ date_ltb {| year := 2025; month := 3; day := 5 |} first_of_june = true.
Proof.
  split; [vm_compute; reflexivity|]. split; [vm_compute; discriminate|].
  split; [|vm_compute; reflexivity].
  apply (slash_date_keeps_current_year first_of_june).
  - vm_compute. reflexivity.
  - vm_compute. discriminate.
Defined.

Lemma phrases_checked kw next e :
  kw ∈ weekday_keywords → e ∈ _WEEKDAYS → phrase_check kw next e = true.
Proof.
  intros Hk He.
  assert (forallb (fun kw => forallb (fun next => forallb (phrase_check kw next) _WEEKDAYS)
                                     [false; true]) weekday_keywords = true) as H
    by (vm_compute; reflexivity).
  rewrite forallb_forall in H. specialize (H kw ltac:(by apply list_elem_of_In)).
  rewrite forallb_forall in H. specialize (H next ltac:(destruct next; simpl; auto)).
  rewrite forallb_forall in H. apply H. by apply list_elem_of_In.
Qed.

Lemma next_day_arith T idx :
  0 <= idx <= 6 →
  let k := or7 ((idx - (T + 6) mod 7 + 7) mod 7) in
  1 <= k <= 7 ∧ (T + k + 6) mod 7 = idx
  ∧ (k = 7 ↔ (T + 6) mod 7 = idx)
  ∧ ∀ D, T < D < T + k → (D + 6) mod 7 ≠ idx.
Proof.
  intros Hidx. unfold or7.
  pose proof (Z.mod_pos_bound (T + 6) 7 ltac:(lia)) as Hw.
  destruct (Z.eqb_spec ((idx - (T + 6) mod 7 + 7) mod 7) 0) as [E|E]; cbv zeta.
  - repeat split; try lia.
    + Z.div_mod_to_equations. lia.
    + intros _. Z.div_mod_to_equations. lia.
    + intros D HD. Z.div_mod_to_equations. lia.
  - pose proof (Z.mod_pos_bound (idx - (T + 6) mod 7 + 7) 7 ltac:(lia)).
    repeat split; try lia.
    + Z.div_mod_to_equations. lia.
    + intros ?. Z.div_mod_to_equations. lia.
    + intros D HD. Z.div_mod_to_equations. lia.
Qed.

Lemma parse_weekday_phrase today text kw next name idx :
  valid_date today = true → toordinal today + 7 <= _MAXORDINAL →
  kw ∈ weekday_keywords → (name, idx) ∈ _WEEKDAYS →
  lower text = weekday_phrase kw next name →
  ∃ r k,
    _parse_date today text = Ok (Some (isoformat r))
    ∧ valid_date r = true
    ∧ toordinal r = toordinal today + k ∧ 1 <= k <= 7
    ∧ weekday r = idx
    ∧ (k = 7 ↔ weekday today = idx)
    ∧ date_ltb today r = true
    ∧ ∀ d, valid_date d = true → date_ltb today d = true → date_ltb d r = true →
           weekday d ≠ idx.
Proof.
  intros Hv Hmax Hkw He Hlow.
  pose proof (phrases_checked kw next _ Hkw He) as Hc. unfold phrase_check in Hc.
  cbn [fst snd] in Hc. rewrite <- Hlow in Hc.
  repeat (apply andb_prop in Hc as [Hc ?]).
  apply negb_true_iff in Hc.
  match goal with H : negb _ = true |- _ => apply negb_true_iff in H end.
  match goal with H : negb _ = true |- _ => apply negb_true_iff in H end.
  repeat match goal with H : bool_decide _ = true |- _ => apply bool_decide_eq_true in H end.
  pose proof (toordinal_range _ Hv) as Hr.
  destruct (next_day_arith (toordinal today) idx ltac:(lia)) as (Hk & Hwd & H7 & Hmin).
  set (k := or7 ((idx - (toordinal today + 6) mod 7 + 7) mod 7)) in *.
  destruct (fromordinal_ok (toordinal today + k) ltac:(lia)) as [Hrv Hro].
  exists (fromordinal (toordinal today + k)), k.
  split.
  { unfold _parse_date. cbv zeta.
    repeat match goal with H : found _ = false |- _ => rewrite H end.
    destruct (re_search weekday_re (lower text)) as [m|]; [|done].
    assert (lower (default [] (group m 1)) = name) as Hg
      by (apply (inj Some); assumption).
    unfold _next_weekday. rewrite Hg.
    match goal with H : dict_get _ _ = _ |- _ => rewrite H end.
    cbn [mbind res_bind]. unfold date_plus, add_days.
    change (or7 ((idx - weekday today + 7) mod 7)) with k.
    replace ((0 <? toordinal today + k) && (toordinal today + k <=? _MAXORDINAL)) with true
      by (symmetry; apply andb_true_intro; split; lia).
    reflexivity. }
  split; [done|]. split; [done|]. split; [done|].
  split; [unfold weekday; by rewrite Hro|].
  split; [done|].
  split; [rewrite date_ltb_toordinal by done; apply Z.ltb_lt; lia|].
  intros d Hd Hl1 Hl2. rewrite date_ltb_toordinal in Hl1, Hl2 by done.
  apply Z.ltb_lt in Hl1, Hl2. unfold weekday. apply Hmin. lia.
Qed.

(** In the last week before [date.max] the sum of today and the days
    ahead can leave the calendar: the phrase then raises. *)
Lemma weekday_phrase_at_date_max :
  _parse_date {| year := 9999; month := 12; day := 31 |} (u "by friday")
  = Raise OverflowError.
Proof. vm_compute. reflexivity. Qed.

(** C6. On every evaluation date that leaves a week before [date.max],
    a text that reads, letter case aside, "by", "on" or "due", an optional
    "next", and a weekday name resolves to the date [r] that falls on that
    weekday, lies [k] days after today with [1 <= k <= 7], and has no
    date of that weekday between today and itself; [k] is 7 exactly when
    today is that weekday.  "Please send the report by Friday" on a Monday
    resolves to the Friday four days later. *)
Theorem weekday_phrase_resolution today :
  valid_date today = true → toordinal today + 7 <= _MAXORDINAL →
  (∀ text kw next name idx,
     kw ∈ weekday_keywords → (name, idx) ∈ _WEEKDAYS →
     lower text = weekday_phrase kw next name →
     ∃ r k,
       _parse_date today text = Ok (Some (isoformat r))
       ∧ valid_date r = true
       ∧ toordinal r = toordinal today + k ∧ 1 <= k <= 7
       ∧ weekday r = idx
       ∧ (k = 7 ↔ weekday today = idx)
       ∧ date_ltb today r = true
       ∧ ∀ d, valid_date d = true → date_ltb today d = true → date_ltb d r = true →
              weekday d ≠ idx)
  ∧ (weekday today = 0 →
     ∃ r, _extract_due today (u "Please send the report by Friday") = Ok (Some (isoformat r))
          ∧ toordinal r = toordinal today + 4 ∧ weekday r = 4).
Proof.
  intros Hv Hmax. split.
  - intros. by eapply parse_weekday_phrase.
  - intros Hmon.
    destruct (parse_weekday_phrase today (u "by Friday") (u "by") false (u "friday") 4 Hv Hmax)
      as (r & k & Hp & _ & Hr & Hk & Hw & _); [set_solver|set_solver|by vm_compute|].
    exists r. split; [|split; [|done]].
    + unfold _extract_due. eval_searches. cbv beta iota. eval_groups. exact Hp.
    + unfold weekday in *. rewrite Hr in Hw. rewrite Hr.
      Z.div_mod_to_equations. lia.
Qed.

(** The Friday phrase on Monday 2 June 2025. *)
Lemma weekday_phrase_resolution_witness :
  valid_date monday = true
  ∧ (toordinal monday + 7 <= _MAXORDINAL)%Z
  ∧ weekday monday = 0%Z
  ∧ ∃ r, _extract_due monday (u "Please send the report by Friday") = Ok (Some (isoformat r))
         ∧ toordinal r = (toordinal monday + 4)%Z ∧ weekday r = 4%Z.
Proof.
  split; [vm_compute; reflexivity|]. split; [vm_compute; discriminate|].
  split; [vm_compute; reflexivity|].
  apply (weekday_phrase_resolution monday).
  - vm_compute. reflexivity.
  - vm_compute. discriminate.
  - vm_compute. reflexivity.
Defined.

Lemma date_eq a b : year a = year b → month a = month b → day a = day b → a = b.
Proof. destruct a, b; simpl; congruence. Qed.

Lemma toordinal_inj a b :
  valid_date a = true → valid_date b = true → toordinal a = toordinal b → a = b.
Proof.
  intros Ha Hb E.
  pose proof (date_ltb_toordinal a b Ha Hb) as H1.
  pose proof (date_ltb_toordinal b a Hb Ha) as H2.
  rewrite E, Z.ltb_irrefl in H1. rewrite E, Z.ltb_irrefl in H2.
  unfold date_ltb in H1, H2.
  destruct (Z.ltb_spec (year a) (year b)), (Z.ltb_spec (year b) (year a)),
    (Z.eqb_spec (year a) (year b)), (Z.eqb_spec (year b) (year a)),
    (Z.ltb_spec (month a) (month b)), (Z.ltb_spec (month b) (month a)),
    (Z.eqb_spec (month a) (month b)), (Z.eqb_spec (month b) (month a)),
    (Z.ltb_spec (day a) (day b)), (Z.ltb_spec (day b) (day a));
    cbn [orb andb] in H1, H2; try discriminate; try lia.
  apply date_eq; lia.
Qed.

(** The date of the ordinal of a date is that date. *)
Lemma fromordinal_toordinal d : valid_date d = true → fromordinal (toordinal d) = d.
Proof.
  intros Hv. pose proof (toordinal_range d Hv) as Hr.
  destruct (fromordinal_ok (toordinal d) Hr) as [Hv' Ho].
  by apply toordinal_inj.
Qed.

Lemma date_plus_ok d k :
  valid_date d = true → 1 <= toordinal d + k <= _MAXORDINAL →
  date_plus d k = Ok (fromordinal (toordinal d + k))
  ∧ valid_date (fromordinal (toordinal d + k)) = true
  ∧ toordinal (fromordinal (toordinal d + k)) = toordinal d + k.
Proof.
  intros Hv Hr. destruct (fromordinal_ok _ Hr) as [Hv' Ho].
  split; [|done]. unfold date_plus, add_days.
  replace ((0 <? toordinal d + k) && (toordinal d + k <=? _MAXORDINAL)) with true
    by (symmetry; apply andb_true_intro; split; lia).
  reflexivity.
Qed.

Lemma date_plus_overflow d k :
  _MAXORDINAL < toordinal d + k → date_plus d k = Raise OverflowError.
Proof.
  intros H. unfold date_plus, add_days.
  replace (toordinal d + k <=? _MAXORDINAL) with false by (symmetry; apply Z.leb_gt; lia).
  by rewrite andb_false_r.
Qed.

Lemma friday_arith T :
  let k := or7 ((4 - (T + 6) mod 7) mod 7) in
  1 <= k <= 7 ∧ (T + k + 6) mod 7 = 4
  ∧ (k = 7 ↔ (T + 6) mod 7 = 4)
  ∧ ∀ D, T < D < T + k → (D + 6) mod 7 ≠ 4.
Proof.
  unfold or7.
  pose proof (Z.mod_pos_bound (T + 6) 7 ltac:(lia)) as Hw.
  pose proof (Z.mod_pos_bound (4 - (T + 6) mod 7) 7 ltac:(lia)).
  destruct (Z.eqb_spec ((4 - (T + 6) mod 7) mod 7) 0) as [E|E]; cbv zeta.
  - repeat split; try lia.
    + Z.div_mod_to_equations. lia.
    + intros _. Z.div_mod_to_equations. lia.
    + intros D HD. Z.div_mod_to_equations. lia.
  - repeat split; try lia.
    + Z.div_mod_to_equations. lia.
    + intros ?. Z.div_mod_to_equations. lia.
    + intros D HD. Z.div_mod_to_equations. lia.
Qed.

(** When [_parse_date] takes its end-of-week branch, on an evaluation
    date that leaves a week before [date.max], the result is the first
    Friday strictly after today: [k] days ahead with [1 <= k <= 7], and a
    whole week ahead when today is a Friday.  "by end of week" is such a
    text. *)
Theorem end_of_week_is_next_friday today :
  valid_date today = true → toordinal today + 7 <= _MAXORDINAL →
  (∀ text,
     found (re_search eod_re (lower text)) = false →
     found (re_search end_of_week_re (lower text)) = true →
     ∃ r k,
       _parse_date today text = Ok (Some (isoformat r))
       ∧ valid_date r = true
       ∧ toordinal r = toordinal today + k ∧ 1 <= k <= 7
       ∧ weekday r = 4
       ∧ (k = 7 ↔ weekday today = 4)
       ∧ ∀ d, valid_date d = true → date_ltb today d = true → date_ltb d r = true →
              weekday d ≠ 4)
  ∧ ∃ r, _extract_due today (u "Send the deck by end of week") = Ok (Some (isoformat r))
         ∧ weekday r = 4 ∧ date_ltb today r = true.
Proof.
  intros Hv Hmax.
  pose proof (toordinal_range _ Hv) as Hr.
  destruct (friday_arith (toordinal today)) as (Hk & Hwd & H7 & Hmin).
  set (k := or7 ((4 - (toordinal today + 6) mod 7) mod 7)) in *.
  destruct (date_plus_ok today k Hv ltac:(lia)) as (Hplus & Hrv & Hro).
  assert (∀ text,
     found (re_search eod_re (lower text)) = false →
     found (re_search end_of_week_re (lower text)) = true →
     _parse_date today text = Ok (Some (isoformat (fromordinal (toordinal today + k))))) as Hrun.
  { intros text H1 H2. unfold _parse_date. cbv zeta. rewrite H1, H2.
    change (or7 ((4 - weekday today) mod 7)) with k. rewrite Hplus. reflexivity. }
  split.
  - intros text H1 H2. exists (fromordinal (toordinal today + k)), k.
    split; [by apply Hrun|]. split; [done|]. split; [done|]. split; [done|].
    split; [unfold weekday; by rewrite Hro|]. split; [done|].
    intros d Hd Hl1 Hl2. rewrite date_ltb_toordinal in Hl1, Hl2 by done.
    apply Z.ltb_lt in Hl1, Hl2. unfold weekday. apply Hmin. lia.
  - exists (fromordinal (toordinal today + k)).
    split; [|split].
    + unfold _extract_due. eval_searches. cbv beta iota. eval_groups.
      apply Hrun; vm_compute; reflexivity.
    + unfold weekday. by rewrite Hro.
    + rewrite date_ltb_toordinal by done. apply Z.ltb_lt. lia.
Qed.

(** Friday 6 June 2025: the end of the week is Friday 13 June. *)
Lemma end_of_week_is_next_friday_witness :
  valid_date {| year := 2025; month := 6; day := 6 |} = true
  ∧ weekday {| year := 2025; month := 6; day := 6 |} = 4
  ∧ _extract_due {| year := 2025; month := 6; day := 6 |} (u "Send the deck by end of week")
    = Ok (Some (u "2025-06-13"))
  ∧ ∃ r, _extract_due {| year := 2025; month := 6; day := 6 |} (u "Send the deck by end of week")
         = Ok (Some (isoformat r))
         ∧ weekday r = 4 ∧ date_ltb {| year := 2025; month := 6; day := 6 |} r = true.
Proof.
  split; [vm_compute; reflexivity|]. split; [vm_compute; reflexivity|].
  split; [vm_compute; reflexivity|].
  apply (end_of_week_is_next_friday {| year := 2025; month := 6; day := 6 |}).
  - vm_compute. reflexivity.
  - vm_compute. discriminate.
Defined.

Lemma day_28_valid d :
  valid_date d = true → valid_date {| year := year d; month := month d; day := 28 |} = true.
Proof.
  intros (Hy & Hm & Hd)%valid_date_fields.
  unfold valid_date, MINYEAR, MAXYEAR, _days_in_month. cbn [year month day].
  assert (28 <= (if (month d =? 2) && _is_leap (year d) then 29 else tab _DAYS_IN_MONTH (month d))).
  { destruct ((month d =? 2) && _is_leap (year d)); [lia|].
    pose proof (month_cases _ Hm) as Hc. rewrite !elem_of_cons in Hc.
    destruct Hc as [->|[->|[->|[->|[->|[->|[->|[->|[->|[->|[->|[->|Hc]]]]]]]]]]]];
      [vm_compute; discriminate..|by apply elem_of_nil in Hc]. }
  repeat (apply andb_true_intro; split); lia.
Qed.

Lemma days_in_month_range y m : 1 <= m <= 12 → 28 <= _days_in_month y m <= 31.
Proof.
  intros Hm. unfold _days_in_month.
  destruct ((m =? 2) && _is_leap y); [lia|].
  pose proof (month_cases _ Hm) as Hc. rewrite !elem_of_cons in Hc.
  destruct Hc as [->|[->|[->|[->|[->|[->|[->|[->|[->|[->|[->|[->|Hc]]]]]]]]]]]];
    [vm_compute; split; discriminate..|by apply elem_of_nil in Hc].
Qed.

Lemma month_step leap m :
  1 <= m <= 11 →
  tab _DAYS_BEFORE_MONTH (m + 1) + (if (2 <? m + 1) && leap then 1 else 0)
  = tab _DAYS_BEFORE_MONTH m + (if (2 <? m) && leap then 1 else 0)
    + (if (m =? 2) && leap then 29 else tab _DAYS_IN_MONTH m).
Proof.
  intros Hm.
  assert (m = 1 ∨ m = 2 ∨ m = 3 ∨ m = 4 ∨ m = 5 ∨ m = 6 ∨ m = 7 ∨ m = 8
          ∨ m = 9 ∨ m = 10 ∨ m = 11) as Hc by lia.
  destruct Hc as [->|[->|[->|[->|[->|[->|[->|[->|[->|[->| ->]]]]]]]]]];
    destruct leap; reflexivity.
Qed.

(** The first days of the month after [(y, m)]. *)
Lemma next_month_ordinal y m k :
  1 <= m <= 12 →
  _ymd2ord (if m =? 12 then y + 1 else y) (if m =? 12 then 1 else m + 1) k
  = _ymd2ord y m (_days_in_month y m) + k.
Proof.
  intros Hm. unfold _ymd2ord.
  destruct (Z.eqb_spec m 12) as [->|Hne].
  - rewrite days_before_year_step. unfold _days_before_month, _days_in_month.
    change (12 =? 2) with false. change (2 <? 12) with true. change (2 <? 1) with false.
    cbn [andb]. change (tab _DAYS_BEFORE_MONTH 12) with 334.
    change (tab _DAYS_BEFORE_MONTH 1) with 0. change (tab _DAYS_IN_MONTH 12) with 31.
    destruct (_is_leap y); lia.
  - unfold _days_before_month, _days_in_month.
    pose proof (month_step (_is_leap y) m ltac:(lia)). lia.
Qed.

Lemma last_of_month_valid d : valid_date d = true → valid_date (last_of_month d) = true.
Proof.
  intros (Hy & Hm & Hd)%valid_date_fields.
  pose proof (days_in_month_range (year d) (month d) Hm).
  unfold valid_date, last_of_month, MINYEAR, MAXYEAR. cbn [year month day].
  repeat (apply andb_true_intro; split); lia.
Qed.

(** What the end-of-month branch of [_parse_date] computes. *)
Lemma end_of_month_arith today :
  valid_date today = true →
  (nm ← match mk_date (year today) (month today) 28 with
        | Some d28 => date_plus d28 4
        | None => Raise ValueError
        end;
   d ← date_plus nm (- day nm); Ok (Some (isoformat d)))
  = if (year today =? 9999) && (month today =? 12) then Raise OverflowError
    else Ok (Some (isoformat (last_of_month today))).
Proof.
  intros Hv. pose proof (day_28_valid _ Hv) as H28.
  pose proof (last_of_month_valid _ Hv) as Hlv.
  pose proof (valid_date_fields _ Hv) as (Hy & Hm & Hd).
  pose proof (days_in_month_range (year today) (month today) Hm) as Hdim.
  rewrite (mk_date_valid _ _ _ H28).
  set (d28 := {| year := year today; month := month today; day := 28 |}) in *.
  set (dim := _days_in_month (year today) (month today)) in *.
  assert (toordinal d28 = toordinal (last_of_month today) - (dim - 28)) as H28o.
  { unfold toordinal, _ymd2ord, last_of_month, d28. cbn [year month day]. fold dim. lia. }
  pose proof (next_month_ordinal (year today) (month today) (32 - dim) Hm) as Hnext.
  fold dim in Hnext.
  set (y' := if month today =? 12 then year today + 1 else year today) in *.
  set (m' := if month today =? 12 then 1 else month today + 1) in *.
  set (nm := {| year := y'; month := m'; day := 32 - dim |}).
  assert (toordinal nm = toordinal d28 + 4) as Hnm.
  { unfold toordinal at 1. unfold nm. cbn [year month day]. rewrite Hnext, H28o.
    unfold toordinal, last_of_month. cbn [year month day]. fold dim. lia. }
  destruct (Z.eqb_spec (year today) 9999) as [Ey|Ey];
    destruct (Z.eqb_spec (month today) 12) as [Em|Em]; cbn [andb].
  { (* December 9999 *)
    rewrite date_plus_overflow; [done|].
    rewrite <- Hnm. unfold toordinal, nm, y', m', _ymd2ord. cbn [year month day].
    rewrite ?Em, ?Ey. cbv iota.
    change (9999 + 1) with 10000. change (_days_before_year 10000) with 3652059.
    unfold _MAXORDINAL, _days_before_month. change (2 <? 1) with false. cbn [andb].
    change (tab _DAYS_BEFORE_MONTH 1) with 0. lia. }
  all: assert (valid_date nm = true) as Hnv by
    (unfold valid_date, nm, MINYEAR, MAXYEAR; cbn [year month day];
     assert (1 <= m' <= 12) as Hm' by (unfold m'; destruct (month today =? 12); lia);
     pose proof (days_in_month_range y' m' Hm');
     assert (1 <= y' <= 9999) by (unfold y'; destruct (Z.eqb_spec (month today) 12); lia);
     repeat (apply andb_true_intro; split); lia).
  all: pose proof (toordinal_range _ Hnv) as Hnr;
    destruct (date_plus_ok d28 4 H28 ltac:(lia)) as (-> & _ & _);
    rewrite <- Hnm, (fromordinal_toordinal _ Hnv); cbn [mbind res_bind];
    pose proof (toordinal_range _ Hlv) as Hlr;
    assert (toordinal nm + - day nm = toordinal (last_of_month today)) as Hback
      by (unfold nm at 2; cbn [day]; lia);
    destruct (date_plus_ok nm (- day nm) Hnv ltac:(lia)) as (-> & _ & _);
    rewrite Hback, (fromordinal_toordinal _ Hlv); reflexivity.
Qed.

(** When [_parse_date] takes its end-of-month branch, the result is the
    last day of the current month; in December 9999 the step into the
    next month leaves the calendar and the call raises [OverflowError].
    "by end of month" is such a text. *)
Theorem end_of_month_is_last_day today :
  valid_date today = true →
  (∀ text,
     found (re_search eod_re (lower text)) = false →
     found (re_search end_of_week_re (lower text)) = false →
     found (re_search end_of_month_re (lower text)) = true →
     _parse_date today text
     = if (year today =? 9999) && (month today =? 12) then Raise OverflowError
       else Ok (Some (isoformat (last_of_month today))))
  ∧ _extract_due today (u "Invoice them by end of month")
    = (if (year today =? 9999) && (month today =? 12) then Raise OverflowError
       else Ok (Some (isoformat (last_of_month today))))
  ∧ valid_date (last_of_month today) = true
  ∧ date_ltb (last_of_month today) today = false
  ∧ (∀ d, valid_date d = true → year d = year today → month d = month today →
          date_ltb (last_of_month today) d = false).
Proof.
  intros Hv.
  assert (∀ text,
     found (re_search eod_re (lower text)) = false →
     found (re_search end_of_week_re (lower text)) = false →
     found (re_search end_of_month_re (lower text)) = true →
     _parse_date today text
     = if (year today =? 9999) && (month today =? 12) then Raise OverflowError
       else Ok (Some (isoformat (last_of_month today)))) as Hrun.
  { intros text H1 H2 H3. unfold _parse_date. cbv zeta. rewrite H1, H2, H3.
    by apply end_of_month_arith. }
  split; [exact Hrun|]. split.
  { unfold _extract_due. eval_searches. cbv beta iota. eval_groups.
    apply Hrun; vm_compute; reflexivity. }
  split; [by apply last_of_month_valid|].
  assert (∀ d, valid_date d = true → year d = year today → month d = month today →
               date_ltb (last_of_month today) d = false) as Hlast.
  { intros d (Hy & Hm & Hd)%valid_date_fields Ey Em.
    unfold date_ltb, last_of_month. cbn [year month day]. rewrite Ey, Em.
    rewrite Z.ltb_irrefl, Z.eqb_refl, Z.ltb_irrefl, Z.eqb_refl. cbn [orb andb].
    apply Z.ltb_ge. unfold month_len, _days_in_month in *. rewrite <- Ey, <- Em. lia. }
  split; [|exact Hlast]. by apply Hlast.
Qed.

(** Monday 2 June 2025: the end of the month is 30 June. *)
Lemma end_of_month_is_last_day_witness :
  valid_date monday = true
  ∧ _extract_due monday (u "Invoice them by end of month") = Ok (Some (u "2025-06-30")).
Proof.
  split; [vm_compute; reflexivity|].
  destruct (end_of_month_is_last_day monday) as (_ & H & _); [vm_compute; reflexivity|].
  exact H.
Defined.

Lemma date_ltb_true a b :
  date_ltb a b = true
  ↔ year a < year b
    ∨ (year a = year b ∧ (month a < month b ∨ (month a = month b ∧ day a < day b))).
Proof.
  unfold date_ltb.
  destruct (Z.ltb_spec (year a) (year b)), (Z.eqb_spec (year a) (year b)),
    (Z.ltb_spec (month a) (month b)), (Z.eqb_spec (month a) (month b)),
    (Z.ltb_spec (day a) (day b)); cbn [orb andb]; split; try done; lia.
Qed.

Lemma date_ltb_false a b :
  date_ltb a b = false
  ↔ year b < year a
    ∨ (year a = year b ∧ (month b < month a ∨ (month a = month b ∧ day b <= day a))).
Proof.
  unfold date_ltb.
  destruct (Z.ltb_spec (year a) (year b)), (Z.eqb_spec (year a) (year b)),
    (Z.ltb_spec (month a) (month b)), (Z.eqb_spec (month a) (month b)),
    (Z.ltb_spec (day a) (day b)); cbn [orb andb]; split; try done; lia.
Qed.

Lemma month_phrases_checked kw e dd :
  kw ∈ due_keywords → e ∈ _MONTHS → 1 <= dd <= 31 → month_phrase_check kw e dd = true.
Proof.
  intros Hk He Hd.
  assert (forallb (fun kw => forallb (fun e => forallb (month_phrase_check kw e)
                                                  (Z.of_nat <$> seq 1 31)) _MONTHS)
                  due_keywords = true) as H
    by (vm_compute; reflexivity).
  rewrite forallb_forall in H. specialize (H kw ltac:(by apply list_elem_of_In)).
  rewrite forallb_forall in H. specialize (H e ltac:(by apply list_elem_of_In)).
  rewrite forallb_forall in H. apply H. apply list_elem_of_In.
  apply list_elem_of_fmap. exists (Z.to_nat dd). split; [lia|].
  apply elem_of_seq. lia.
Qed.

(** What [_parse_date] returns for a month phrase. *)
Lemma parse_month_phrase today text kw name mo dd :
  kw ∈ due_keywords → (name, mo) ∈ _MONTHS → 1 <= dd <= 31 →
  lower text = month_phrase kw name dd →
  let this_year := {| year := year today; month := mo; day := dd |} in
  let next_year := {| year := year today + 1; month := mo; day := dd |} in
  _parse_date today text
  = Ok (if valid_date this_year
        then if date_ltb this_year today
             then if valid_date next_year then Some (isoformat next_year) else None
             else Some (isoformat this_year)
        else None).
Proof.
  intros Hkw He Hdd Hlow this_year next_year.
  pose proof (month_phrases_checked kw _ dd Hkw He Hdd) as Hc. unfold month_phrase_check in Hc.
  cbn [fst snd] in Hc. rewrite <- Hlow in Hc.
  repeat (apply andb_prop in Hc as [Hc ?]).
  repeat match goal with H : negb _ = true |- _ => apply negb_true_iff in H end.
  repeat match goal with H : bool_decide _ = true |- _ => apply bool_decide_eq_true in H end.
  unfold _parse_date. cbv zeta.
  repeat match goal with H : found _ = false |- _ => rewrite H end.
  assert (∀ r s, found (re_search r s) = false → re_search r s = None) as Hnone.
  { intros r s Hf. unfold found in Hf. apply bool_decide_eq_false in Hf.
    destruct (re_search r s); [|done]. exfalso. apply Hf. by eexists. }
  rewrite (Hnone weekday_re) by done.
  unfold parse_month_day.
  destruct (re_search month_day_re (lower text)) as [m|]; [|done].
  assert (default [] (group m 1) = name) as Hg1 by (apply (inj Some); assumption).
  assert (int_of (default [] (group m 2)) = dd) as Hg2 by (apply (inj Some); assumption).
  assert (truthy (group m 3) = None) as Hg3 by (apply (inj Some); assumption).
  rewrite Hg1, Hg2, Hg3.
  match goal with H : dict_get _ _ = _ |- _ => rewrite H end.
  cbn [mbind res_bind]. unfold mk_date. fold this_year.
  unfold parse_iso. rewrite (Hnone iso_re) by done.
  unfold parse_slash. rewrite (Hnone slash_re) by done.
  destruct (valid_date this_year) eqn:Hv1; cbn [mbind option_bind try_value]; [|done].
  destruct (date_ltb this_year today) eqn:Hlt; [|reflexivity].
  change {| year := year today + 1; month := month this_year; day := day this_year |}
    with next_year.
  destruct (valid_date next_year); reflexivity.
Qed.

(** A due phrase that names a month and a day resolves to the next
    occurrence of that calendar day: in the current year if the day is
    today or still ahead, in the next year if it is past; the result is
    never before today, and no earlier date from today on has that month
    and day.  The call returns no date when the day does not exist in the
    year it would fall in (30 February; 29 February outside leap years). *)
Theorem month_name_next_occurrence today text kw name mo dd :
  valid_date today = true →
  kw ∈ due_keywords → (name, mo) ∈ _MONTHS → 1 <= dd <= 31 →
  lower text = month_phrase kw name dd →
  let this_year := {| year := year today; month := mo; day := dd |} in
  let next_year := {| year := year today + 1; month := mo; day := dd |} in
  _parse_date today text
  = Ok (if valid_date this_year
        then if date_ltb this_year today
             then if valid_date next_year then Some (isoformat next_year) else None
             else Some (isoformat this_year)
        else None)
  ∧ (∀ s, _parse_date today text = Ok (Some s) →
       ∃ r, s = isoformat r ∧ valid_date r = true ∧ month r = mo ∧ day r = dd
            ∧ date_ltb r today = false
            ∧ ∀ d, valid_date d = true → month d = mo → day d = dd →
                   date_ltb d today = false → date_ltb d r = false).
Proof.
  intros Hv Hkw He Hdd Hlow this_year next_year.
  pose proof (parse_month_phrase today text kw name mo dd Hkw He Hdd Hlow) as Hrun.
  cbv zeta in Hrun. fold this_year next_year in Hrun.
  split; [exact Hrun|].
  intros s Hs. rewrite Hrun in Hs.
  destruct (valid_date this_year) eqn:Hv1; [|done].
  destruct (date_ltb this_year today) eqn:Hlt.
  - destruct (valid_date next_year) eqn:Hv2; [|done].
    injection Hs as <-. exists next_year. repeat split; try done.
    + apply date_ltb_true in Hlt. apply date_ltb_false.
      unfold next_year, this_year in *. cbn [year month day] in *. lia.
    + intros d Hd Hm Hdy Hge. apply date_ltb_true in Hlt.
      apply date_ltb_false in Hge. apply date_ltb_false.
      unfold next_year, this_year in *. cbn [year month day] in *. lia.
  - injection Hs as <-. exists this_year. repeat split; try done.
    intros d Hd Hm Hdy Hge. apply date_ltb_false in Hlt.
    apply date_ltb_false in Hge. apply date_ltb_false.
    unfold this_year in *. cbn [year month day] in *. lia.
Qed.

(** On 1 June 2025, "By March 5" is 5 March 2026. *)
Lemma month_name_next_occurrence_witness :
  valid_date first_of_june = true
  ∧ _parse_date first_of_june (u "By March 5") = Ok (Some (u "2026-03-05"))
  ∧ (∀ s, _parse_date first_of_june (u "By March 5") = Ok (Some s) →
       ∃ r, s = isoformat r ∧ valid_date r = true ∧ month r = 3 ∧ day r = 5
            ∧ date_ltb r first_of_june = false
            ∧ ∀ d, valid_date d = true → month d = 3 → day d = 5 →
                   date_ltb d first_of_june = false → date_ltb d r = false).
Proof.
  split; [vm_compute; reflexivity|].
  apply (month_name_next_occurrence first_of_june (u "By March 5") (u "by") (u "march") 3 5).
  - vm_compute. reflexivity.
  - set_solver.
  - set_solver.
  - lia.
  - vm_compute. reflexivity.
Defined.

Local Close Scope Z_scope.

(** ** Captured groups, and the extractor as a whole *)

Lemma captured_mono s k r r' c :
  (∀ a, a ∈ bodies k r → a ∈ bodies k r') → captured s k r c → captured s k r' c.
Proof. intros H (i & j & a & ? & ? & ?). exists i, j, a. auto. Qed.

Section Captures.
Variable s : str.
Variable k : nat.

Lemma star_loop_caps a fuel :
  (∀ st e, e ∈ ends s a st → cap k e.2 = cap k st.2 ∨ captured s k a e.2) →
  ∀ st e, e ∈ star_loop (ends s a) fuel st →
          cap k e.2 = cap k st.2 ∨ captured s k a e.2.
Proof.
  intros Hstep. induction fuel as [|fuel IH]; intros st e He; simpl in He.
  - apply list_elem_of_singleton in He as ->. by left.
  - apply elem_of_app in He as [He|He].
    + apply list_elem_of_In, in_flat_map in He as (st' & Hst' & He).
      apply list_elem_of_In in Hst', He.
      destruct (st.1 <? st'.1); [|by apply elem_of_nil in He].
      destruct (IH st' e He) as [E|?]; [|by right].
      destruct (Hstep st st' Hst') as [E'|(i & j & b & Hc & ?)]; [left; congruence|].
      right. exists i, j, b. split; [congruence|done].
    + apply list_elem_of_singleton in He as ->. by left.
Qed.

(** A group of the final state is the one of the start state, or was set
    by a group of the pattern; it was set if every way through the pattern
    passes such a group. *)
Lemma ends_caps r : ∀ st e,
  e ∈ ends s r st →
  (cap k e.2 = cap k st.2 ∨ captured s k r e.2)
  ∧ (always k r = true → captured s k r e.2).
Proof.
  induction r as [| |cs|a IHa b IHb|a IHa b IHb|a IHa|k' a IHa|ml|ml| |cs];
    intros st e He; cbn [ends always] in *.
  - apply list_elem_of_singleton in He as ->. split; [by left|done].
  - by apply elem_of_nil in He.
  - destruct (s !! st.1) as [c|]; [|by apply elem_of_nil in He].
    destruct (cs_match cs c); [|by apply elem_of_nil in He].
    apply list_elem_of_singleton in He as ->. split; [by left|done].
  - apply list_elem_of_In, in_flat_map in He as (mid & Hmid & He).
    apply list_elem_of_In in Hmid, He.
    destruct (IHa _ _ Hmid) as [Ha1 Ha2]. destruct (IHb _ _ He) as [Hb1 Hb2].
    assert (captured s k a mid.2 → captured s k (Seq a b) e.2) as Hcarry.
    { intros (i & j & x & Hc & Hx & Hm). destruct Hb1 as [E|Hb1].
      - exists i, j, x. split; [congruence|]. split; [|done].
        cbn [bodies]. apply elem_of_app. by left.
      - eapply captured_mono; [|exact Hb1]. intros y Hy. cbn [bodies].
        apply elem_of_app. by right. }
    split.
    + destruct Hb1 as [E|Hb1].
      * destruct Ha1 as [E'|Ha1]; [left; congruence|]. right. by apply Hcarry.
      * right. eapply captured_mono; [|exact Hb1]. intros y Hy. cbn [bodies].
        apply elem_of_app. by right.
    + intros [H|H]%orb_true_iff.
      * apply Hcarry. by apply Ha2.
      * eapply captured_mono; [|by apply Hb2]. intros y Hy. cbn [bodies].
        apply elem_of_app. by right.
  - apply elem_of_app in He as [He|He].
    + destruct (IHa _ _ He) as [H1 H2]. split.
      * destruct H1; [by left|]. right. eapply captured_mono; [|done].
        intros y Hy. cbn [bodies]. apply elem_of_app. by left.
      * intros [H _]%andb_true_iff. eapply captured_mono; [|by apply H2].
        intros y Hy. cbn [bodies]. apply elem_of_app. by left.
    + destruct (IHb _ _ He) as [H1 H2]. split.
      * destruct H1; [by left|]. right. eapply captured_mono; [|done].
        intros y Hy. cbn [bodies]. apply elem_of_app. by right.
      * intros [_ H]%andb_true_iff. eapply captured_mono; [|by apply H2].
        intros y Hy. cbn [bodies]. apply elem_of_app. by right.
  - split; [|done].
    eapply (star_loop_caps a); [|exact He]. intros st0 e0 H0. by apply IHa.
  - apply list_elem_of_fmap in He as (e' & -> & He').
    destruct (IHa _ _ He') as [H1 H2]. cbn [fst snd].
    destruct (decide (k' = k)) as [->|Hne].
    + assert (captured s k (Grp k a) ((k, (st.1, e'.1)) :: e'.2)) as Hc.
      { exists st.1, e'.1, a. split; [|split].
        - unfold cap. cbn [list_find fst]. by case_decide.
        - cbn [bodies]. rewrite decide_True by done. by left.
        - by apply ends_sound in He'. }
      split; [by right|done].
    + assert (cap k ((k', (st.1, e'.1)) :: e'.2) = cap k e'.2) as Hk.
      { unfold cap. cbn [list_find fst]. case_decide; [done|].
        by destruct (list_find _ e'.2) as [[? ?]|]. }
      assert (captured s k a e'.2 → captured s k (Grp k' a) ((k', (st.1, e'.1)) :: e'.2)) as Hc.
      { intros (i & j & x & ? & ? & ?). exists i, j, x. rewrite Hk.
        split; [done|]. split; [|done]. cbn [bodies]. by case_decide. }
      rewrite Hk. split.
      * destruct H1; [by left|]. right. by apply Hc.
      * rewrite bool_decide_eq_false_2 by done. cbn [orb]. intros H. by apply Hc, H2.
  - destruct (bol s ml st.1); [|by apply elem_of_nil in He].
    apply list_elem_of_singleton in He as ->. split; [by left|done].
  - destruct (eol s ml st.1); [|by apply elem_of_nil in He].
    apply list_elem_of_singleton in He as ->. split; [by left|done].
  - destruct (word_boundary s st.1); [|by apply elem_of_nil in He].
    apply list_elem_of_singleton in He as ->. split; [by left|done].
  - destruct (behind s cs st.1); [|by apply elem_of_nil in He].
    apply list_elem_of_singleton in He as ->. split; [by left|done].
Qed.

End Captures.

Lemma search_from_match r s fuel : ∀ i m,
  search_from r s fuel i = Some m → ∃ j, match_at r s j = Some m.
Proof.
  induction fuel as [|fuel IH]; intros i m H; simpl in H.
  - destruct (match_at r s i) eqn:E; [|done]. injection H as <-. eauto.
  - destruct (match_at r s i) eqn:E; [injection H as <-; eauto|]. eauto.
Qed.

(** The text of a group that every way through the pattern passes. *)
Lemma search_group r s m k :
  k ≠ 0 → always k r = true → re_search r s = Some m →
  ∃ i j a, group m k = Some (take (j - i) (drop i s)) ∧ a ∈ bodies k r ∧ matches s a i j.
Proof.
  intros Hk Ha Hs. apply search_from_match in Hs as (p & Hm).
  unfold match_at in Hm.
  destruct (ends s r (p, [])) as [|e l] eqn:E; [done|].
  cbn in Hm. injection Hm as <-.
  destruct (ends_caps s k r (p, []) e ltac:(rewrite E; left)) as [_ H].
  destruct (H Ha) as (i & j & a & Hc & Hin & Hmat).
  exists i, j, a. split; [|done].
  unfold group. cbn [m_caps m_subject m_start m_end]. destruct k; [done|].
  unfold cap in Hc. destruct (list_find _ e.2) as [[? [? [? ?]]]|]; [|done].
  cbn in Hc. by injection Hc as -> ->.
Qed.

(** A word matched character by character. *)
Lemma chars_at s w : ∀ i j,
  matches s (chain (chars w)) i j → take (j - i) (drop i s) = w.
Proof.
  induction w as [|c w IH]; intros i j H.
  - cbn in H. apply matches_eps_iff in H as ->. by rewrite Nat.sub_diag.
  - change (chars (c :: w)) with (Chr (one c) :: chars w) in H.
    apply chain_cons in H as (m & Hc & Hr).
    apply matches_chr_iff in Hc as (-> & x & Hx & Hcs).
    apply cs_match_one in Hcs as ->.
    pose proof (matches_le _ _ _ _ Hr) as Hle.
    specialize (IH _ _ Hr).
    replace (j - i) with (S (j - S i)) by lia.
    rewrite (drop_S _ _ _ Hx). cbn [take]. by rewrite IH.
Qed.

Lemma word_alts_at s ws i j :
  matches s (alts ((fun w => chain (chars w)) <$> ws)) i j →
  take (j - i) (drop i s) ∈ ws.
Proof.
  intros (r & Hr & Hm)%alts_iff. apply list_elem_of_fmap in Hr as (w & -> & Hw).
  by rewrite (chars_at _ _ _ _ Hm).
Qed.

Local Open Scope Z_scope.


Lemma month_group_body :
  always 1 month_day_re = true
  ∧ bodies 1 month_day_re = [alts ((fun w => chain (chars w)) <$> (fst <$> _MONTHS))].
Proof. split; vm_compute; reflexivity. Qed.


(** The month pattern captures a key of [_MONTHS]. *)
Lemma month_group t m :
  re_search month_day_re t = Some m →
  ∃ mo, dict_get _MONTHS (default [] (group m 1)) = Ok mo.
Proof.
  intros Hs. destruct month_group_body as [Ha Hb].
  destruct (search_group _ _ _ 1%nat ltac:(done) Ha Hs) as (i & j & a & -> & Hin & Hm).
  rewrite Hb in Hin. apply list_elem_of_singleton in Hin as ->.
  apply word_alts_at in Hm. cbn [default].
  assert (Forall (fun name => ∃ mo, dict_get _MONTHS name = Ok mo) (fst <$> _MONTHS)) as Hall.
  { repeat constructor; eexists; vm_compute; reflexivity. }
  rewrite Forall_forall in Hall. by apply Hall.
Qed.

Lemma mk_date_iso y m d : iso_or_none (isoformat <$> mk_date y m d).
Proof.
  intros s. unfold mk_date. destruct (valid_date _) eqn:E; [|done].
  intros [= <-]. eauto.
Qed.

Lemma date_plus_valid d k r : date_plus d k = Ok r → valid_date r = true.
Proof.
  unfold date_plus, add_days.
  destruct ((0 <? toordinal d + k) && (toordinal d + k <=? _MAXORDINAL)) eqn:E; [|done].
  intros [= <-]. apply andb_prop in E as [E1 E2].
  apply Z.ltb_lt in E1. apply Z.leb_le in E2.
  apply fromordinal_ok. lia.
Qed.

Lemma parse_slash_iso today t : ∃ o, parse_slash today t = Ok o ∧ iso_or_none o.
Proof.
  unfold parse_slash. destruct (re_search slash_re t) as [m|]; [|by exists None].
  match goal with |- context [mk_date ?y ?mo ?d] =>
    pose proof (mk_date_iso y mo d) as Hiso; destruct (mk_date y mo d) as [r|] end;
    cbn [fmap option_fmap option_map try_value] in *.
  - eexists. split; [reflexivity|done].
  - by exists None.
Qed.

Lemma parse_iso_iso today t : ∃ o, parse_iso today t = Ok o ∧ iso_or_none o.
Proof.
  unfold parse_iso. destruct (re_search iso_re t) as [m|]; [|apply parse_slash_iso].
  match goal with |- context [mk_date ?y ?mo ?d] =>
    pose proof (mk_date_iso y mo d) as Hiso; destruct (mk_date y mo d) as [r|] end;
    cbn [fmap option_fmap option_map try_value] in *.
  - eexists. split; [reflexivity|done].
  - apply parse_slash_iso.
Qed.

Lemma parse_month_day_iso today t : ∃ o, parse_month_day today t = Ok o ∧ iso_or_none o.
Proof.
  unfold parse_month_day.
  destruct (re_search month_day_re t) as [m|] eqn:Hs; [|apply parse_iso_iso].
  destruct (month_group _ _ Hs) as (mo & ->). cbn [mbind res_bind].
  match goal with |- context [mk_date ?y mo ?d] =>
    pose proof (mk_date_iso y mo d) as Hiso; destruct (mk_date y mo d) as [r|] end;
    cbn [mbind option_bind try_value]; [|apply parse_iso_iso].
  destruct (date_ltb r today).
  - match goal with |- context [mk_date ?y ?mo ?d] =>
      pose proof (mk_date_iso y mo d) as Hiso'; destruct (mk_date y mo d) as [r'|] end;
      cbn [mbind option_bind try_value]; [|apply parse_iso_iso].
    eexists. split; [reflexivity|]. done.
  - cbn [mbind option_bind try_value]. eexists. split; [reflexivity|].
    intros s [= <-]. destruct (Hiso _ eq_refl) as (r0 & ? & ?). eauto.
Qed.



(** A date [_parse_date] returns is the ISO form of a calendar date. *)
Lemma parse_date_iso today text o :
  valid_date today = true → _parse_date today text = Ok o → iso_or_none o.
Proof.
  intros Hv. unfold _parse_date. cbv zeta.
  destruct (found (re_search eod_re (lower text))).
  { intros [= <-] s [= <-]. eauto. }
  destruct (found (re_search end_of_week_re (lower text))).
  { destruct (date_plus _ _) as [d|] eqn:E; [|done]. intros [= <-] s [= <-].
    apply date_plus_valid in E. eauto. }
  destruct (found (re_search end_of_month_re (lower text))).
  { destruct (mk_date _ _ _) as [d28|]; [|done].
    destruct (date_plus d28 4) as [nm|]; [|done]. cbn [mbind res_bind].
    destruct (date_plus nm _) as [d|] eqn:E; [|done]. intros [= <-] s [= <-].
    apply date_plus_valid in E. eauto. }
  destruct (re_search weekday_re (lower text)) as [m|] eqn:Hs.
  { unfold _next_weekday. destruct (dict_get _ _) as [idx|]; [|done].
    cbn [mbind res_bind]. destruct (date_plus _ _) as [d|] eqn:E; [|done].
    intros [= <-] s [= <-]. apply date_plus_valid in E. eauto. }
  destruct (parse_month_day_iso today (lower text)) as (o' & -> & Ho). by intros [= <-].
Qed.

Local Close Scope Z_scope.


Lemma extract_due_iso today sentence o :
  valid_date today = true → _extract_due today sentence = Ok o → iso_or_none o.
Proof.
  intros Hv. unfold _extract_due.
  destruct (re_search _due_phrase_re sentence); [by apply parse_date_iso|].
  by intros [= <-].
Qed.







(** On the last day of the calendar a weekday phrase makes the whole call
    raise. *)
Lemma extract_action_items_at_date_max :
  (extract_action_items (u "Justin Miller") {| year := 9999; month := 12; day := 31 |}
     (u "email") (u "Justin, please send the deck by Friday") fresh_world).1
  = Raise OverflowError.
Proof. vm_compute. reflexivity. Qed.

(** Every due date [extract_action_items] returns is the ISO form
    YYYY-MM-DD, ten characters long, of a date of the calendar. *)
Theorem extracted_due_dates_are_dates USER_NAME today source_type content w items w' :
  valid_date today = true →
  extract_action_items USER_NAME today source_type content w = (Ok items, w') →
  Forall (fun it => ∀ s, due_date it = Some s →
                         length s = 10 ∧ ∃ r, s = isoformat r ∧ valid_date r = true) items.
Proof.
  intros Hv Hrun. apply extract_items in Hrun. eapply Forall_impl; [exact Hrun|].
  intros it (i & line & _ & _ & _ & _ & _ & Hd & _) s Hs.
  destruct (extract_due_iso _ _ _ Hv Hd s Hs) as (r & -> & Hr).
  split; [apply isoformat_length|eauto].
Qed.

(** The due date of a line that asks for something by end of week. *)
Lemma extracted_due_dates_are_dates_witness :
  let run := extract_action_items (u "Justin Miller") monday (u "email")
               (u "Justin, please send the deck by end of week") fresh_world in
  valid_date monday = true
  ∧ ∃ items, run.1 = Ok items
      ∧ due_date <$> items = [Some (u "2025-06-06")]
      ∧ Forall (fun it => ∀ s, due_date it = Some s →
                   length s = 10 ∧ ∃ r, s = isoformat r ∧ valid_date r = true) items.
Proof.
  intros run. split; [vm_compute; reflexivity|].
  destruct run as [[items|e] w'] eqn:E; [|vm_compute in E; discriminate].
  exists items. split; [done|].
  split; [vm_compute in E; injection E as <- _; vm_compute; reflexivity|].
  apply (extracted_due_dates_are_dates (u "Justin Miller") monday (u "email")
           (u "Justin, please send the deck by end of week") fresh_world items w').
  - vm_compute. reflexivity.
  - exact E.
Defined.

Lemma loop_body_keys USER_NAME today lines il st w st' w' :
  NoDup (seen_key <$> st.1) ∧ (∀ it, it ∈ st.1 → seen_key it ∈ st.2) →
  loop_body USER_NAME today lines il st w = (Ok st', w') →
  NoDup (seen_key <$> st'.1) ∧ (∀ it, it ∈ st'.1 → seen_key it ∈ st'.2).
Proof.
  intros [Hnd Hin]. destruct il as [i line]. unfold loop_body.
  destruct (hard_skip line); [by intros [= <- <-]|].
  destruct (no_signal _ _ _); [by intros [= <- <-]|].
  unfold mbind at 1. unfold M_bind, lift.
  destruct (_extract_due today (context lines i line)) as [due|e]; [|done].
  destruct (_ || _); [by intros [= <- <-]|].
  case_bool_decide as Hkey; [by intros [= <- <-]|].
  unfold mbind, M_bind, log. intros [= <- <-]. cbn [fst snd]. split.
  - rewrite fmap_app. apply NoDup_app. split; [done|]. split; [|apply NoDup_singleton].
    intros x Hx Hx'. apply list_elem_of_singleton in Hx' as ->.
    apply list_elem_of_fmap in Hx as (it & E & Hit). apply Hkey.
    specialize (Hin it Hit). rewrite <- E in Hin. exact Hin.
  - intros it [Hit|Hit]%elem_of_app.
    + apply elem_of_union. right. by apply Hin.
    + apply list_elem_of_singleton in Hit as ->. apply elem_of_union. left.
      by apply elem_of_singleton.
Qed.

(** No two items of one call of [extract_action_items] agree, letter case
    aside, on the first 80 characters of their text; in particular no two
    items carry the same text. *)
Theorem extracted_items_distinct USER_NAME today source_type content w items w' :
  extract_action_items USER_NAME today source_type content w = (Ok items, w') →
  NoDup (seen_key <$> items) ∧ NoDup (text <$> items).
Proof.
  unfold extract_action_items, mbind, M_bind.
  destruct (for_each _ _ _ w) as [[st|e] w1] eqn:E; [|done].
  intros [= <- <-].
  assert (NoDup (seen_key <$> st.1)) as Hnd.
  { eapply (for_each_inv (fun st : loop_state =>
              NoDup (seen_key <$> st.1) ∧ (∀ it, it ∈ st.1 → seen_key it ∈ st.2))) in E.
    - apply E.
    - intros il s w0 s' w0' _ Hs Hrun. by eapply loop_body_keys.
    - split; [constructor|]. intros it Hit. by apply elem_of_nil in Hit. }
  split; [done|].
  apply (NoDup_fmap_1 (fun t => take 80 (lower (default [] t)))).
  by rewrite <- list_fmap_compose.
Qed.

(** The same request on two lines, the second in capitals, gives one
    item. *)
Lemma extracted_items_distinct_witness :
  let content := u "Justin, please send the deck" ++ [LF] ++ u "JUSTIN, PLEASE SEND THE DECK" in
  let run := extract_action_items (u "Justin Miller") monday (u "email") content fresh_world in
  ∃ items, run.1 = Ok items ∧ length items = 1
           ∧ NoDup (seen_key <$> items) ∧ NoDup (text <$> items).
Proof.
  intros content run.
  destruct run as [[items|e] w'] eqn:E; [|vm_compute in E; discriminate].
  exists items. split; [done|].
  split; [vm_compute in E; injection E as <- _; reflexivity|].
  exact (extracted_items_distinct (u "Justin Miller") monday (u "email") content
           fresh_world items w' E).
Defined.

(** ** The merger *)

Lemma all_texts_spec tasks x :
  x ∈ all_texts tasks ↔ ∃ t, t ∈ tasks_of tasks ∧ lower (t_text t) = x.
Proof.
  unfold all_texts, tasks_of. rewrite elem_of_list_to_set.
  rewrite list_elem_of_bind. setoid_rewrite list_elem_of_bind.
  split.
  - intros (c & (t & Hx & Ht) & Hc). apply list_elem_of_singleton in Hx.
    exists t. split; [|done]. rewrite elem_of_app.
    apply elem_of_cons in Hc as [->|Hc]; [by left|].
    apply list_elem_of_singleton in Hc as ->. by right.
  - intros (t & Ht & <-). apply elem_of_app in Ht as [Ht|Ht].
    + exists (u "today"). split; [|by left]. exists t. split; [by apply list_elem_of_singleton|done].
    + exists (u "longterm"). split; [|by right; left]. exists t. split; [by apply list_elem_of_singleton|done].
Qed.

Lemma count_text_pos txt tasks :
  lower txt ∈ all_texts tasks ↔ 0 < count_text txt tasks.
Proof.
  rewrite all_texts_spec. unfold count_text.
  split.
  - intros (t & Ht & Hl).
    assert (t ∈ filter (fun t => lower (t_text t) = lower txt) (tasks_of tasks)) as Hin
      by (apply list_elem_of_filter; auto).
    destruct (filter _ _); [inversion Hin | simpl; lia].
  - intros Hpos.
    destruct (filter (fun t => lower (t_text t) = lower txt) (tasks_of tasks)) as [|t l] eqn:E;
      [simpl in Hpos; lia|].
    assert (t ∈ filter (fun t => lower (t_text t) = lower txt) (tasks_of tasks)) as Hin
      by (rewrite E; left).
    apply list_elem_of_filter in Hin as [? ?]. eauto.
Qed.

Lemma today_ne_longterm : u "today" ≠ u "longterm".
Proof. vm_compute. discriminate. Qed.

(** The result of [add_auto_task], case by case. *)
Lemma add_auto_task_blank env item source detail w :
  strip (default [] (text item)) = [] →
  add_auto_task env item source detail w = (Ok (), w).
Proof. intros H. unfold add_auto_task. rewrite H. reflexivity. Qed.

Lemma add_auto_task_duplicate env item source detail w :
  let txt := strip (default [] (text item)) in
  txt ≠ [] →
  lower txt ∈ all_texts (stored w) →
  add_auto_task env item source detail w
  = (Ok (), logged (u "[auto-add] duplicate skipped: " ++ take 60 txt) w).
Proof.
  intros txt Hne Hin. unfold add_auto_task. fold txt.
  destruct txt as [|c t] eqn:E; [done|].
  unfold mbind, M_bind, load_tasks. rewrite bool_decide_eq_true_2 by done.
  reflexivity.
Qed.

Lemma add_auto_task_fresh env item source detail w :
  let txt := strip (default [] (text item)) in
  txt ≠ [] →
  lower txt ∉ all_texts (stored w) →
  ∃ task,
    t_text task = txt ∧ t_id task = uid env ∧ t_created task = now_ms env
    ∧ t_done task = false ∧ t_auto task = true
    ∧ t_source task = source ∧ t_sourceDetail task = detail
    ∧ t_priority task ∈ [u "high"; u "medium"; u "low"]
    ∧ add_auto_task env item source detail w
      = match stored w !! column env item with
        | None => (Raise (KeyError (column env item)), w)
        | Some bucket =>
            (Ok (),
             logged (u "[auto-add] [" ++ source ++ u " → " ++ column env item ++ u "] " ++ take 80 txt)
                    (set_tasks (<[column env item := bucket ++ [task]]> (stored w)) w))
        end.
Proof.
  intros txt Hne Hin. unfold add_auto_task, column. fold txt.
  destruct txt as [|c t] eqn:E; [done|].
  unfold mbind at 1. unfold M_bind, load_tasks. rewrite bool_decide_eq_false_2 by done.
  exists {| t_id := uid env; t_text := c :: t;
            t_priority :=
              (let p := default (u "medium") (priority item) in
               if bool_decide (p ∈ [u "high"; u "medium"; u "low"]) then p else u "medium");
            t_due := match due_date item with Some [] => None | d => d end;
            t_done := false; t_created := now_ms env; t_auto := true;
            t_source := source; t_sourceDetail := detail |}.
  repeat split; cycle -1.
  - destruct (due_date item) as [[|d0 d]|]; cbn match;
      try destruct (str_ltb _ _); destruct (stored w !! _); reflexivity.
  - simpl. case_bool_decide; [done|]. apply list_elem_of_In. vm_compute; auto.
Qed.

Lemma column_cases env item :
  column env item = u "today" ∨ column env item = u "longterm".
Proof.
  unfold column. destruct (due_date item) as [[|c d]|]; auto.
  destruct (str_ltb _ _); auto.
Qed.




(** Appending a task to a column adds it to the count when its text
    matches. *)
Lemma count_text_insert txt tasks col bucket task :
  col = u "today" ∨ col = u "longterm" →
  tasks !! col = Some bucket →
  count_text txt (<[col := bucket ++ [task]]> tasks)
  = count_text txt tasks + (if decide (lower (t_text task) = lower txt) then 1 else 0).
Proof.
  intros Hcol Hb. unfold count_text, tasks_of.
  destruct Hcol as [-> | ->].
  - rewrite lookup_insert_eq, lookup_insert_ne by apply today_ne_longterm.
    rewrite Hb. simpl. rewrite !filter_app, !length_app, filter_cons, filter_nil.
    destruct (decide _); simpl; lia.
  - rewrite lookup_insert_eq, lookup_insert_ne by (intros E; symmetry in E; by apply today_ne_longterm in E).
    rewrite Hb. simpl. rewrite !filter_app, !length_app, filter_cons, filter_nil.
    destruct (decide _); simpl; lia.
Qed.

Lemma lower_nil s : lower s = [] → s = [].
Proof.
  destruct s as [|c t]; [done|]. unfold lower. cbn [lower_from].
  destruct (c =? 931)%N; [done|]. unfold lower_full.
  destruct (c <? 128)%N; [done|]. unfold LOWER_SPECIAL. cbn [listed].
  by destruct (c =? 304)%N.
Qed.

(** C4, amended. On a store that has both columns, for candidates whose
    stripped text is not empty and equal letter case aside: both calls
    return, the second one writes nothing, and the store then holds one
    task with that text if it held none or one before (and as many as
    before otherwise). *)
Theorem add_twice_stores_once env1 env2 item1 item2 source1 detail1 source2 detail2 w :
  let txt1 := strip (default [] (text item1)) in
  let txt2 := strip (default [] (text item2)) in
  txt1 ≠ [] → lower txt1 = lower txt2 →
  is_Some (stored w !! u "today") → is_Some (stored w !! u "longterm") →
  let r1 := add_auto_task env1 item1 source1 detail1 w in
  let r2 := add_auto_task env2 item2 source2 detail2 r1.2 in
  r1.1 = Ok () ∧ r2.1 = Ok ()
  ∧ DATA_FILE r2.2 = DATA_FILE r1.2 ∧ DATA_WRITES r2.2 = DATA_WRITES r1.2
  ∧ count_text txt1 (stored r2.2) = Nat.max 1 (count_text txt1 (stored w)).
Proof.
  intros txt1 txt2 Hne Hlow Htoday Hlong r1 r2.
  assert (txt2 ≠ []) as Hne2.
  { intros E. rewrite E in Hlow. by apply lower_nil in Hlow. }
  assert (r1.1 = Ok () ∧ lower txt1 ∈ all_texts (stored r1.2)
          ∧ count_text txt1 (stored r1.2) = Nat.max 1 (count_text txt1 (stored w))) as (Hr1 & Hin1 & Hc1).
  { subst r1. destruct (decide (lower txt1 ∈ all_texts (stored w))) as [Hin|Hin].
    - rewrite add_auto_task_duplicate by done. cbn [fst snd].
      split; [done|]. split; [done|].
      apply count_text_pos in Hin. change (stored (logged _ w)) with (stored w). lia.
    - destruct (add_auto_task_fresh env1 item1 source1 detail1 w Hne Hin)
        as (task & Ht & _ & _ & _ & _ & _ & _ & _ & Hrun).
      rewrite Hrun.
      destruct (column_cases env1 item1) as [Hcol|Hcol]; rewrite Hcol.
      + destruct Htoday as [bucket Hb]. rewrite Hb. cbn [fst snd].
        change (stored (logged _ (set_tasks ?t w))) with t.
        split; [done|]. rewrite count_text_pos, count_text_insert by auto.
        fold txt1 in Ht. rewrite Ht, decide_True by done.
        assert (count_text txt1 (stored w) = 0) as ->; [|lia].
        destruct (count_text txt1 (stored w)) eqn:E; [done|].
        exfalso. apply Hin, count_text_pos. lia.
      + destruct Hlong as [bucket Hb]. rewrite Hb. cbn [fst snd].
        change (stored (logged _ (set_tasks ?t w))) with t.
        split; [done|]. rewrite count_text_pos, count_text_insert by auto.
        fold txt1 in Ht. rewrite Ht, decide_True by done.
        assert (count_text txt1 (stored w) = 0) as ->; [|lia].
        destruct (count_text txt1 (stored w)) eqn:E; [done|].
        exfalso. apply Hin, count_text_pos. lia. }
  subst r2. rewrite add_auto_task_duplicate; [|done|by fold txt2; rewrite <- Hlow].
  cbn [fst snd]. repeat split; try done.
Qed.

(** C10. A call of [add_auto_task] either leaves [tasks.json] unwritten or
    appends one task to the end of one of the two columns: that column
    keeps its tasks in front of the new one, every other column is as it
    was; a candidate with empty text or with a text already stored leaves
    the file unwritten; the ledger is untouched. *)
Theorem add_auto_task_frame env item source detail w :
  let txt := strip (default [] (text item)) in
  let w' := (add_auto_task env item source detail w).2 in
  ((DATA_FILE w' = DATA_FILE w ∧ DATA_WRITES w' = DATA_WRITES w)
   ∨ ∃ col bucket task,
       (col = u "today" ∨ col = u "longterm")
       ∧ stored w !! col = Some bucket
       ∧ stored w' !! col = Some (bucket ++ [task])
       ∧ (∀ c, c ≠ col → stored w' !! c = stored w !! c)
       ∧ DATA_WRITES w' = S (DATA_WRITES w))
  ∧ (txt = [] ∨ lower txt ∈ all_texts (stored w) →
     DATA_FILE w' = DATA_FILE w ∧ DATA_WRITES w' = DATA_WRITES w)
  ∧ PROCESSED_FILE w' = PROCESSED_FILE w ∧ _processed w' = _processed w.
Proof.
  intros txt w'. subst w'.
  destruct (decide (txt = [])) as [E|E].
  { rewrite add_auto_task_blank by done. cbn [snd]. auto. }
  destruct (decide (lower txt ∈ all_texts (stored w))) as [Hin|Hin].
  { rewrite add_auto_task_duplicate by done. cbn [snd]. split; [left|]; auto. }
  destruct (add_auto_task_fresh env item source detail w E Hin)
    as (task & Ht & _ & _ & _ & _ & _ & _ & _ & Hrun).
  rewrite Hrun. destruct (stored w !! column env item) as [bucket|] eqn:Hb; cbn [snd].
  - split; [|split; [intros [?|?]; done|done]].
    right. exists (column env item), bucket, task.
    split; [apply column_cases|]. split; [done|].
    change (stored (logged _ (set_tasks ?t w))) with t.
    split; [by rewrite lookup_insert_eq|]. split; [|done].
    intros c Hc. by rewrite lookup_insert_ne.
  - split; [by left|]. split; [intros [?|?]; done|done].
Qed.

(** The three placements on a fresh store, on Monday 2 June 2025: no due
    date, due tomorrow, due today. *)
Lemma bucket_examples :
  let add due :=
    stored (add_auto_task sample_env (candidate "Reply to Mike about X" due)
              (u "email") (u "Mike") fresh_world).2 in
  length <$> add None !! u "today" = Some 1
  ∧ length <$> add None !! u "longterm" = Some 0
  ∧ length <$> add (Some (u "2025-06-03")) !! u "today" = Some 0
  ∧ length <$> add (Some (u "2025-06-03")) !! u "longterm" = Some 1
  ∧ length <$> add (Some (u "2025-06-02")) !! u "today" = Some 1
  ∧ length <$> add (Some (u "2025-06-02")) !! u "longterm" = Some 0.
Proof. repeat (split; [vm_compute; reflexivity|]); vm_compute; reflexivity. Qed.

(** Two calls do not always leave one task: a candidate with blank text
    is stored by neither call, a text the store already holds twice stays
    twice, and on a store object without columns the call raises
    [KeyError] and stores nothing. *)
Lemma add_twice_not_always_once :
  count_text (u "   ") (stored (add_twice (candidate "   " None) fresh_world)) = 0
  ∧ count_text (u "Reply to Mike about X")
      (stored (add_twice (candidate "Reply to Mike about X" None) doubled_world)) = 2
  ∧ count_text (u "Reply to Mike about X")
      (stored (add_twice (candidate "Reply to Mike about X" None) bare_world)) = 0
  ∧ (add_auto_task sample_env (candidate "Reply to Mike about X" None) (u "email") (u "Mike")
       bare_world).1 = Raise (KeyError (u "today")).
Proof. split; [|split; [|split]]; vm_compute; reflexivity. Qed.

(** Two calls on a fresh store, the second candidate differing in letter
    case, white space, due date and source. *)
Lemma add_twice_stores_once_witness :
  let it1 := candidate "Reply to Mike about X" None in
  let it2 := candidate " reply to mike about x" (Some (u "2025-06-03")) in
  let r1 := add_auto_task sample_env it1 (u "email") (u "Mike") fresh_world in
  let r2 := add_auto_task sample_env it2 (u "slack") (u "#general") r1.2 in
  r1.1 = Ok () ∧ r2.1 = Ok ()
  ∧ DATA_FILE r2.2 = DATA_FILE r1.2 ∧ DATA_WRITES r2.2 = DATA_WRITES r1.2
  ∧ count_text (u "Reply to Mike about X") (stored r2.2) = 1.
Proof.
  intros it1 it2.
  apply (add_twice_stores_once sample_env sample_env it1 it2 (u "email") (u "Mike")
           (u "slack") (u "#general") fresh_world).
  - vm_compute. discriminate.
  - vm_compute. reflexivity.
  - eexists. vm_compute. reflexivity.
  - eexists. vm_compute. reflexivity.
Defined.


(** ** The ledger *)











(** ** Text *)

(** ** Stripping *)

Lemma lstrip_cases s :
  lstrip s = [] ∨ ∃ c t, lstrip s = c :: t ∧ is_space c = false.
Proof.
  induction s as [|c s IH]; [by left|]. simpl.
  destruct (is_space c) eqn:E; [done|]. right. eauto.
Qed.

Lemma lstrip_nonspace c t : is_space c = false → lstrip (c :: t) = c :: t.
Proof. intros H. simpl. by rewrite H. Qed.


Lemma lstrip_spaces ws s : Forall (fun c => is_space c = true) ws → lstrip (ws ++ s) = lstrip s.
Proof. induction 1 as [|c ws Hc _ IH]; [done|]. simpl. by rewrite Hc. Qed.

(** What [lstrip] removes is white space. *)
Lemma lstrip_split s :
  ∃ ws, s = ws ++ lstrip s ∧ Forall (fun c => is_space c = true) ws.
Proof.
  induction s as [|c s (ws & E & H)]; [by exists []|]. simpl.
  destruct (is_space c) eqn:Ec.
  - exists (c :: ws). split; [by rewrite <- app_comm_cons, <- E|by constructor].
  - by exists [].
Qed.

Lemma lstrip_snoc x c : is_space c = false → lstrip (x ++ [c]) = lstrip x ++ [c].
Proof.
  intros H. induction x as [|d x IH]; simpl; [by rewrite H|].
  destruct (is_space d); [done|reflexivity].
Qed.

Lemma rstrip_cons c t : is_space c = false → rstrip (c :: t) = c :: rstrip t.
Proof.
  intros H. unfold rstrip. rewrite reverse_cons, lstrip_snoc by done.
  by rewrite reverse_app, reverse_singleton.
Qed.


(** What [rstrip] removes is white space. *)
Lemma rstrip_split s :
  ∃ ws, s = rstrip s ++ ws ∧ Forall (fun c => is_space c = true) ws.
Proof.
  destruct (lstrip_split (reverse s)) as (ws & E & H).
  exists (reverse ws). split.
  - unfold rstrip. rewrite <- reverse_app, <- E. by rewrite reverse_involutive.
  - rewrite Forall_forall in *. intros c Hc. apply H. by apply elem_of_reverse.
Qed.

(** [strip] leaves the text between the white space at both ends. *)
Lemma strip_split s :
  ∃ a b, s = a ++ strip s ++ b
         ∧ Forall (fun c => is_space c = true) a ∧ Forall (fun c => is_space c = true) b.
Proof.
  destruct (lstrip_split s) as (a & Ea & Ha).
  destruct (rstrip_split (lstrip s)) as (b & Eb & Hb).
  exists a, b. split; [|done]. unfold strip. by rewrite <- Eb.
Qed.

Lemma strip_cases s :
  strip s = [] ∨ ∃ c t, lstrip s = c :: t ∧ strip s = c :: rstrip t ∧ is_space c = false.
Proof.
  unfold strip. destruct (lstrip_cases s) as [->|(c & t & -> & H)]; [by left|].
  right. exists c, t. by rewrite rstrip_cons.
Qed.


(** The first character of a stripped text is the first one that is not
    white space. *)
Lemma head_strip s : head (strip s) = head (lstrip s).
Proof.
  destruct (strip_cases s) as [E|(c & t & -> & -> & _)]; [|done].
  rewrite E. unfold strip in E. destruct (lstrip_cases s) as [->|(c & t & E' & H)]; [done|].
  rewrite E', rstrip_cons in E by done. done.
Qed.

(** ** Lines *)

Lemma join_cons sep p ps : ps ≠ [] → join sep (p :: ps) = p ++ sep ++ join sep ps.
Proof. by destruct ps. Qed.

Lemma split_on_nonempty c s : split_on c s ≠ [].
Proof.
  induction s as [|x s IH]; [done|]. simpl. destruct (x =? c)%N; [done|].
  by destruct (split_on c s).
Qed.

(** Joining the pieces of a split gives the text back. *)
Lemma join_split_on c s : join [c] (split_on c s) = s.
Proof.
  induction s as [|x s IH]; [done|]. simpl.
  destruct (N.eqb_spec x c) as [->|Hne].
  - rewrite join_cons by apply split_on_nonempty. by rewrite IH.
  - pose proof (split_on_nonempty c s) as Hn.
    destruct (split_on c s) as [|p ps]; [done|].
    destruct ps as [|q ps]; cbn [join] in *; by rewrite <- IH.
Qed.

(** No piece of a split holds the separator. *)
Lemma split_on_pieces c s : Forall (fun p => c ∉ p) (split_on c s).
Proof.
  induction s as [|x s IH]; simpl.
  - constructor; [|constructor]. by intros ?%elem_of_nil.
  - destruct (N.eqb_spec x c) as [->|Hne].
    + constructor; [|done]. by intros ?%elem_of_nil.
    + destruct (split_on c s) as [|p ps]; [constructor; [|constructor]|].
      * intros [?|?%elem_of_nil]%elem_of_cons; done.
      * apply Forall_cons in IH as [Hp Hps]. constructor; [|done].
        intros [?|?]%elem_of_cons; done.
Qed.

(** ** Stripping padded text *)

Lemma lstrip_all_space ws : Forall (fun c => is_space c = true) ws → lstrip ws = [].
Proof. intros H. rewrite <- (app_nil_r ws). by rewrite lstrip_spaces. Qed.

Lemma rstrip_spaces s ws : Forall (fun c => is_space c = true) ws → rstrip (s ++ ws) = rstrip s.
Proof.
  intros H. unfold rstrip. rewrite reverse_app, lstrip_spaces; [done|].
  rewrite Forall_forall in *. intros c Hc. apply H. by apply elem_of_reverse.
Qed.

Lemma rstrip_all_space ws : Forall (fun c => is_space c = true) ws → rstrip ws = [].
Proof. intros H. by rewrite <- (app_nil_l ws), rstrip_spaces. Qed.

Lemma lstrip_app s t : lstrip s ≠ [] → lstrip (s ++ t) = lstrip s ++ t.
Proof.
  induction s as [|c s IH]; [done|]. simpl. destruct (is_space c); [apply IH|done].
Qed.

Lemma strip_pad a s b :
  Forall (fun c => is_space c = true) a → Forall (fun c => is_space c = true) b →
  strip (a ++ s ++ b) = strip s.
Proof.
  intros Ha Hb. unfold strip. rewrite lstrip_spaces by done.
  destruct (decide (lstrip s = [])) as [E|E].
  - rewrite E. destruct (lstrip_split s) as (ws & Es & Hws). rewrite E, app_nil_r in Es.
    subst ws. rewrite (lstrip_all_space (s ++ b)); [done|]. by apply Forall_app.
  - by rewrite lstrip_app, rstrip_spaces.
Qed.

(** A text without white space at either end. *)
Lemma tight_head c t : strip (c :: t) = c :: t → is_space c = false.
Proof.
  intros H. destruct (strip_cases (c :: t)) as [E|(c' & t' & _ & E & Hc)]; [congruence|].
  rewrite H in E. by injection E as -> _.
Qed.

Lemma tight_last s c : strip (s ++ [c]) = s ++ [c] → is_space c = false.
Proof.
  intros H. unfold strip, rstrip in H. apply (f_equal reverse) in H.
  rewrite reverse_involutive, reverse_app, reverse_singleton in H. cbn [app] in H.
  destruct (lstrip_cases (reverse (lstrip (s ++ [c])))) as [E|(c' & t' & E & Hc)]; [congruence|].
  rewrite H in E. by injection E as -> _.
Qed.

Lemma lstrip_tight s : strip s = s → lstrip s = s.
Proof. destruct s as [|c t]; [done|]. intros H%tight_head. by apply lstrip_nonspace. Qed.

Lemma rstrip_tight s : strip s = s → rstrip s = s.
Proof. intros H. unfold strip in H. by rewrite lstrip_tight in H. Qed.

Lemma rstrip_app s t : t ≠ [] → strip t = t → rstrip (s ++ t) = s ++ t.
Proof.
  intros Hne Ht. destruct t as [|c t _] using rev_ind; [done|].
  apply tight_last in Ht. unfold rstrip.
  rewrite app_assoc, reverse_app, reverse_singleton. cbn [app].
  rewrite lstrip_nonspace by done.
  by rewrite reverse_cons, reverse_involutive.
Qed.

(** ** Invariants of the ledger and of the store *)

(** While the set holds at most 10000 ids, [mark_processed] leaves a file
    that mirrors it: the id just marked and every id marked before are
    reported, in memory and again after a restart of the server, in
    whatever order the interpreter lists the set. *)
Theorem ledger_survives_restart listing pid w :
  (∀ X, listing X ≡ₚ elements X) →
  (Z.of_nat (size ({[pid]} ∪ _processed w)) <= 10000)%Z →
  let w' := (mark_processed listing pid w).2 in
  (is_processed pid w').1 = Ok true
  ∧ (∀ q, q ∈ _processed w → (is_processed q w').1 = Ok true)
  ∧ (∀ q, (is_processed q w').1 = Ok true → q = pid ∨ q ∈ _processed w)
  ∧ _processed (restart w') = _processed w'
  ∧ (∀ q, (is_processed q (restart w')).1 = (is_processed q w').1).
Proof.
  intros Hperm Hsize w'.
  assert (_processed w' = {[pid]} ∪ _processed w) as Hmem by reflexivity.
  assert (_processed (restart w') = _processed w') as Hre.
  { unfold restart, _load_processed. cbn [_processed set_processed PROCESSED_FILE w'
      mark_processed snd].
    unfold last_n.
    assert (length (listing ({[pid]} ∪ _processed w)) = size ({[pid]} ∪ _processed w)) as Hlen
      by (by rewrite Hperm).
    replace (length (listing ({[pid]} ∪ _processed w)) - Z.to_nat 10000) with 0 by lia.
    cbn [drop]. apply set_eq. intros x.
    rewrite elem_of_list_to_set, Hperm. apply elem_of_elements. }
  unfold is_processed. cbn [fst]. rewrite Hre, Hmem.
  split; [|split; [|split; [|split]]].
  - rewrite bool_decide_eq_true_2; [done|]. apply elem_of_union. left. by apply elem_of_singleton.
  - intros q Hq. rewrite bool_decide_eq_true_2; [done|]. apply elem_of_union. by right.
  - intros q [= Hq]. apply bool_decide_eq_true, elem_of_union in Hq as [Hq|Hq]; [|by right].
    left. by apply elem_of_singleton in Hq.
  - reflexivity.
  - reflexivity.
Qed.

(** The first message id on a fresh server. *)
Lemma ledger_survives_restart_witness :
  let w' := (mark_processed elements (message_id 0) fresh_world).2 in
  (is_processed (message_id 0) w').1 = Ok true
  ∧ (is_processed (message_id 0) (restart w')).1 = Ok true.
Proof.
  intros w'.
  destruct (ledger_survives_restart elements (message_id 0) fresh_world) as (H1 & _ & _ & _ & H5).
  - intros X. reflexivity.
  - cbn [fresh_world _processed]. rewrite (right_id_L ∅ (∪)), size_singleton. lia.
  - split; [exact H1|]. rewrite H5. exact H1.
Defined.






(** ** The quote stripper *)

Lemma quoted_head line : quoted line = true ↔ head (lstrip line) = Some 62%N.
Proof.
  unfold quoted. destruct (lstrip line) as [|c t]; [done|]. cbn [head].
  destruct (N.eqb_spec c 62) as [->|Hne]; [done|]. split; [done|]. by intros [= ?].
Qed.

Lemma quote_re_shape : quote_re = Seq (Bol false) (Seq (Chr (one 62)) (Star (Chr (one 62)))).
Proof. reflexivity. Qed.

(** The pattern of the quote test finds a text that opens with [>]. *)
Lemma quote_re_spec s : found (re_match quote_re s) = true ↔ head s = Some 62%N.
Proof.
  rewrite re_match_spec, quote_re_shape. split.
  - intros (j & H). apply matches_seq_iff in H as (k & Hb & H).
    inversion Hb; subst. apply matches_seq_iff in H as (k' & Hc & _).
    apply matches_chr_iff in Hc as (_ & c & Hc & Hm). apply cs_match_one in Hm as ->.
    by destruct s.
  - intros H. destruct s as [|c t]; [done|]. injection H as ->. exists 1.
    apply (M_seq _ _ _ 0 0 1); [by constructor|].
    apply (M_seq _ _ _ 0 1 1); [|constructor].
    apply (M_chr _ _ _ 62%N); [done|]. by apply cs_match_one.
Qed.

Lemma quote_test line : found (re_match quote_re (strip line)) = quoted line.
Proof.
  apply eq_true_iff_eq. by rewrite quote_re_spec, head_strip, quoted_head.
Qed.

Lemma space_not_quote x : is_space x = true → (x =? 62)%N = false.
Proof. intros H. destruct (N.eqb_spec x 62) as [->|]; [|done]. by vm_compute in H. Qed.

Lemma has_quote_last p : ∀ fresh, LF ∉ p → has_quote fresh p = fresh && quoted p.
Proof.
  induction p as [|x p IH]; intros fresh Hp; [by destruct fresh|].
  apply not_elem_of_cons in Hp as [Hx Hp]. cbn [has_quote].
  replace (x =? LF)%N with false by (symmetry; by apply N.eqb_neq).
  rewrite IH by done. unfold quoted. cbn [lstrip].
  destruct (is_space x) eqn:Es.
  - rewrite space_not_quote by done. rewrite andb_false_r, andb_true_r. reflexivity.
  - rewrite andb_false_r. cbn [andb]. by rewrite orb_false_r.
Qed.

Lemma has_quote_line p rest : ∀ fresh,
  LF ∉ p → has_quote fresh (p ++ LF :: rest) = (fresh && quoted p) || has_quote true rest.
Proof.
  induction p as [|x p IH]; intros fresh Hp.
  - cbn [app has_quote]. change (LF =? LF)%N with true. change (LF =? 62)%N with false.
    unfold quoted. cbn [lstrip]. by rewrite !andb_false_r.
  - apply not_elem_of_cons in Hp as [Hx Hp]. cbn [app has_quote].
    replace (x =? LF)%N with false by (symmetry; by apply N.eqb_neq).
    rewrite IH by done. unfold quoted. cbn [lstrip].
    destruct (is_space x) eqn:Es.
    + rewrite space_not_quote by done. rewrite andb_false_r, andb_true_r. reflexivity.
    + rewrite andb_false_r. cbn [andb orb]. by destruct fresh, (x =? 62)%N.
Qed.

Lemma has_quote_join ls :
  Forall (fun p => LF ∉ p) ls → has_quote true (join [LF] ls) = existsb quoted ls.
Proof.
  induction 1 as [|p ls Hp Hls IH]; [done|].
  destruct ls as [|q ls].
  - cbn [join existsb]. rewrite has_quote_last by done. by rewrite orb_false_r.
  - rewrite join_cons by done. cbn [app]. rewrite has_quote_line by done.
    rewrite IH. reflexivity.
Qed.

(** The scan finds a quoted line exactly when one of the lines is quoted. *)
Lemma has_quote_lines s : has_quote true s = existsb quoted (split_on LF s).
Proof.
  rewrite <- (join_split_on LF s) at 1. apply has_quote_join, split_on_pieces.
Qed.

Lemma has_quote_prefix s t : ∀ fresh, has_quote fresh s = true → has_quote fresh (s ++ t) = true.
Proof.
  induction s as [|x s IH]; intros fresh H; [done|]. cbn [app has_quote] in *.
  apply orb_true_iff in H as [H|H]; apply orb_true_iff; [by left|right; by apply IH].
Qed.

Lemma has_quote_spaces ws s :
  Forall (fun c => is_space c = true) ws → has_quote true (ws ++ s) = has_quote true s.
Proof.
  induction 1 as [|x ws Hx _ IH]; [done|]. cbn [app has_quote].
  rewrite space_not_quote, Hx by done. cbn [andb orb]. by destruct (x =? LF)%N.
Qed.

Lemma has_quote_strip s : has_quote true s = false → has_quote true (strip s) = false.
Proof.
  intros H. destruct (strip_split s) as (a & b & E & Ha & Hb).
  rewrite E, has_quote_spaces in H by done.
  destruct (has_quote true (strip s)) eqn:Hq; [|done].
  by rewrite (has_quote_prefix _ b _ Hq) in H.
Qed.

Lemma has_quote_take k s : has_quote true s = false → has_quote true (take k s) = false.
Proof.
  intros H. destruct (has_quote true (take k s)) eqn:Hq; [|done].
  rewrite <- (take_drop k s) in H. by rewrite (has_quote_prefix _ _ _ Hq) in H.
Qed.

Lemma has_quote_cut r s : has_quote true s = false → has_quote true (cut_at r s) = false.
Proof. unfold cut_at. destruct (re_search r s); [apply has_quote_take|done]. Qed.

(** The loop keeps lines of its input that are not quoted. *)
Lemma drop_quoted_lines lines : ∀ cleaned b l,
  l ∈ drop_quoted lines cleaned b → l ∈ cleaned ∨ (l ∈ lines ∧ quoted l = false).
Proof.
  induction lines as [|line rest IH]; intros cleaned b l Hl; cbn [drop_quoted] in Hl.
  - by left.
  - rewrite quote_test in Hl. destruct (quoted line) eqn:Hq.
    + destruct (IH _ _ _ Hl) as [?|[? ?]]; [by left|]. right. split; [by right|done].
    + destruct (b && bool_decide (strip line = [])).
      * destruct (IH _ _ _ Hl) as [?|[? ?]]; [by left|]. right. split; [by right|done].
      * destruct (IH _ _ _ Hl) as [[?|Hin%list_elem_of_singleton]%elem_of_app|[? ?]];
          [by left| |right; split; [by right|done]].
        subst. right. split; [by left|done].
Qed.

(** No quoted line survives [_strip_email_quotes]: in no line of the
    result is the quote mark [>] the first character that is not white
    space, whatever the body. *)
Theorem strip_quotes_leaves_no_quoted_line body line :
  line ∈ split_on LF (_strip_email_quotes body) → head (lstrip line) ≠ head (u ">").
Proof.
  intros Hline Hhead. apply quoted_head in Hhead.
  assert (has_quote true (_strip_email_quotes body) = false) as Hscan.
  { unfold _strip_email_quotes. apply has_quote_strip, has_quote_cut.
    rewrite has_quote_join.
    - apply not_true_iff_false. intros (l & Hl & Hq)%existsb_exists.
      apply list_elem_of_In, drop_quoted_lines in Hl as [Hl|[_ Hl]]; [by apply elem_of_nil in Hl|].
      congruence.
    - apply Forall_forall. intros l [Hl|[Hl _]]%drop_quoted_lines; [by apply elem_of_nil in Hl|].
      pose proof (split_on_pieces LF (cut_at attribution_re body)) as Hp.
      rewrite Forall_forall in Hp. by apply Hp. }
  rewrite has_quote_lines in Hscan.
  assert (existsb quoted (split_on LF (_strip_email_quotes body)) = true); [|congruence].
  apply existsb_exists. exists line. split; [by apply list_elem_of_In|done].
Qed.

(** The reply with one quoted line: the line that is left is not quoted. *)
Lemma strip_quotes_leaves_no_quoted_line_witness :
  u "New paragraph." ∈ split_on LF (_strip_email_quotes reply_body)
  ∧ head (lstrip (u "New paragraph.")) ≠ head (u ">").
Proof.
  assert (u "New paragraph." ∈ split_on LF (_strip_email_quotes reply_body)) as H
    by (vm_compute; left).
  split; [exact H|].
  exact (strip_quotes_leaves_no_quoted_line reply_body (u "New paragraph.") H).
Defined.

Lemma drop_quoted_plain lines : ∀ cleaned,
  Forall (fun l => quoted l = false) lines →
  drop_quoted lines cleaned false = cleaned ++ lines.
Proof.
  induction lines as [|line rest IH]; intros cleaned Hq; cbn [drop_quoted].
  - by rewrite app_nil_r.
  - apply Forall_cons in Hq as [Hl Hrest]. rewrite quote_test, Hl. cbn [andb].
    rewrite IH by done. by rewrite <- app_assoc.
Qed.

(** A body without reply attribution, quoted line or separator line comes
    back as it is, white space at both ends aside. *)
Theorem strip_quotes_keeps_plain_body body :
  re_search attribution_re body = None →
  re_search separator_re body = None →
  (∀ line, line ∈ split_on LF body → head (lstrip line) ≠ head (u ">")) →
  _strip_email_quotes body = strip body.
Proof.
  intros Ha Hs Hq. unfold _strip_email_quotes, cut_at. rewrite Ha.
  rewrite drop_quoted_plain.
  - cbn [app]. by rewrite join_split_on, Hs.
  - apply Forall_forall. intros l Hl. apply not_true_iff_false.
    intros Hql%quoted_head. by apply (Hq l).
Qed.

(** Two paragraphs with a greater-than sign inside a line. *)
Lemma strip_quotes_keeps_plain_body_witness :
  let body := [LF] ++ u "Budget is > 5k." ++ [LF; LF] ++ u "Please confirm. " ++ [LF] in
  _strip_email_quotes body = u "Budget is > 5k." ++ [LF; LF] ++ u "Please confirm.".
Proof.
  intros body.
  rewrite (strip_quotes_keeps_plain_body body).
  - vm_compute. reflexivity.
  - vm_compute. reflexivity.
  - vm_compute. reflexivity.
  - intros line Hl. vm_compute in Hl.
    repeat (apply elem_of_cons in Hl as [->|Hl]; [vm_compute; discriminate|]).
    by apply elem_of_nil in Hl.
Defined.

(** ** The environment file *)

Lemma load_env_fold content : load_env (Some content) = foldl env_step ∅ (splitlines content).
Proof. reflexivity. Qed.

Lemma blanks_space pad : blanks pad → Forall (fun c => is_space c = true) pad.
Proof. intros H. eapply Forall_impl; [exact H|]. by intros c [? ?]. Qed.

Lemma blanks_line pad : blanks pad → one_line pad.
Proof. intros H. eapply Forall_impl; [exact H|]. by intros c [? ?]. Qed.

Lemma blanks_no_eq pad : blanks pad → 61%N ∉ pad.
Proof.
  intros H Hin. unfold blanks in H. rewrite Forall_forall in H.
  destruct (H _ Hin) as [Hs _]. by vm_compute in Hs.
Qed.

Lemma partition_first c a b : c ∉ a → partition c (a ++ c :: b) = (a, [c], b).
Proof.
  induction a as [|x a IH]; intros Ha; cbn [app partition].
  - by rewrite N.eqb_refl.
  - apply not_elem_of_cons in Ha as [Hx Ha].
    replace (x =? c)%N with false by (symmetry; by apply N.eqb_neq).
    by rewrite IH.
Qed.

(** One line of the file, read by the loop. *)
Lemma env_step_render cfg l :
  well_formed l →
  env_step cfg (render l)
  = match l with
    | Setting _ k _ _ v _ => <[k := v]> cfg
    | _ => cfg
    end.
Proof.
  destruct l as [p1 k p2 p3 v p4|pad text|pad]; cbn [well_formed render]; unfold env_step.
  - intros (H1 & H2 & H3 & H4 & Hk & Hv & _ & _ & Heq & Hhash).
    apply blanks_space in H1 as S1. apply blanks_space in H2 as S2.
    apply blanks_space in H3 as S3. apply blanks_space in H4 as S4.
    set (k' := match k with [] => [] | _ => k ++ p2 end).
    set (v' := match v with [] => [] | _ => p3 ++ v end).
    assert (strip (p1 ++ k ++ p2 ++ u "=" ++ p3 ++ v ++ p4) = k' ++ 61%N :: v') as Hline.
    { replace (p1 ++ k ++ p2 ++ u "=" ++ p3 ++ v ++ p4)
        with (p1 ++ (k ++ p2 ++ u "=" ++ p3 ++ v) ++ p4) by (by rewrite <- !app_assoc).
      rewrite strip_pad by done. unfold strip.
      assert (lstrip (k ++ p2 ++ u "=" ++ p3 ++ v) = k' ++ 61%N :: p3 ++ v) as ->.
      { destruct k as [|c k0].
        - cbn [app]. rewrite lstrip_spaces by done. reflexivity.
        - assert (lstrip (c :: k0) = c :: k0) as Hl by (by apply lstrip_tight).
          rewrite lstrip_app by (by rewrite Hl).
          rewrite Hl. unfold k'. by rewrite <- !app_assoc. }
      destruct v as [|c v0].
      - rewrite app_nil_r. change (k' ++ 61%N :: p3) with (k' ++ [61%N] ++ p3).
        rewrite app_assoc, rstrip_spaces by done.
        rewrite (rstrip_app k' [61%N]) by done. reflexivity.
      - change (k' ++ 61%N :: p3 ++ c :: v0) with (k' ++ (61%N :: p3) ++ c :: v0).
        rewrite !app_assoc. rewrite rstrip_app by done. by rewrite <- !app_assoc. }
    rewrite Hline.
    assert (61%N ∉ k') as Hk'.
    { unfold k'. destruct k; [by intros ?%elem_of_nil|].
      intros [?|?]%elem_of_app; [done|]. by apply (blanks_no_eq p2). }
    rewrite bool_decide_eq_false_2 by (by destruct k').
    rewrite (bool_decide_eq_true_2 (61%N ∈ k' ++ 61%N :: v'))
      by (apply elem_of_app; right; left).
    assert (startswith (k' ++ 61%N :: v') (u "#") = false) as ->.
    { unfold startswith. apply bool_decide_eq_false. unfold k'.
      destruct k as [|c k0]; [by vm_compute|]. cbn. intros [= ->]. by apply Hhash. }
    cbn [orb negb]. rewrite partition_first by done.
    assert (strip k' = k) as ->.
    { unfold k'. destruct k as [|c k0]; [done|].
      rewrite <- (strip_pad [] (c :: k0) p2) in Hk by done. exact Hk. }
    assert (strip v' = v) as ->.
    { unfold v'. destruct v as [|c v0]; [done|].
      rewrite <- (strip_pad p3 (c :: v0) []) in Hv by done.
      by rewrite app_nil_r in Hv. }
    reflexivity.
  - intros [Hp _]. apply blanks_space in Hp.
    assert (∃ t, strip (pad ++ u "#" ++ text) = 35%N :: t) as (t & ->).
    { unfold strip. rewrite lstrip_spaces by done.
      change (u "#" ++ text) with (35%N :: text). rewrite lstrip_nonspace by done.
      rewrite rstrip_cons by done. eauto. }
    reflexivity.
  - intros Hp. apply blanks_space in Hp.
    assert (strip pad = []) as ->; [|reflexivity].
    unfold strip. by rewrite lstrip_all_space.
Qed.

Lemma render_one_line l : well_formed l → one_line (render l).
Proof.
  destruct l as [p1 k p2 p3 v p4|pad text|pad]; cbn [well_formed render].
  - intros (H1%blanks_line & H2%blanks_line & H3%blanks_line & H4%blanks_line
            & _ & _ & Hk & Hv & _).
    unfold one_line in *. rewrite !Forall_app. repeat split; try done. by repeat constructor.
  - intros [Hp%blanks_line Ht]. unfold one_line in *. rewrite !Forall_app.
    repeat split; try done. by repeat constructor.
  - apply blanks_line.
Qed.

Lemma lines_from_line p rest : ∀ cur,
  one_line p → lines_from cur (p ++ rest) = lines_from (reverse p ++ cur) rest.
Proof.
  induction p as [|x p IH]; intros cur Hp; [done|].
  apply Forall_cons in Hp as [Hx Hp]. cbn [app lines_from]. rewrite Hx.
  rewrite IH by done. by rewrite reverse_cons, <- app_assoc.
Qed.

(** Reading the lines of a file written line by line: an empty line is
    all the loop can miss, and an empty line sets nothing. *)
Lemma fold_lines (step : gmap str str → str → gmap str str) ls : ∀ cfg,
  (∀ cfg, step cfg [] = cfg) → Forall one_line ls →
  foldl step cfg (splitlines (join [LF] ls)) = foldl step cfg ls.
Proof.
  intros cfg Hempty Hls. revert cfg. unfold splitlines.
  induction Hls as [|p ls Hp Hls IH]; intros cfg; [done|].
  destruct ls as [|q ls].
  - cbn [join]. rewrite <- (app_nil_r p) at 1. rewrite lines_from_line by done.
    rewrite app_nil_r. cbn [lines_from].
    destruct (reverse p) as [|c r] eqn:E.
    + apply (f_equal reverse) in E. rewrite reverse_involutive in E. subst p.
      cbn. by rewrite Hempty.
    + rewrite <- E, reverse_involutive. reflexivity.
  - rewrite join_cons by done. rewrite lines_from_line by done.
    rewrite app_nil_r. cbn [app lines_from].
    change (is_linebreak LF) with true. change (LF =? 13)%N with false. cbv iota.
    rewrite reverse_involutive. cbn [foldl]. apply IH.
Qed.

(** A [.env] file of settings [KEY=VALUE], with or without blanks around
    key and value, of comment lines and of blank lines, read by
    [load_env], gives exactly the settings of its lines, a later line for
    a key replacing an earlier one; and [env] answers with the value from
    the file whatever the environment of the process holds, with the
    value from the environment for a key the file does not set, and with
    the default for a key that neither sets. *)
Theorem load_env_reads_settings ls :
  Forall well_formed ls →
  load_env (Some (join [LF] (render <$> ls))) = settings ls
  ∧ ∀ environ key dflt,
      env (load_env (Some (join [LF] (render <$> ls)))) environ key dflt
      = match settings ls !! key, environ !! key with
        | Some v, _ => v
        | None, Some v => v
        | None, None => dflt
        end.
Proof.
  intros Hwf.
  assert (load_env (Some (join [LF] (render <$> ls))) = settings ls) as Hload.
  { rewrite load_env_fold, fold_lines.
    - unfold settings. generalize (∅ : gmap str str).
      induction Hwf as [|l ls Hl Hls IH]; intros cfg; [done|].
      cbn [fmap list_fmap foldl]. rewrite env_step_render by done. apply IH.
    - done.
    - apply Forall_fmap. eapply Forall_impl; [exact Hwf|]. apply render_one_line. }
  split; [done|]. intros environ key dflt. rewrite Hload. unfold env.
  by destruct (settings ls !! key), (environ !! key).
Qed.

(** A small file: a comment, two settings for the port, a blank line, a
    padded setting whose value holds an equals sign. *)
Lemma load_env_reads_settings_witness :
  let file := u "# local settings" ++ [LF] ++ u "PORT=3000" ++ [LF] ++ u "PORT=8080" ++ [LF]
              ++ u "  " ++ [LF] ++ u " SLACK_WEBHOOK = https://x.io/?a=b " in
  load_env (Some file)
  = <[u "SLACK_WEBHOOK" := u "https://x.io/?a=b"]> (<[u "PORT" := u "8080"]> ∅)
  ∧ env (load_env (Some file)) (<[u "PORT" := u "9999"]> ∅) (u "PORT") (u "3000") = u "8080".
Proof.
  intros file.
  set (ls := [Comment [] (u " local settings");
              Setting [] (u "PORT") [] [] (u "3000") [];
              Setting [] (u "PORT") [] [] (u "8080") [];
              Blank (u "  ");
              Setting (u " ") (u "SLACK_WEBHOOK") (u " ") (u " ") (u "https://x.io/?a=b") (u " ")]).
  assert (Forall well_formed ls) as Hwf.
  { repeat constructor; try (vm_compute; congruence);
      try (intros Hin; vm_compute in Hin;
           repeat (apply elem_of_cons in Hin as [Hin|Hin]; [discriminate|]);
           by apply elem_of_nil in Hin). }
  destruct (load_env_reads_settings ls Hwf) as [H1 H2].
  change (join [LF] (render <$> ls)) with file in H1, H2.
  split.
  - rewrite H1. unfold settings, ls. cbn [foldl]. by rewrite insert_insert_eq.
  - rewrite H2. unfold settings, ls. cbn [foldl].
    rewrite lookup_insert_ne by (vm_compute; congruence).
    by rewrite lookup_insert_eq.
Defined.

(** ** Ids *)

Local Open Scope Z_scope.

Lemma int16_snoc s c : int16 (s ++ [c]) = 16 * int16 s + Z.of_N (default 0%N (hex_val c)).
Proof. unfold int16. by rewrite foldl_app. Qed.

Lemma hex_digit_val d : 0 <= d < 16 → Z.of_N (default 0%N (hex_val (hex_digit d))) = d.
Proof.
  intros H.
  assert (d = 0 ∨ d = 1 ∨ d = 2 ∨ d = 3 ∨ d = 4 ∨ d = 5 ∨ d = 6 ∨ d = 7 ∨ d = 8 ∨ d = 9
          ∨ d = 10 ∨ d = 11 ∨ d = 12 ∨ d = 13 ∨ d = 14 ∨ d = 15) as Hd by lia.
  destruct Hd as [->|[->|[->|[->|[->|[->|[->|[->|[->|[->|[->|[->|[->|[->|[->| ->]]]]]]]]]]]]]]];
    reflexivity.
Qed.

Lemma hex_digit_alnum d : 0 <= d < 16 → id_char (hex_digit d) = true.
Proof.
  intros H.
  assert (d = 0 ∨ d = 1 ∨ d = 2 ∨ d = 3 ∨ d = 4 ∨ d = 5 ∨ d = 6 ∨ d = 7 ∨ d = 8 ∨ d = 9
          ∨ d = 10 ∨ d = 11 ∨ d = 12 ∨ d = 13 ∨ d = 14 ∨ d = 15) as Hd by lia.
  destruct Hd as [->|[->|[->|[->|[->|[->|[->|[->|[->|[->|[->|[->|[->|[->|[->| ->]]]]]]]]]]]]]]];
    reflexivity.
Qed.

(** The digits of a number give the number back, and are lower-case
    hexadecimal digits. *)
Lemma hex_digits_value fuel : ∀ n,
  0 <= n < 16 ^ Z.of_nat fuel → (0 < fuel)%nat →
  int16 (radix_digits 16 hex_digit fuel n) = n
  ∧ Forall (fun c => id_char c = true) (radix_digits 16 hex_digit fuel n)
  ∧ radix_digits 16 hex_digit fuel n ≠ [].
Proof.
  induction fuel as [|fuel IH]; intros n Hn Hf; [lia|]. cbn [radix_digits].
  destruct (Z.ltb_spec n 16) as [Hlt|Hge].
  - split; [|split; [|done]].
    + unfold int16. cbn [foldl]. rewrite hex_digit_val by lia. lia.
    + constructor; [|constructor]. apply hex_digit_alnum. lia.
  - rewrite Nat2Z.inj_succ, Z.pow_succ_r in Hn by lia.
    destruct fuel as [|fuel']; [simpl in Hn; lia|].
    destruct (IH (n / 16)) as (Hv & Ha & _); [|lia|].
    { split; [apply Z.div_pos; lia|apply Z.div_lt_upper_bound; lia]. }
    pose proof (Z.mod_pos_bound n 16 ltac:(lia)).
    split; [|split].
    + rewrite int16_snoc, Hv, hex_digit_val by lia.
      pose proof (Z.div_mod n 16 ltac:(lia)). lia.
    + apply Forall_app. split; [done|]. constructor; [|constructor].
      by apply hex_digit_alnum.
    + by destruct (radix_digits _ _ _ _).
Qed.

Lemma log2_fuel n : 0 <= n → n < 16 ^ Z.of_nat (S (Z.to_nat (Z.log2 n))).
Proof.
  intros Hn. rewrite Nat2Z.inj_succ, Z2Nat.id by apply Z.log2_nonneg.
  destruct (Z.eq_dec n 0) as [->|Hne]; [reflexivity|].
  pose proof (Z.log2_spec n ltac:(lia)) as [_ Hlt].
  eapply Z.lt_le_trans; [exact Hlt|].
  apply Z.pow_le_mono_l. pose proof (Z.log2_nonneg n). lia.
Qed.

Lemma hex_drop n :
  0 <= n → drop 2 (hex n) = radix_digits 16 hex_digit (S (Z.to_nat (Z.log2 n))) n.
Proof.
  intros Hn. unfold hex. replace (n <? 0) with false by (symmetry; apply Z.ltb_ge; lia).
  by rewrite Z.abs_eq.
Qed.

Lemma choices_length population k draw : length (choices population k draw) = k.
Proof. unfold choices. by rewrite length_fmap, length_seq. Qed.

Lemma choices_lookup population k draw i :
  (i < k)%nat →
  choices population k draw !! i
  = Some (default 0%N (population !! (draw i mod length population)%nat)).
Proof. intros H. unfold choices. by rewrite list_lookup_fmap, lookup_seq_lt. Qed.

Lemma chars_NoDup : NoDup (Ids.ascii_lowercase ++ Ids.digits).
Proof.
  apply (bool_decide_unpack (NoDup (Ids.ascii_lowercase ++ Ids.digits))).
  vm_compute. exact I.
Qed.

Lemma chars_alnum :
  Forall (fun c => id_char c = true) (Ids.ascii_lowercase ++ Ids.digits).
Proof.
  assert (forallb id_char (Ids.ascii_lowercase ++ Ids.digits) = true)
    as H by (vm_compute; reflexivity).
  rewrite forallb_forall in H. apply Forall_forall. intros c Hc.
  by apply H, list_elem_of_In.
Qed.

(** An id reads back: its first eight characters are the eight picks from
    the 36 lower-case letters and digits, and the rest is the clock in
    hexadecimal, so [int(id[8:], 16)] is the millisecond of its making.
    Two ids are equal only if they were made in the same millisecond with
    the same eight picks. *)
Theorem uid_reads_back draw now_ms :
  0 <= now_ms →
  let id := Ids.uid draw now_ms in
  (9 <= length id)%nat
  ∧ Forall (fun c => id_char c = true) id
  ∧ take 8 id = choices (Ids.ascii_lowercase ++ Ids.digits) 8 draw
  ∧ int16 (drop 8 id) = now_ms
  ∧ ∀ draw' now_ms',
      0 <= now_ms' → Ids.uid draw' now_ms' = id →
      now_ms' = now_ms ∧ ∀ i, (i < 8)%nat → (draw' i mod 36 = draw i mod 36)%nat.
Proof.
  intros Hn id.
  assert (∀ d t, 0 <= t →
            take 8 (Ids.uid d t) = choices (Ids.ascii_lowercase ++ Ids.digits) 8 d
            ∧ drop 8 (Ids.uid d t) = radix_digits 16 hex_digit (S (Z.to_nat (Z.log2 t))) t)
    as Hparts.
  { intros d t Ht. unfold Ids.uid. cbv zeta. rewrite hex_drop by done.
    split.
    - rewrite take_app_length'; [done|]. symmetry. apply choices_length.
    - rewrite drop_app_length'; [done|]. symmetry. apply choices_length. }
  destruct (Hparts draw now_ms Hn) as [Htake Hdrop]. fold id in Htake, Hdrop.
  destruct (hex_digits_value _ now_ms ltac:(split; [done|by apply log2_fuel]) ltac:(lia))
    as (Hval & Halnum & Hne).
  split; [|split; [|split; [done|split]]].
  - rewrite <- (take_drop 8 id), length_app, Htake, choices_length, Hdrop.
    destruct (radix_digits _ _ _ _); [done|]. cbn [length]. lia.
  - rewrite <- (take_drop 8 id), Htake, Hdrop. apply Forall_app. split; [|done].
    unfold choices. apply Forall_fmap, Forall_forall. intros i _. unfold compose.
    pose proof chars_alnum as Hc. rewrite Forall_forall in Hc.
    destruct ((Ids.ascii_lowercase ++ Ids.digits) !! (draw i mod _)%nat) as [c|] eqn:E.
    + apply Hc. by eapply list_elem_of_lookup_2.
    + apply lookup_ge_None in E.
      pose proof (Nat.mod_upper_bound (draw i) (length (Ids.ascii_lowercase ++ Ids.digits))
                    ltac:(done)). lia.
  - by rewrite Hdrop.
  - intros draw' now_ms' Hn' E.
    destruct (Hparts draw' now_ms' Hn') as [Htake' Hdrop']. rewrite E in Htake', Hdrop'.
    destruct (hex_digits_value _ now_ms' ltac:(split; [done|by apply log2_fuel]) ltac:(lia))
      as (Hval' & _ & _).
    split; [by rewrite <- Hval', <- Hdrop', Hdrop, Hval|].
    intros i Hi. rewrite Htake in Htake'.
    apply (f_equal (fun l => l !! i)) in Htake'.
    rewrite !choices_lookup in Htake' by done.
    apply (inj Some) in Htake'. rename Htake' into Hc.
    change (length (Ids.ascii_lowercase ++ Ids.digits)) with 36%nat in Hc.
    pose proof (Nat.mod_upper_bound (draw i) 36 ltac:(done)) as B1.
    pose proof (Nat.mod_upper_bound (draw' i) 36 ltac:(done)) as B2.
    destruct (lookup_lt_is_Some_2 (Ids.ascii_lowercase ++ Ids.digits) (draw i mod 36)
                ltac:(done)) as [c1 E1].
    destruct (lookup_lt_is_Some_2 (Ids.ascii_lowercase ++ Ids.digits) (draw' i mod 36)
                ltac:(done)) as [c2 E2].
    rewrite E1, E2 in Hc. change (c1 = c2) in Hc. rewrite <- Hc in E2.
    exact (NoDup_lookup _ _ _ _ chars_NoDup E2 E1).
Qed.

(** The id of the sample task: the picks "k3x9q2mz" at millisecond
    1748858400000. *)
Lemma uid_reads_back_witness :
  let draw i := nth i [10; 29; 23; 35; 16; 28; 12; 25]%nat 0%nat in
  Ids.uid draw 1748858400000 = u "k3x9q2mz19730156d00"
  ∧ int16 (drop 8 (Ids.uid draw 1748858400000)) = 1748858400000.
Proof.
  intros draw. split; [vm_compute; reflexivity|].
  destruct (uid_reads_back draw 1748858400000 ltac:(lia)) as (_ & _ & _ & H & _).
  exact H.
Defined.

Local Close Scope Z_scope.

(** ** The calendar email filter *)

Lemma startswith_prefix s p : startswith s p = true ↔ p `prefix_of` s.
Proof.
  unfold startswith. rewrite bool_decide_eq_true. split.
  - intros H. exists (drop (length p) s). by rewrite <- H at 1; rewrite take_drop.
  - intros [k ->]. by rewrite take_app_length.
Qed.

Lemma contains_occurs s x : contains s x = true ↔ occurs x s.
Proof.
  induction s as [|c s IH]; cbn [contains]; rewrite orb_true_iff, startswith_prefix.
  - split.
    + intros [[k Hk]|?]; [|done]. exists [], k. done.
    + intros (pre & post & E). left. destruct pre; [|done]. by exists post.
  - rewrite IH. split.
    + intros [[k Hk]|(pre & post & ->)]; [by exists [], k|]. by exists (c :: pre), post.
    + intros (pre & post & E). destruct pre as [|d pre].
      * left. by exists post.
      * right. injection E as -> ->. by exists pre, post.
Qed.

Lemma calendar_subject_shape :
  calendar_subject_re
  = Alt (phrase_re [u "proposed"; u "new"; u "time"])
        (Alt (phrase_re [u "new"; u "time"; u "proposed"])
             (chain (chars (u "reschedule") ++ [Alt (Chr (one 100)) Eps; WordB]))).
Proof. reflexivity. Qed.

Lemma span_split (s : str) i j :
  i ≤ j ≤ length s → s = take i s ++ take (j - i) (drop i s) ++ drop j s.
Proof.
  intros H. rewrite <- (take_drop i s) at 1. f_equal.
  rewrite <- (take_drop (j - i) (drop i s)) at 1. f_equal.
  rewrite drop_drop. f_equal. lia.
Qed.

(** A phrase found somewhere in the subject. *)
Lemma phrase_found ws s :
  ws ≠ [] →
  (∃ i j, i ≤ length s ∧ matches s (phrase_re ws) i j)
  ↔ ∃ pre t post, s = pre ++ t ++ post ∧ spelled ws t.
Proof.
  intros Hne. split.
  - intros (i & j & Hi & Hm).
    pose proof (matches_bounds _ _ _ _ Hm Hi) as Hb.
    apply (matches_window s false) in Hm;
      [|apply windowed_chain, windowed_phrase_atoms|done|done].
    set (t := take (j - i) (drop i s)) in *.
    assert (length t = j - i) as Hlt by (unfold t; rewrite length_take, length_drop; lia).
    rewrite <- Hlt in Hm. apply phrase_whole in Hm; [|done].
    exists (take i s), t, (drop j s). split; [by apply span_split|done].
  - intros (pre & t & post & -> & Hs).
    exists (length pre + 0), (length pre + length t). split; [rewrite !length_app; lia|].
    eapply (matches_embed pre t post false); [done| | |lia].
    + apply windowed_chain, windowed_phrase_atoms.
    + by apply phrase_whole.
Qed.

Lemma chars_here pre w post :
  matches (pre ++ w ++ post) (chain (chars w)) (length pre) (length pre + length w).
Proof.
  pose proof (matches_embed pre w post false ltac:(done) (chain (chars w)) 0 (length w)) as H.
  rewrite Nat.add_0_r in H. apply H; [|by apply chars_whole|lia].
  apply windowed_chain, windowed_chars.
Qed.

(** The word "reschedule", with or without "d", found where a word ends. *)
Lemma reschedule_found s :
  (∃ i j, i ≤ length s
          ∧ matches s (chain (chars (u "reschedule") ++ [Alt (Chr (one 100)) Eps; WordB])) i j)
  ↔ ∃ w, w ∈ subject_words ∧ ∃ pre post, s = pre ++ w ++ post ∧ starts_nonword post.
Proof.
  split.
  - intros (i & j & Hi & Hm). apply chain_app in Hm as (m & Hw & Hm).
    pose proof (matches_bounds _ _ _ _ Hw Hi) as Hb.
    pose proof (chars_at _ _ _ _ Hw) as Hword.
    assert (m = i + 10) as ->.
    { apply (f_equal length) in Hword. rewrite length_take, length_drop in Hword.
      change (length (u "reschedule")) with 10 in Hword. lia. }
    change (chain [Alt (Chr (one 100)) Eps; WordB])
      with (Seq (Alt (Chr (one 100)) Eps) WordB) in Hm.
    apply matches_seq_iff in Hm as (m' & Hd & [-> Hwb]%matches_wordb_iff).
    assert (s !! (i + 9) = Some 101%N) as He.
    { apply (f_equal (fun l => l !! 9)) in Hword.
      rewrite lookup_take_lt, lookup_drop in Hword by lia. exact Hword. }
    apply matches_alt_iff in Hd as [Hd|Hd].
    + apply matches_chr_iff in Hd as (-> & c & Hc & Hcs). apply cs_match_one in Hcs as ->.
      pose proof (lookup_lt_Some _ _ _ Hc) as Hlt.
      exists (u "rescheduled"). split; [by right; left|].
      exists (take i s), (drop (S (i + 10)) s). split.
      * rewrite (span_split s i (S (i + 10))) at 1 by lia. do 2 f_equal.
        replace (S (i + 10) - i) with 11 by lia.
        replace (i + 10 - i) with 10 in Hword by lia.
        rewrite (take_S_r _ _ 100%N) by (by rewrite lookup_drop).
        by rewrite Hword.
      * unfold starts_nonword. rewrite head_lookup, lookup_drop, Nat.add_0_r.
        unfold word_boundary, word_at in Hwb. rewrite Hc in Hwb.
        destruct (s !! S (i + 10)) as [x|]; [|done]. by destruct (is_word x).
    + apply matches_eps_iff in Hd as ->.
      exists (u "reschedule"). split; [by left|].
      exists (take i s), (drop (i + 10) s). split.
      * rewrite (span_split s i (i + 10)) at 1 by lia. by rewrite Hword.
      * unfold starts_nonword. rewrite head_lookup, lookup_drop, Nat.add_0_r.
        unfold word_boundary in Hwb. replace (i + 10) with (S (i + 9)) in Hwb at 1 by lia.
        unfold word_at in Hwb. rewrite He in Hwb.
        destruct (s !! (i + 10)) as [x|]; [|done]. by destruct (is_word x).
  - intros (w & Hw & pre & post & -> & Hpost).
    assert (∀ c t, matches (pre ++ (u "reschedule" ++ t) ++ post) (Alt (Chr (one 100)) Eps)
                     (length pre + 10) (length pre + 10 + length t) →
                   last (u "reschedule" ++ t) = Some c → is_word c = true →
                   ∃ i j, i ≤ length (pre ++ (u "reschedule" ++ t) ++ post)
                     ∧ matches (pre ++ (u "reschedule" ++ t) ++ post)
                         (chain (chars (u "reschedule") ++ [Alt (Chr (one 100)) Eps; WordB]))
                         i j) as Hbuild.
    { intros c t Hd Hlast Hc. exists (length pre), (length pre + 10 + length t).
      split; [rewrite length_app; lia|].
      apply chain_app. exists (length pre + 10). split.
      - rewrite <- (app_assoc (u "reschedule") t post). apply chars_here.
      - change (chain [Alt (Chr (one 100)) Eps; WordB])
          with (Seq (Alt (Chr (one 100)) Eps) WordB).
        apply matches_seq_iff. eexists. split; [exact Hd|].
        apply matches_wordb_iff. split; [done|].
        set (n := length pre + 10 + length t).
        assert (n = length (pre ++ u "reschedule" ++ t)) as Hn
          by (unfold n; rewrite !length_app; change (length (u "reschedule")) with 10; lia).
        unfold word_boundary. destruct n as [|n'] eqn:En; [lia|].
        unfold word_at.
        assert ((pre ++ (u "reschedule" ++ t) ++ post) !! n' = Some c) as ->.
        { rewrite app_assoc, lookup_app_l by lia.
          rewrite last_lookup in Hlast. rewrite lookup_app_r by lia.
          rewrite <- Hlast. f_equal. rewrite length_app.
          change (length (u "reschedule")) with 10. lia. }
        rewrite Hc.
        assert ((pre ++ (u "reschedule" ++ t) ++ post) !! S n' = head post) as ->.
        { rewrite app_assoc, lookup_app_r by lia. rewrite head_lookup. f_equal. lia. }
        unfold starts_nonword in Hpost. destruct (head post) as [x|]; [|done].
        by rewrite Hpost. }
    apply elem_of_cons in Hw as [->|Hw]; [|apply list_elem_of_singleton in Hw as ->].
    + rewrite <- (app_nil_r (u "reschedule")).
      apply (Hbuild 101%N []); [|done|done].
      apply matches_alt_iff. right. rewrite Nat.add_0_r. constructor.
    + change (u "rescheduled") with (u "reschedule" ++ [100%N]).
      apply (Hbuild 100%N [100%N]); [|done|done].
      apply matches_alt_iff. left. apply matches_chr_iff.
      split; [cbn [length]; lia|]. exists 100%N. split; [|by apply cs_match_one].
      rewrite lookup_app_r by lia. replace (length pre + 10 - length pre) with 10 by lia.
      reflexivity.
Qed.

Lemma subject_search s :
  found (re_search calendar_subject_re s) = true
  ↔ (∃ ws, ws ∈ subject_phrases ∧ ∃ pre t post, s = pre ++ t ++ post ∧ spelled ws t)
    ∨ (∃ w, w ∈ subject_words ∧ ∃ pre post, s = pre ++ w ++ post ∧ starts_nonword post).
Proof.
  rewrite re_search_spec, calendar_subject_shape, <- reschedule_found. split.
  - intros (i & j & Hi & [Hm|[Hm|Hm]%matches_alt_iff]%matches_alt_iff).
    + left. eexists. split; [by left|]. apply phrase_found; [done|]. eauto.
    + left. eexists. split; [by right; left|]. apply phrase_found; [done|]. eauto.
    + right. eauto.
  - intros [(ws & Hws & H)|(i & j & Hi & Hm)].
    + apply elem_of_cons in Hws as [->|Hws]; [|apply list_elem_of_singleton in Hws as ->];
        apply phrase_found in H as (i & j & Hi & Hm); try done; exists i, j; (split; [done|]).
      * apply matches_alt_iff. by left.
      * apply matches_alt_iff. right. apply matches_alt_iff. by left.
    + exists i, j. split; [done|]. apply matches_alt_iff. right. apply matches_alt_iff. by right.
Qed.

Lemma existsb_elem {A} (f : A → bool) (l : list A) :
  existsb f l = true ↔ ∃ x, x ∈ l ∧ f x = true.
Proof.
  rewrite existsb_exists. split; intros (x & Hx & Hf); exists x; (split; [|done]);
    by apply list_elem_of_In.
Qed.

(** [_is_calendar_email] skips a message exactly when, letter case aside,
    its subject opens with one of the listed prefixes, holds the words
    "proposed new time" or "new time proposed" anywhere, or holds
    "reschedule" or "rescheduled" where a word ends; or its sender holds
    the address of the application itself (when one is configured) or one
    of the listed automatic senders. *)
Theorem calendar_email_exactly SMTP_USER subject sender :
  _is_calendar_email SMTP_USER subject sender = true
  ↔ auto_subject (lower subject)
    ∨ (lower SMTP_USER ≠ [] ∧ occurs (lower SMTP_USER) (lower sender))
    ∨ (∃ x, x ∈ skip_senders ∧ occurs x (lower sender)).
Proof.
  unfold _is_calendar_email, auto_subject. cbv zeta.
  destruct (existsb _ skip_prefixes) eqn:Hp.
  { split; [|done]. intros _. left. left.
    apply existsb_elem in Hp as (p & Hp & Hs). exists p. by rewrite <- startswith_prefix. }
  assert (¬ ∃ p, p ∈ skip_prefixes ∧ p `prefix_of` lower subject) as Hp'.
  { intros (p & Hin & Hpre). apply not_true_iff_false in Hp. apply Hp, existsb_elem.
    exists p. by rewrite startswith_prefix. }
  destruct (found (re_search calendar_subject_re (lower subject))) eqn:Hs.
  { split; [|done]. intros _. left. right. by apply subject_search. }
  assert (¬ ((∃ ws, ws ∈ subject_phrases
                    ∧ ∃ pre t post, lower subject = pre ++ t ++ post ∧ spelled ws t)
             ∨ (∃ w, w ∈ subject_words
                     ∧ ∃ pre post, lower subject = pre ++ w ++ post ∧ starts_nonword post)))
    as Hs'.
  { intros H%subject_search. congruence. }
  destruct (negb _ && contains (lower sender) (lower SMTP_USER)) eqn:Hself.
  { split; [|done]. intros _. right. left.
    apply andb_prop in Hself as [Hne Hc]. apply negb_true_iff, bool_decide_eq_false in Hne.
    by rewrite <- contains_occurs. }
  rewrite existsb_elem. split.
  - intros (x & Hx & Hc). right. right. exists x. by rewrite <- contains_occurs.
  - intros [[H|H]|[[Hne Hocc]|(x & Hx & Hocc)]]; [done|done| |].
    + apply andb_false_iff in Hself as [Hn|Hc].
      * apply negb_false_iff, bool_decide_eq_true in Hn. done.
      * apply contains_occurs in Hocc. congruence.
    + exists x. by rewrite contains_occurs.
Qed.

(** ** Reminders *)

Local Open Scope Z_scope.

Lemma target_reached now hour minute :
  valid_datetime now → 0 <= hour <= 23 → 0 <= minute <= 59 →
  tuple_leb (dt_fields {| dt_date := dt_date now; dt_hour := hour; dt_minute := minute;
                          dt_second := 0; dt_microsecond := 0 |}) (dt_fields now)
  = (clock_us hour minute <=? day_us now).
Proof.
  intros (_ & Hh & Hm & Hs & Hu) Hhour Hminute.
  unfold dt_fields, tuple_leb, clock_us, day_us. cbn [dt_date dt_hour dt_minute dt_second dt_microsecond].
  rewrite !Z.ltb_irrefl, !Z.eqb_refl. cbn [orb andb].
  destruct (Z.ltb_spec hour (dt_hour now)), (Z.eqb_spec hour (dt_hour now)),
    (Z.ltb_spec minute (dt_minute now)), (Z.eqb_spec minute (dt_minute now)),
    (Z.ltb_spec 0 (dt_second now)), (Z.eqb_spec 0 (dt_second now)),
    (Z.ltb_spec 0 (dt_microsecond now)), (Z.eqb_spec 0 (dt_microsecond now));
    cbn [orb andb]; symmetry; try (apply Z.leb_le; lia); try (apply Z.leb_gt; lia).
Qed.

(** On every day but the last of the calendar, [_seconds_until] returns
    the time to the next moment at which the clock shows [hour:minute]:
    more than nothing and at most a day; a whole day, not nothing, when
    the clock shows that moment exactly. *)
Theorem seconds_until_is_next_occurrence now hour minute :
  valid_datetime now → 0 <= hour <= 23 → 0 <= minute <= 59 →
  toordinal (dt_date now) < _MAXORDINAL →
  ∃ r, _seconds_until now hour minute = Ok r
       ∧ 0 < r <= DAY_US
       ∧ (day_us now + r) mod DAY_US = clock_us hour minute
       ∧ (r = DAY_US ↔ day_us now = clock_us hour minute)
       ∧ (day_us now < clock_us hour minute → r = clock_us hour minute - day_us now).
Proof.
  intros Hnow Hhour Hminute Hmax.
  pose proof Hnow as (Hv & Hh & Hm & Hs & Hu).
  unfold _seconds_until, replace_time.
  replace ((0 <=? hour) && (hour <=? 23) && (0 <=? minute) && (minute <=? 59)) with true
    by (symmetry; repeat (apply andb_true_intro; split); apply Z.leb_le; lia).
  cbn [mbind res_bind]. rewrite target_reached by done.
  assert (0 <= clock_us hour minute < DAY_US) as Hc by (unfold clock_us, DAY_US; lia).
  assert (0 <= day_us now < DAY_US) as Hd by (unfold day_us, DAY_US; lia).
  destruct (Z.leb_spec (clock_us hour minute) (day_us now)) as [Hle|Hlt].
  - unfold dt_plus_days. cbn [dt_date dt_hour dt_minute dt_second dt_microsecond].
    pose proof (toordinal_range _ Hv) as Hr.
    destruct (date_plus_ok (dt_date now) 1 Hv ltac:(lia)) as (-> & _ & Ho).
    cbn [mbind res_bind]. eexists. split; [reflexivity|].
    unfold dt_minus. cbn [dt_date dt_hour dt_minute dt_second dt_microsecond]. rewrite Ho.
    set (r := ((toordinal (dt_date now) + 1 - toordinal (dt_date now)) * 86400
               + (0 + minute * 60 + hour * 3600
                  - (dt_second now + dt_minute now * 60 + dt_hour now * 3600))) * 1000000
              + (0 - dt_microsecond now)).
    assert (r = clock_us hour minute - day_us now + DAY_US) as ->
      by (unfold r, clock_us, day_us, DAY_US; lia).
    split; [lia|]. split; [|split; [lia|lia]].
    replace (day_us now + (clock_us hour minute - day_us now + DAY_US))
      with (clock_us hour minute + 1 * DAY_US) by lia.
    rewrite Z.mod_add by (unfold DAY_US; lia). apply Z.mod_small. lia.
  - cbn [mbind res_bind]. eexists. split; [reflexivity|].
    unfold dt_minus. cbn [dt_date dt_hour dt_minute dt_second dt_microsecond].
    set (r := ((toordinal (dt_date now) - toordinal (dt_date now)) * 86400
               + (0 + minute * 60 + hour * 3600
                  - (dt_second now + dt_minute now * 60 + dt_hour now * 3600))) * 1000000
              + (0 - dt_microsecond now)).
    assert (r = clock_us hour minute - day_us now) as ->
      by (unfold r, clock_us, day_us; lia).
    split; [lia|]. split; [|split; [lia|lia]].
    replace (day_us now + (clock_us hour minute - day_us now)) with (clock_us hour minute) by lia.
    apply Z.mod_small. lia.
Qed.

(** Monday 2 June 2025, 15:00:00 sharp: the next 3 pm is a day away. *)
Lemma seconds_until_is_next_occurrence_witness :
  let now := {| dt_date := monday; dt_hour := 15; dt_minute := 0; dt_second := 0;
                dt_microsecond := 0 |} in
  _seconds_until now 15 0 = Ok DAY_US
  ∧ ∃ r, _seconds_until now 15 0 = Ok r
         ∧ 0 < r <= DAY_US
         ∧ (day_us now + r) mod DAY_US = clock_us 15 0
         ∧ (r = DAY_US ↔ day_us now = clock_us 15 0)
         ∧ (day_us now < clock_us 15 0 → r = clock_us 15 0 - day_us now).
Proof.
  intros now. split; [vm_compute; reflexivity|].
  apply (seconds_until_is_next_occurrence now 15 0).
  - unfold valid_datetime, now. cbn [dt_date dt_hour dt_minute dt_second dt_microsecond].
    split; [vm_compute; reflexivity|lia].
  - lia.
  - lia.
  - vm_compute. reflexivity.
Defined.

(** The edges of [_seconds_until]: an hour or a minute out of range
    raises [ValueError]; on the last day of the calendar, from the moment
    [hour:minute] on, the step to the next day raises [OverflowError]. *)
Lemma seconds_until_edges now hour minute :
  (¬ (0 <= hour <= 23 ∧ 0 <= minute <= 59) → _seconds_until now hour minute = Raise ValueError)
  ∧ (valid_datetime now → 0 <= hour <= 23 → 0 <= minute <= 59 →
     toordinal (dt_date now) = _MAXORDINAL → clock_us hour minute <= day_us now →
     _seconds_until now hour minute = Raise OverflowError).
Proof.
  split.
  - intros H. unfold _seconds_until, replace_time.
    destruct (Z.leb_spec 0 hour), (Z.leb_spec hour 23), (Z.leb_spec 0 minute),
      (Z.leb_spec minute 59); cbn [andb]; try reflexivity. lia.
  - intros Hnow Hhour Hminute Hmax Hle. unfold _seconds_until, replace_time.
    replace ((0 <=? hour) && (hour <=? 23) && (0 <=? minute) && (minute <=? 59)) with true
      by (symmetry; repeat (apply andb_true_intro; split); apply Z.leb_le; lia).
    cbn [mbind res_bind]. rewrite target_reached by done.
    replace (clock_us hour minute <=? day_us now) with true by (symmetry; apply Z.leb_le; lia).
    unfold dt_plus_days. cbn [dt_date]. rewrite date_plus_overflow by lia. reflexivity.
Qed.




Section Nine.
Variable fromisoformat : str → option date.




End Nine.







Local Close Scope Z_scope.

(** ** The scanners' loop over a text *)















(** ** The email scanner *)



Lemma only_logged_ledger w w' : only_logged w w' → ledger_kept w w'.
Proof. by intros (_ & _ & ? & ? & _). Qed.

Lemma only_logged_tasks w w' : only_logged w w' → tasks_kept w w'.
Proof. by intros (? & ? & _). Qed.

Lemma marked_tasks listing pid w : tasks_kept w (marked listing pid w).
Proof. done. Qed.


Lemma marked_log listing pid w : LOG_FILE (marked listing pid w) = LOG_FILE w.
Proof. reflexivity. Qed.


Lemma logged_tasks m w : tasks_kept w (logged m w).
Proof. done. Qed.

Lemma logged_last m w : last (LOG_FILE (logged m w)) = Some m.
Proof. unfold logged, log. cbn [snd LOG_FILE]. apply last_snoc. Qed.








Lemma occurs_trans (x y z : str) : occurs x y → occurs y z → occurs x z.
Proof.
  intros (a & b & ->) (c & d & ->). exists (c ++ a), (b ++ d). by rewrite <- !app_assoc.
Qed.

Section Scanner.
Variable USER_NAME : str.
Variable SMTP_USER : str.
Variable listing : gset str → list str.
Variable str_of_exn : exn → str.












End Scanner.



